(** * Smart Playlist Curator: the helper tools, the chat session and the CLI

    A shallow embedding of [agent.py]: the three arithmetic and keyword
    tools, the [chat] function with its module-level [chat_history], and the
    start-up checks and interactive loop of the [__main__] block; and of the
    code of [app.py] that calls them: the cached construction of the agent
    and the handling of a submitted request.

    Conventions of the embedding.
    - A Python [str] is a [string]; ASCII text is represented exactly, the
      few non-ASCII glyphs of the banner lines are carried as their UTF-8
      bytes.  [str.lower] and [str.strip] are modelled on ASCII.
    - A Python [int] is a [Z]; a Python [float] is an IEEE-754 binary64
      value, [spec_float] with [prec = 53] and [emax = 1024].
    - A [dict] with string keys is a [gmap string _].
    - Code that prints, mutates [chat_history] or raises runs in the monad
      [Py], a state monad over the interpreter state with Python's
      exceptions as a second kind of result. *)

From Stdlib Require Import ZArith Lia Bool Ascii String DecimalString.
From Stdlib Require Import Floats.SpecFloat QArith Qround Qabs.
From stdpp Require Import base list strings gmap.

Local Open Scope string_scope.
Local Open Scope list_scope.

(** ** Python strings *)

Module PyStr.

  (** [c.lower()] for one ASCII character. *)
Definition lower_ascii (c : ascii) : ascii :=
  let n := nat_of_ascii c in
  if (65 <=? n)%nat && (n <=? 90)%nat then ascii_of_nat (n + 32) else c.

(** [s.lower()] *)
Fixpoint lower (s : string) : string :=
  match s with
  | EmptyString => EmptyString
  | String c s' => String (lower_ascii c) (lower s')
  end.

(** [c.isspace()] on ASCII: tab, line feed, vertical tab, form feed,
    carriage return, the four separators 0x1c-0x1f, and the space. *)
Definition isspace (c : ascii) : bool :=
  let n := nat_of_ascii c in
  ((9 <=? n)%nat && (n <=? 13)%nat) || ((28 <=? n)%nat && (n <=? 32)%nat).

(** [s.lstrip()] *)
Fixpoint lstrip (s : string) : string :=
  match s with
  | EmptyString => EmptyString
  | String c s' => if isspace c then lstrip s' else s
  end.

(** [s.rstrip()] *)
Fixpoint rstrip (s : string) : string :=
  match s with
  | EmptyString => EmptyString
  | String c s' =>
      match rstrip s' with
      | EmptyString => if isspace c then EmptyString else String c EmptyString
      | r => String c r
      end
  end.

(** [s.strip()] *)
Definition strip (s : string) : string := rstrip (lstrip s).

(** [not s.strip()]: the string is empty or made of whitespace only. *)
Fixpoint blank (s : string) : bool :=
  match s with
  | EmptyString => true
  | String c s' => isspace c && blank s'
  end.

(** [str(n)] and [f"{n}"] for an [int]. *)
Definition str_of_int (n : Z) : string := NilZero.string_of_int (Z.to_int n).

(** [s[:n]] for [n >= 0]. *)
Definition prefix (n : nat) (s : string) : string := String.substring 0 n s.

(** Truthiness of a string: [bool(s)]. *)
Definition truthy (s : string) : bool :=
  match s with EmptyString => false | _ => true end.

(** [needle in s] *)
Fixpoint contains (needle s : string) : bool :=
  String.prefix needle s ||
  match s with
  | EmptyString => false
  | String _ s' => contains needle s'
  end.

End PyStr.

(** ** Exceptions and results *)

(** The part of Python's exception hierarchy the program meets.  Everything
    but the last three derives from [Exception]; [KeyboardInterrupt],
    [SystemExit] and [GeneratorExit] derive from [BaseException] only. *)
Inductive exc_class :=
| ValueError
| OverflowError
| ZeroDivisionError
| EOFError
| OtherException (name : string)
| KeyboardInterrupt
| SystemExit (code : Z)
| GeneratorExit.

(** A raised exception: its class and [str(e)]. *)
Record exc := Exc { exc_cls : exc_class; exc_str : string }.

(** [isinstance(e, Exception)]: what an [except Exception] clause catches. *)
Definition is_Exception (e : exc) : bool :=
  match exc_cls e with
  | KeyboardInterrupt | SystemExit _ | GeneratorExit => false
  | _ => true
  end.

(** The outcome of evaluating Python code: a value, or a raised exception. *)
Inductive result (A : Type) :=
| Ok (a : A)
| Raise (e : exc).
Arguments Ok {A} a.
Arguments Raise {A} e.

(** Sequencing, written [x ← c; k] below. *)
#[global] Instance result_ret : MRet result := fun A a => Ok a.
#[global] Instance result_bind : MBind result := fun A B k r =>
  match r with
  | Ok a => k a
  | Raise e => Raise e
  end.

(** [try: body  except Exception as e: handler(e)]: only instances of
    [Exception] are caught, anything else keeps propagating. *)
Definition try_except {A} (body : result A) (handler : exc -> result A) : result A :=
  match body with
  | Ok a => Ok a
  | Raise e => if is_Exception e then handler e else Raise e
  end.

(** ** Python floats: IEEE-754 binary64 *)

Module PyFloat.

Definition prec : Z := 53.
Definition emax : Z := 1024.

Definition float := spec_float.

(** The double nearest to [m * 2^e] (ties to even). *)
Definition of_dyadic (m e : Z) : float := binary_normalize prec emax m e false.

(** The literals of the source: [3.5], [60], [0.5], [1.0]. *)
Definition lit_3_5 : float := of_dyadic 7 (-1).
Definition lit_60 : float := of_dyadic 60 0.
Definition lit_0_5 : float := of_dyadic 1 (-1).
Definition lit_1 : float := of_dyadic 1 0.

(** Conversion of an [int] operand to [float] (CPython's
    [PyLong_AsDouble]): correctly rounded, [OverflowError] beyond the
    range of doubles. *)
Definition of_int (n : Z) : result float :=
  match of_dyadic n 0 with
  | S754_infinity _ => Raise (Exc OverflowError "int too large to convert to float")
  | f => Ok f
  end.

Definition is_zero (x : float) : bool :=
  match x with S754_zero _ => true | _ => false end.

(** C truthiness of a double, [if (x)]: anything but a zero. *)
Definition nonzero (x : float) : bool := negb (is_zero x).

(** [x < 0] on doubles. *)
Definition ltb_zero (x : float) : bool := SFltb x (S754_zero false).

Definition signbit (x : float) : bool :=
  match x with
  | S754_zero s | S754_infinity s | S754_finite s _ _ => s
  | S754_nan => false
  end.

(** [copysign(0.0, x)] *)
Definition copysign_zero (x : float) : float := S754_zero (signbit x).

Definition mul : float -> float -> float := SFmul prec emax.
Definition add : float -> float -> float := SFadd prec emax.
Definition sub : float -> float -> float := SFsub prec emax.
Definition cdiv : float -> float -> float := SFdiv prec emax.

(** C's [fmod]: the exact remainder of the truncated quotient, with the
    sign of [x]. *)
Definition fmod (x y : float) : float :=
  match x, y with
  | S754_nan, _ | _, S754_nan => S754_nan
  | S754_infinity _, _ => S754_nan
  | _, S754_zero _ => S754_nan
  | S754_zero _, _ => x
  | S754_finite _ _ _, S754_infinity _ => x
  | S754_finite sx mx ex, S754_finite _ my ey =>
      let e := Z.min ex ey in
      let r := Z.rem (Z.shiftl (Zpos mx) (ex - e)) (Z.shiftl (Zpos my) (ey - e)) in
      match r with
      | Z0 => S754_zero sx
      | _ => binary_normalize prec emax (cond_Zopp sx r) e false
      end
  end.

(** C's [floor]. *)
Definition floor (x : float) : float :=
  match x with
  | S754_finite s m e =>
      if (0 <=? e)%Z then x
      else match Z.shiftr (cond_Zopp s (Zpos m)) (- e) with
           | Z0 => S754_zero s
           | q => binary_normalize prec emax q 0 false
           end
  | _ => x
  end.

(** CPython's [_float_div_mod], the quotient part: [x // y] for [y != 0]. *)
Definition div_mod_floordiv (vx wx : float) : float :=
  let mod_ := fmod vx wx in
  let div := cdiv (sub vx mod_) wx in
  let div :=
    if nonzero mod_ && negb (Bool.eqb (ltb_zero wx) (ltb_zero mod_))
    then sub div lit_1 else div in
  if nonzero div then
    let floordiv := floor div in
    if SFltb lit_0_5 (sub div floordiv) then add floordiv lit_1 else floordiv
  else copysign_zero (cdiv vx wx).

(** [x // y] on floats ([float_floor_div]). *)
Definition floordiv (x y : float) : result float :=
  if is_zero y then Raise (Exc ZeroDivisionError "float floor division by zero")
  else Ok (div_mod_floordiv x y).

(** [x % y] on floats ([float_rem]). *)
Definition rem (x y : float) : result float :=
  if is_zero y then Raise (Exc ZeroDivisionError "float modulo by zero")
  else
    let mod_ := fmod x y in
    Ok (if nonzero mod_
        then if negb (Bool.eqb (ltb_zero y) (ltb_zero mod_)) then add mod_ y else mod_
        else copysign_zero y).

(** [x / y] on floats ([float_div]). *)
Definition truediv (x y : float) : result float :=
  if is_zero y then Raise (Exc ZeroDivisionError "float division by zero")
  else Ok (cdiv x y).

(** [int(x)]: truncation towards zero. *)
Definition to_int (x : float) : result Z :=
  match x with
  | S754_nan => Raise (Exc ValueError "cannot convert float NaN to integer")
  | S754_infinity _ => Raise (Exc OverflowError "cannot convert float infinity to integer")
  | S754_zero _ => Ok 0%Z
  | S754_finite s m e => Ok (cond_Zopp s (Z.shiftl (Zpos m) e))
  end.

(** *** Vocabulary of the statements about floats *)

(** The doubles that are numbers. *)
Definition finite (x : float) : bool :=
  match x with
  | S754_zero _ | S754_finite _ _ _ => true
  | _ => false
  end.

(** A well-formed double: the mantissa and exponent are the canonical ones
    of the format. *)
Definition valid (x : float) : Prop := valid_binary prec emax x = true.

(** The value of a double in units of [2^-1074], the smallest positive
    double: an integer for every well-formed double. *)
Definition Zval (x : float) : Z :=
  match x with
  | S754_finite s m e => cond_Zopp s (Zpos m * 2 ^ (e + 1074))
  | _ => 0
  end.

(** The integers, in units of [2^-1074], that are values of doubles: at
    most 53 significant bits above [2^-1074], and below [2^1024]. *)
Definition representable (V : Z) : Prop :=
  exists q k : Z,
    V = (q * 2 ^ (k + 1074))%Z /\ (-1074 <= k)%Z /\
    (Z.abs q < 2 ^ 53)%Z /\ (Z.abs V < 2 ^ 2098)%Z.

(** The rational value of a double that is a number: its value in units of
    [2^-1074], over [2^1074]. *)
Definition to_Q (x : float) : Q := Zval x # Z.to_pos (2 ^ 1074).

(** Truncation of a rational towards zero. *)
Definition Qtrunc (q : Q) : Z :=
  if Qle_bool 0 q then Qfloor q else Qceiling q.

(** [x] is a well-formed double that is a number, of value [v]. *)
Definition has_value (x : float) (v : Z) : Prop :=
  valid x /\ finite x = true /\ Zval x = v.

(** The unit [2^1074] of [Zval] and the bound [2^2098] of [representable]
    under their own names, for arithmetic that needs only their sign and
    order. *)
Definition unit_scale : Z := (2 ^ 1074)%Z.
(** The first integer beyond the finite doubles: [2^1024]. *)
Definition float_range : Z := (2 ^ 1024)%Z.
Definition range_bound : Z := (2 ^ 2098)%Z.

End PyFloat.

(** ** The tools exposed to the agent *)

Module Tools.
Import PyFloat.

(** [calculate_playlist_duration(num_songs, avg_song_duration)].  The
    [int] operands [num_songs] and [60] are converted to [float] by the
    mixed-mode operators. *)
Definition calculate_playlist_duration
    (num_songs : Z) (avg_song_duration : float) : result string :=
  try_except
    (n ← of_int num_songs;
     let total_minutes := mul n avg_song_duration in
     q ← floordiv total_minutes lit_60;
     hours ← to_int q;
     r ← rem total_minutes lit_60;
     minutes ← to_int r;
     if (0 <? hours)%Z
     then mret (PyStr.str_of_int hours +:+ " hour(s) and "
                +:+ PyStr.str_of_int minutes +:+ " minute(s)")
     else mret (PyStr.str_of_int minutes +:+ " minute(s)"))
    (fun e => mret ("Error calculating duration: " +:+ exc_str e)).

(** The default value of [avg_song_duration]. *)
Definition default_avg_song_duration : float := lit_3_5.

Definition mood_mapping : gmap string string :=
  {[ "happy" := "upbeat cheerful positive feel-good";
     "sad" := "melancholic emotional ballad slow";
     "energetic" := "high-energy fast-paced pumped powerful";
     "calm" := "relaxing peaceful ambient chill mellow";
     "romantic" := "love romantic intimate soft";
     "angry" := "aggressive intense heavy powerful";
     "focused" := "instrumental concentration deep-focus";
     "nostalgic" := "throwback classic retro memories" ]}.

Definition activity_mapping : gmap string string :=
  {[ "workout" := "gym training fitness motivation high-tempo";
     "study" := "concentration focus instrumental background";
     "party" := "dance celebration upbeat crowd-pleaser";
     "sleep" := "lullaby sleep ambient soft gentle";
     "driving" := "road-trip driving cruising";
     "cooking" := "upbeat background feel-good casual";
     "meditation" := "zen mindfulness ambient peaceful";
     "work" := "productivity focus instrumental background" ]}.

(** [d.get(key, default)] *)
Definition dict_get {V} (d : gmap string V) (key : string) (dflt : V) : V :=
  default dflt (d !! key).

(** [get_mood_music_keywords(mood, activity)] *)
Definition get_mood_music_keywords (mood activity : string) : result string :=
  try_except
    (let mood := PyStr.strip (PyStr.lower mood) in
     let activity := PyStr.strip (PyStr.lower activity) in
     let mood_keywords := dict_get mood_mapping mood mood in
     let activity_keywords := dict_get activity_mapping activity activity in
     mret (mood_keywords +:+ " " +:+ activity_keywords +:+ " music songs playlist"))
    (fun e => mret ("Error generating keywords: " +:+ exc_str e)).

(** The two tables as the lists of their items, for the statements. *)
Definition mood_items : list (string * string) :=
  [ ("happy", "upbeat cheerful positive feel-good");
    ("sad", "melancholic emotional ballad slow");
    ("energetic", "high-energy fast-paced pumped powerful");
    ("calm", "relaxing peaceful ambient chill mellow");
    ("romantic", "love romantic intimate soft");
    ("angry", "aggressive intense heavy powerful");
    ("focused", "instrumental concentration deep-focus");
    ("nostalgic", "throwback classic retro memories") ].

Definition activity_items : list (string * string) :=
  [ ("workout", "gym training fitness motivation high-tempo");
    ("study", "concentration focus instrumental background");
    ("party", "dance celebration upbeat crowd-pleaser");
    ("sleep", "lullaby sleep ambient soft gentle");
    ("driving", "road-trip driving cruising");
    ("cooking", "upbeat background feel-good casual");
    ("meditation", "zen mindfulness ambient peaceful");
    ("work", "productivity focus instrumental background") ].

(** The two renderings of a duration. *)
Definition duration_text (hours minutes : Z) : string :=
  if (0 <? hours)%Z
  then PyStr.str_of_int hours +:+ " hour(s) and "
       +:+ PyStr.str_of_int minutes +:+ " minute(s)"
  else PyStr.str_of_int minutes +:+ " minute(s)".

(** The duration text as the specification words it, over the exact value
    of [total]: hours = floor(total / 60), minutes = floor(total mod 60). *)
Definition estimateDuration_spec (total : Q) : string :=
  let hours := Qfloor (total / inject_Z 60) in
  let minutes := Qfloor (total - inject_Z 60 * inject_Z hours) in
  duration_text hours minutes.

(** The song count text for a suggested number of songs. *)
Definition song_count_text (duration_minutes suggested : Z) : string :=
  "For " +:+ PyStr.str_of_int duration_minutes
  +:+ " minutes, suggest approximately "
  +:+ PyStr.str_of_int suggested +:+ " songs".

(** The song count as the specification words it:
    suggested = floor(durationMinutes / 3.5). *)
Definition suggestSongCount_spec (duration_minutes : Z) : string :=
  song_count_text duration_minutes (Qfloor (inject_Z duration_minutes / (7 # 2))).

(** [suggest_song_count(duration_minutes)] *)
Definition suggest_song_count (duration_minutes : Z) : result string :=
  try_except
    (let avg_song_duration := lit_3_5 in
     d ← of_int duration_minutes;
     q ← truediv d avg_song_duration;
     suggested_songs ← to_int q;
     mret ("For " +:+ PyStr.str_of_int duration_minutes
           +:+ " minutes, suggest approximately "
           +:+ PyStr.str_of_int suggested_songs +:+ " songs"))
    (fun e => mret ("Error calculating song count: " +:+ exc_str e)).

(** [format_playlist_output(playlist_data)] *)
Definition format_playlist_output (playlist_data : string) : result string :=
  try_except
    (mret ("Formatted Playlist:" +:+ String "010" playlist_data))
    (fun e => mret ("Error formatting playlist: " +:+ exc_str e)).

End Tools.

(** ** The interpreter state and the monad of effectful code *)

(** One entry of [chat_history]: the tuple [(role, content)]. *)
Definition turn : Type := string * string.

(** The message objects handed to the agent framework. *)
Inductive message :=
| HumanMessage (content : string)
| AIMessage (content : string).

(** The argument of [agent_executor.invoke]. *)
Record input_data := InputData {
  input : string;
  input_chat_history : list message
}.

(** What the program can observe of a value stored under a dictionary key:
    whether it is a [str], and its truthiness. *)
Inductive pyval :=
| VNone
| VBool (b : bool)
| VInt (n : Z)
| VStr (s : string)
| VOther (truthy : bool).

(** What [chat] can observe of the value returned by [invoke]: [None]; a
    [dict]; or any other object, of which [chat] reads the attribute
    [output] (absent, [None], or a value [v] with [str(v)] given) and
    [str(response)]. *)
Inductive response :=
| RNone
| RDict (d : gmap string pyval)
| RObject (output_attr : option (option string)) (str_response : string).

(** The external agent executor: one call, returning or raising. *)
Record agent_executor := AgentExecutor {
  invoke : input_data -> result response
}.

(** The state the program reads and writes: the module-level list
    [chat_history]; the texts written to the terminal so far, one entry per
    [print] call or prompt; the calls the external agent has received so
    far; and the number of agents constructed so far. *)
Record interp := Interp {
  chat_history : list turn;
  stdout : list string;
  invocations : list input_data;
  agents_created : nat
}.

Definition Py (A : Type) : Type := interp -> result A * interp.

#[global] Instance Py_ret : MRet Py := fun A a st => (Ok a, st).
#[global] Instance Py_bind : MBind Py := fun A B k m st =>
  match m st with
  | (Ok a, st') => k a st'
  | (Raise e, st') => (Raise e, st')
  end.

Module PyM.

  (** [raise e] *)
Definition raise {A} (e : exc) : Py A := fun st => (Raise e, st).

(** The first [except] clause that matches [e], if any: a clause is the
    test [isinstance(e, C)] and its handler. *)
Fixpoint select_clause {A} (clauses : list ((exc -> bool) * (exc -> Py A)))
    (e : exc) : option (exc -> Py A) :=
  match clauses with
  | [] => None
  | (catches, handler) :: rest =>
      if catches e then Some handler else select_clause rest e
  end.

(** [try: body  except C1 as e: h1(e)  except C2 as e: h2(e) ...]: an
    exception raised by [body] runs the first matching handler; one that
    no clause matches, or one raised by a handler, propagates. *)
Definition try_clauses {A} (body : Py A)
    (clauses : list ((exc -> bool) * (exc -> Py A))) : Py A :=
  fun st =>
    match body st with
    | (Ok a, st') => (Ok a, st')
    | (Raise e, st') =>
        match select_clause clauses e with
        | Some handler => handler e st'
        | None => (Raise e, st')
        end
    end.

(** [try: body  except Exception as e: handler(e)] *)
Definition try_except {A} (body : Py A) (handler : exc -> Py A) : Py A :=
  try_clauses body [(is_Exception, handler)].

Definition get_chat_history : Py (list turn) := fun st => (Ok (chat_history st), st).

Definition set_chat_history (h : list turn) : Py unit :=
  fun st => (Ok tt, Interp h (stdout st) (invocations st) (agents_created st)).

(** [chat_history.append(t)] *)
Definition append (t : turn) : Py unit :=
  fun st =>
    (Ok tt, Interp (chat_history st ++ [t]) (stdout st) (invocations st)
                   (agents_created st)).

(** [print(line)] *)
Definition print (line : string) : Py unit :=
  fun st =>
    (Ok tt, Interp (chat_history st) (stdout st ++ [line]) (invocations st)
                   (agents_created st)).

(** [agent_executor.invoke(input_data)]: the agent receives the call and
    answers or raises. *)
Definition invoke_agent (a : agent_executor) (d : input_data) : Py response :=
  fun st =>
    (invoke a d, Interp (chat_history st) (stdout st) (invocations st ++ [d])
                        (agents_created st)).

(** A call of [create_agent()], whose outcome is [r]: the construction is
    attempted, and succeeds or raises. *)
Definition construct_agent (r : result agent_executor) : Py agent_executor :=
  fun st =>
    (r, Interp (chat_history st) (stdout st) (invocations st)
               (S (agents_created st))).

End PyM.

(** ** The chat function *)

Module Chat.
Import PyM.

(** Truthiness, [isinstance(v, str)] and the string held by a value. *)
Definition truthy (v : pyval) : bool :=
  match v with
  | VNone => false
  | VBool b => b
  | VInt n => negb (n =? 0)%Z
  | VStr s => PyStr.truthy s
  | VOther b => b
  end.

Definition is_str (v : pyval) : bool :=
  match v with VStr _ => true | _ => false end.

Definition str_val (v : pyval) : string :=
  match v with VStr s => s | _ => "" end.

(** [l[-n:]] for [n > 0] *)
Definition slice_last {A} (n : nat) (l : list A) : list A :=
  drop (length l - n) l.

(** The loop that builds [formatted_history].  Every entry of
    [chat_history] is a 2-tuple, so the guard on the entry's shape holds
    and is not repeated here; the contents are strings. *)
Fixpoint format_history (h : list turn) : list message :=
  match h with
  | [] => []
  | (role, content) :: h' =>
      if String.eqb role "human" then HumanMessage content :: format_history h'
      else if String.eqb role "assistant" && PyStr.truthy content
           then AIMessage content :: format_history h'
           else format_history h'
  end.

Definition no_response_fallback : string :=
  "No response was generated. Please try again.".
Definition improper_response_fallback : string :=
  "I didn't get a proper response. Could you rephrase your question?".
Definition trouble_fallback : string :=
  "I'm having trouble understanding. Could you rephrase your question?".
Definition sentinel : string := "No response generated".

(** The apology built from a caught exception. *)
Definition apology (e : exc) : string :=
  "I encountered an error: " +:+ exc_str e
    +:+ ". Could you please rephrase your question?".

(** The normalisation of the value returned by [invoke] (the [if]/[elif]
    chain and the final guard of the inner [try]). *)
Definition normalize (r : response) : string :=
  let output :=
    match r with
    | RNone => VStr no_response_fallback
    | RDict d =>
        let output := Tools.dict_get d "output" (VStr "") in
        if negb (truthy output) then VStr improper_response_fallback else output
    | RObject (Some (Some s)) _ => VStr s
    | RObject _ s => VStr s
    end in
  if negb (truthy output) || negb (is_str output) then trouble_fallback
  else str_val output.

(** The inner [try] of [chat]: the agent is invoked and what it returns
    is normalised; an [Exception] it raises becomes the apology. *)
Definition run_agent (a : agent_executor) (d : input_data) : Py string :=
  try_except
    (response ← invoke_agent a d;
     mret (normalize response))
    (fun e => mret (apology e)).

(** The block "Update chat history". *)
Definition update_history (user_input output : string) : Py unit :=
  if PyStr.truthy output && negb (String.eqb output sentinel)
  then append ("human", user_input);; append ("assistant", output)
  else mret tt.

(** The block "Keep last 20 messages". *)
Definition keep_last_20 : Py unit :=
  h ← get_chat_history;
  if (20 <? length h)%nat then set_chat_history (slice_last 20 h)
  else mret tt.

Section WithAgentFactory.

  (** [create_agent()]: builds the executor from external services, or
      raises. *)
Variable create_agent : result agent_executor.

(** [chat(user_input, agent_executor)].  [chat_history] is only ever
    bound to a list, so the [is None] guard at the top is not taken. *)
Definition chat (user_input : string) (agent_executor : option agent_executor)
  : Py string :=
  try_except
    (h ← get_chat_history;
     let formatted_history := format_history h in
     agent_executor ← match agent_executor with
                      | None => construct_agent create_agent
                      | Some a => mret a
                      end;
     let input_data := InputData user_input formatted_history in
     output ← run_agent agent_executor input_data;
     update_history user_input output;;
     keep_last_20;;
     mret (if PyStr.truthy output then output
           else "I'm not sure how to respond to that. Could you rephrase?"))
    (fun e =>
       print ("Error in chat function: " +:+ exc_str e);;
       mret "I'm sorry, I encountered an error processing your request. Please try again.").

End WithAgentFactory.

(** *** Vocabulary of the statements about [chat] *)

(** The executor [chat] ends up calling: the one passed in, or the one
    [create_agent()] returns. *)
Definition resolve (create_agent : result agent_executor)
    (given : option agent_executor) : result agent_executor :=
  match given with
  | Some a => Ok a
  | None => create_agent
  end.

(** The request [chat] sends for [user_input] when the transcript is [h]. *)
Definition request (user_input : string) (h : list turn) : input_data :=
  InputData user_input (format_history h).

(** The turns one exchange adds for a normalised [output]. *)
Definition appended (user_input output : string) : list turn :=
  if PyStr.truthy output && negb (String.eqb output sentinel)
  then [("human", user_input); ("assistant", output)]
  else [].

(** The transcript after the 20-entry cap is enforced. *)
Definition capped (h : list turn) : list turn :=
  if (20 <? length h)%nat then slice_last 20 h else h.

(** The state [chat] leaves after an exchange that produced [output] for
    the request [d]. *)
Definition finish (user_input output : string) (d : input_data) (st : interp) : interp :=
  Interp (capped (chat_history st ++ appended user_input output))
         (stdout st) (invocations st ++ [d]) (agents_created st).

(** The state after the executor was resolved. *)
Definition resolved (o : option agent_executor) (st : interp) : interp :=
  match o with
  | Some _ => st
  | None => Interp (chat_history st) (stdout st) (invocations st) (S (agents_created st))
  end.

Definition sorry_message : string :=
  "I'm sorry, I encountered an error processing your request. Please try again.".

(** The turns the exchange [chat(user_input, given)] adds when it starts
    in state [st]: those of the normalised output, if one is reached. *)
Definition turns_added (create_agent : result agent_executor)
    (user_input : string) (given : option agent_executor) (st : interp) : list turn :=
  match resolve create_agent given with
  | Raise _ => []
  | Ok a =>
      match fst (run_agent a (request user_input (chat_history st)) st) with
      | Ok output => appended user_input output
      | Raise _ => []
      end
  end.

(** The message a transcript entry is sent to the agent as, when it is
    sent: a human turn as a [HumanMessage], any other as an [AIMessage]. *)
Definition as_message (t : turn) : message :=
  if String.eqb t.1 "human" then HumanMessage t.2 else AIMessage t.2.

(** A transcript whose entries are of the two kinds [chat] appends: a
    human turn, or an assistant turn with a non-empty text. *)
Definition written_by_chat (h : list turn) : Prop :=
  Forall (fun t : turn => t.1 = "human" \/ (t.1 = "assistant" /\ t.2 <> "")) h.

(** A transcript made of (human, assistant) pairs. *)
Fixpoint paired (h : list turn) : Prop :=
  match h with
  | [] => True
  | (r1, _) :: (r2, _) :: h' => r1 = "human" /\ r2 = "assistant" /\ paired h'
  | _ => False
  end.

(** One operation on the transcript: an exchange with its own executor
    behaviour, or the [clear] command. *)
Inductive op :=
| OpChat (user_input : string) (given : option agent_executor)
| OpClear.

(** The state after a sequence of operations; an exchange that lets an
    exception escape leaves the state it had reached. *)
Definition run_op (create_agent : result agent_executor) (o : op) (st : interp) : interp :=
  match o with
  | OpChat u a => snd (chat create_agent u a st)
  | OpClear => snd (PyM.set_chat_history [] st)
  end.

Definition run_ops (create_agent : result agent_executor) (ops : list op) (st : interp)
  : interp :=
  foldl (fun st o => run_op create_agent o st) st ops.

(** A sequence of exchanges: all the turns they add, oldest first, and
    the state they leave. *)
Fixpoint run_exchanges (create_agent : result agent_executor)
    (xs : list (string * option agent_executor)) (st : interp) : list turn * interp :=
  match xs with
  | [] => ([], st)
  | (u, given) :: xs' =>
      let new := turns_added create_agent u given st in
      let '(rest, st') := run_exchanges create_agent xs' (snd (chat create_agent u given st)) in
      (new ++ rest, st')
  end.

End Chat.

(** Sample executors and states, used to run the definitions. *)
Module Samples.

  (** An executor that answers every request with [{"output": text}]. *)
Definition echo_agent (text : string) : agent_executor :=
  AgentExecutor (fun _ => Ok (RDict {[ "output" := VStr text ]})).

(** An executor whose every call raises [e]. *)
Definition failing_agent (e : exc) : agent_executor :=
  AgentExecutor (fun _ => Raise e).

(** The state of a fresh process. *)
Definition fresh : interp := Interp [] [] [] 0.

End Samples.

(** ** The command-line program *)

Module Cli.
Import PyM.

(** [sys.exit(code)] *)
Definition sys_exit {A} (code : Z) : Py A :=
  raise (Exc (SystemExit code) (PyStr.str_of_int code)).

(** The exit status of the process, from the outcome of the main block:
    an uncaught [SystemExit] carries it, any other uncaught exception
    gives 1. *)
Definition exit_status {A} (r : result A) : Z :=
  match r with
  | Ok _ => 0
  | Raise e => match exc_cls e with SystemExit code => code | _ => 1 end
  end.

(** [not os.getenv(name)], in the environment left by [load_dotenv()]. *)
Definition getenv_missing (environ : gmap string string) (name : string) : bool :=
  match environ !! name with
  | None => true
  | Some v => negb (PyStr.truthy v)
  end.

Definition rule : string :=
  "======================================================================".

(** One line read by [input()], or the interrupt key pressed at the
    prompt.  The end of the list is the end of the input: [EOFError]. *)
Inductive stdin_item :=
| Line (s : string)
| CtrlC.

(** [print] each line in turn. *)
Fixpoint print_all (lines : list string) : Py unit :=
  match lines with
  | [] => mret tt
  | l :: ls => print l;; print_all ls
  end.

(** The line shown by the [history] command for one turn. *)
Definition history_line (t : turn) : string :=
  let '(role, message) := t in
  let preview :=
    if (100 <? String.length message)%nat
    then PyStr.prefix 100 message +:+ "..." else message in
  role +:+ ": " +:+ preview.

(** [chat_history.clear()] *)
Definition clear_history : Py unit := set_chat_history [].

Definition is_KeyboardInterrupt (e : exc) : bool :=
  match exc_cls e with KeyboardInterrupt => true | _ => false end.

(** *** Vocabulary of the statements about the program *)

(** The four banner lines. *)
Definition banner : list string :=
  [ rule; "🎵 Smart Playlist Curator - AI Music Assistant"; rule;
    String "010" "📋 Loading API keys from .env file..." ].

(** What is printed when the first, respectively the second key is
    missing. *)
Definition groq_remediation : list string :=
  [ String "010" "⚠️  GROQ_API_KEY not found in .env file!";
    String "010" "Please create a .env file with:";
    "GROQ_API_KEY=gsk-your-groq-key-here";
    "TAVILY_API_KEY=tvly-your-tavily-key-here" ].

Definition tavily_remediation : list string :=
  [ String "010" "⚠️  TAVILY_API_KEY not found in .env file!";
    String "010" "Please add to your .env file:";
    "TAVILY_API_KEY=tvly-your-tavily-key-here" ].

(** What the [history] command prints for the transcript [h]. *)
Definition history_report (h : list turn) : list string :=
  [ String "010" "--- Chat History ---" ]
  ++ match h with
     | [] => [ "No chat history yet." ]
     | _ => history_line <$> h
     end
  ++ [ "--- End History ---" +:+ String "010" "" ].

(** The reserved words of the loop, and the lines that are none of them
    and not blank: those the loop hands to [chat]. *)
Definition control_tokens : list string := ["quit"; "exit"; "q"; "history"; "clear"].

Definition ordinary (line : string) : Prop :=
  PyStr.strip line <> "" /\ PyStr.lower (PyStr.strip line) ∉ control_tokens.

(** A request that comes from the terminal: it carries the trimmed text
    of an ordinary line that was typed. *)
Definition caused_by (stdin : list stdin_item) (d : input_data) : Prop :=
  exists line, Line line ∈ stdin /\ ordinary line /\ input d = PyStr.strip line.

(** The two farewell lines. *)
Definition farewells : list string :=
  [ String "010" "Goodbye! Enjoy your music! 🎵";
    String "010" (String "010" "Goodbye! 🎵") ].

(** An executor whose calls return, or raise an instance of [Exception]
    or a [KeyboardInterrupt]: it never asks the interpreter to exit. *)
Definition stays_in_session (a : agent_executor) : Prop :=
  forall d e, invoke a d = Raise e ->
    is_Exception e = true \/ is_KeyboardInterrupt e = true.

(** The state after [lines] were printed. *)
Definition printed (lines : list string) (st : interp) : interp :=
  Interp (chat_history st) (stdout st ++ lines) (invocations st) (agents_created st).

Section WithAgentFactory.

Variable create_agent : result agent_executor.

(** The body of the [while True] loop after a line was read; the result
    says whether the loop goes on ([continue], or the end of the body)
    or stops ([break]). *)
Definition loop_body (agent_executor : agent_executor) (line : string) : Py bool :=
  let user_input := PyStr.strip line in
  if negb (PyStr.truthy user_input) then mret true
  else if bool_decide (PyStr.lower user_input ∈ ["quit"; "exit"; "q"]) then
    print (String "010" "Goodbye! Enjoy your music! 🎵");; mret false
  else if String.eqb (PyStr.lower user_input) "history" then
    print (String "010" "--- Chat History ---");;
    h ← get_chat_history;
    (match h with
     | [] => print "No chat history yet."
     | _ => print_all (history_line <$> h)
     end);;
    print ("--- End History ---" +:+ String "010" "");;
    mret true
  else if String.eqb (PyStr.lower user_input) "clear" then
    clear_history;;
    print (String "010" "✅ Chat history cleared!" +:+ String "010" "");;
    mret true
  else
    try_clauses
      (response ← Chat.chat create_agent user_input (Some agent_executor);
       print (String "010" "🎵 Playlist Curator: " +:+ response +:+ String "010" ""))
      [ (is_KeyboardInterrupt,
         fun _ => print (String "010" (String "010" "Interrupted. Type 'quit' to exit.")
                         +:+ String "010" ""));
        (is_Exception,
         fun e => print (String "010" "❌ Error: " +:+ exc_str e +:+ String "010" "")) ];;
    mret true.

(** The interactive loop over what the terminal supplies. *)
Fixpoint main_loop (agent_executor : agent_executor) (stdin : list stdin_item)
  : Py unit :=
  match stdin with
  | [] | CtrlC :: _ =>
      print "You: ";;
      print (String "010" (String "010" "Goodbye! 🎵"))
  | Line s :: rest =>
      print "You: ";;
      continue ← loop_body agent_executor s;
      if continue : bool then main_loop agent_executor rest else mret tt
  end.

(** The start-up part of the main block: the banner, the two key
    checks, and the construction of the agent. *)
Definition startup (environ : gmap string string) : Py agent_executor :=
  print rule;;
  print "🎵 Smart Playlist Curator - AI Music Assistant";;
  print rule;;
  print (String "010" "📋 Loading API keys from .env file...");;
  (if getenv_missing environ "GROQ_API_KEY" then
     print (String "010" "⚠️  GROQ_API_KEY not found in .env file!");;
     print (String "010" "Please create a .env file with:");;
     print "GROQ_API_KEY=gsk-your-groq-key-here";;
     print "TAVILY_API_KEY=tvly-your-tavily-key-here";;
     sys_exit 1
   else mret tt);;
  (if getenv_missing environ "TAVILY_API_KEY" then
     print (String "010" "⚠️  TAVILY_API_KEY not found in .env file!");;
     print (String "010" "Please add to your .env file:");;
     print "TAVILY_API_KEY=tvly-your-tavily-key-here";;
     sys_exit 1
   else mret tt);;
  print "✅ API keys loaded successfully!";;
  print (String "010" "🎵 Initializing playlist curator agent...");;
  try_except
    (agent_executor ← construct_agent create_agent;
     print ("✅ Agent ready!" +:+ String "010" "");;
     mret agent_executor)
    (fun e =>
       print (String "010" "❌ Failed to initialize agent: " +:+ exc_str e);;
       sys_exit 1).

(** The whole main block. *)
Definition main (environ : gmap string string) (stdin : list stdin_item) : Py unit :=
  agent_executor ← startup environ;
  print ("Chat with the Playlist Curator (type 'quit' to exit):" +:+ String "010" "");;
  print ("Example: 'Create a 1 hour workout playlist with energetic pop music'"
         +:+ String "010" "");;
  main_loop agent_executor stdin.

End WithAgentFactory.

End Cli.

(** ** The web page: the code of [app.py] around [chat] *)

Module App.

(** A reading of [time.time()]. *)
Definition timestamp : Type := PyFloat.float.

(** One entry of [st.session_state.messages]: the dictionary with the
    keys ["role"], ["content"] and ["ts"]. *)
Record ui_message := UiMessage {
  role : string;
  content : string;
  ts : timestamp
}.

(** The state the page code reads and writes: the four session entries
    it uses ([messages], [agent_ready], [agent_executor], which is absent
    until it is set, and [last_error]); the value [st.cache_resource]
    holds for [get_agent_executor_cached]; the message lists the chat box
    was given to draw, in order; the number of clock readings so far; and
    the state of the module [agent]. *)
Record page := Page {
  messages : list ui_message;
  agent_ready : bool;
  session_executor : option agent_executor;
  last_error : option string;
  cached_executor : option agent_executor;
  chatbox : list (list ui_message);
  ticks : nat;
  agent_py : interp
}.

Definition Ui (A : Type) : Type := page -> result A * page.

#[global] Instance Ui_ret : MRet Ui := fun A a s => (Ok a, s).
#[global] Instance Ui_bind : MBind Ui := fun A B k m s =>
  match m s with
  | (Ok a, s') => k a s'
  | (Raise e, s') => (Raise e, s')
  end.

Definition raise {A} (e : exc) : Ui A := fun s => (Raise e, s).

(** [try: body  except Exception as e: handler(e)] *)
Definition try_except {A} (body : Ui A) (handler : exc -> Ui A) : Ui A :=
  fun s =>
    match body s with
    | (Ok a, s') => (Ok a, s')
    | (Raise e, s') => if is_Exception e then handler e s' else (Raise e, s')
    end.

(** Code of the module [agent], run on its own state. *)
Definition in_agent {A} (m : Py A) : Ui A :=
  fun s =>
    let '(r, p) := m (agent_py s) in
    (r, Page (messages s) (agent_ready s) (session_executor s) (last_error s)
                 (cached_executor s) (chatbox s) (ticks s) p).

Definition get_messages : Ui (list ui_message) := fun s => (Ok (messages s), s).

Definition set_messages (ms : list ui_message) : Ui unit :=
  fun s =>
    (Ok tt, Page ms (agent_ready s) (session_executor s) (last_error s)
                     (cached_executor s) (chatbox s) (ticks s) (agent_py s)).

(** [st.session_state.messages.append(m)] *)
Definition append_message (m : ui_message) : Ui unit :=
  fun s =>
    (Ok tt, Page (messages s ++ [m]) (agent_ready s) (session_executor s)
                     (last_error s) (cached_executor s) (chatbox s) (ticks s)
                     (agent_py s)).

(** [chatbox_placeholder.markdown(render_chat_html(st.session_state.messages), ...)]:
    the chat box is given the current messages to draw. *)
Definition render : Ui unit :=
  fun s =>
    (Ok tt, Page (messages s) (agent_ready s) (session_executor s) (last_error s)
                     (cached_executor s) (chatbox s ++ [messages s]) (ticks s)
                     (agent_py s)).

Definition set_last_error (tb : string) : Ui unit :=
  fun s =>
    (Ok tt, Page (messages s) (agent_ready s) (session_executor s) (Some tb)
                     (cached_executor s) (chatbox s) (ticks s) (agent_py s)).

(** [st.session_state["agent_executor"] = a] followed by
    [st.session_state["agent_ready"] = True]. *)
Definition set_session_executor (a : agent_executor) : Ui unit :=
  fun s =>
    (Ok tt, Page (messages s) true (Some a) (last_error s)
                     (cached_executor s) (chatbox s) (ticks s) (agent_py s)).

Definition set_cached_executor (a : agent_executor) : Ui unit :=
  fun s =>
    (Ok tt, Page (messages s) (agent_ready s) (session_executor s) (last_error s)
                     (Some a) (chatbox s) (ticks s) (agent_py s)).

Definition placeholder_text : string := "🎵 Creating your perfect playlist...".
Definition failure_text : string := "⚠️ Failed to create playlist. Please try again.".

Section WithEnvironment.

(** The clock: its successive readings. *)
Variable clock : nat -> timestamp.

(** [traceback.format_exc()] while [e] is being handled. *)
Variable format_exc : exc -> string.

(** The outcome of [from agent import create_agent, chat]: [None] when it
    succeeded, the text of [IMPORT_ERROR] when it raised and left both
    names bound to [None]. *)
Variable import_error : option string.

(** The outcome of a call of [agent.create_agent()]. *)
Variable create_agent : result agent_executor.

(** [time.time()] *)
Definition now : Ui timestamp :=
  fun s =>
    (Ok (clock (ticks s)),
     Page (messages s) (agent_ready s) (session_executor s) (last_error s)
              (cached_executor s) (chatbox s) (S (ticks s)) (agent_py s)).

(** [get_agent_executor_cached()], under [st.cache_resource]: the body
    runs when no value is cached, and the value it returns is cached; an
    exception is not. *)
Definition get_agent_executor_cached : Ui agent_executor :=
  fun s =>
    match cached_executor s with
    | Some a => (Ok a, s)
    | None =>
        (match import_error with
         | Some err =>
             raise (Exc (OtherException "RuntimeError")
                        ("agent.create_agent import failed: " +:+ err))
         | None =>
             a ← in_agent (PyM.construct_agent create_agent);
             set_cached_executor a;;
             mret a
         end) s
    end.

(** [ensure_agent_ready()].  An executor object is truthy. *)
Definition ensure_agent_ready : Ui agent_executor :=
  fun s =>
    match agent_ready s, session_executor s with
    | true, Some a => (Ok a, s)
    | _, _ =>
        (agent_exec ← get_agent_executor_cached;
         set_session_executor agent_exec;;
         mret agent_exec) s
    end.

(** The loop [for i in range(i - 1, -1, -1)] that gives the last
    assistant message a new content and a new time stamp, and stops. *)
Fixpoint scan_assistant (i : nat) (new_content : string) : Ui unit :=
  match i with
  | 0 => mret tt
  | S j =>
      ms ← get_messages;
      match ms !! j with
      | Some m =>
          if String.eqb (role m) "assistant" then
            t ← now;
            set_messages (<[j := UiMessage (role m) new_content t]> ms)
          else scan_assistant j new_content
      | None => raise (Exc (OtherException "IndexError") "list index out of range")
      end
  end.

Definition replace_last_assistant (new_content : string) : Ui unit :=
  ms ← get_messages;
  scan_assistant (length ms) new_content.

(** [agent_chat(text, agent_exec)]: [chat] of the module [agent], or
    [None] when the import failed.  [chat] returns a [str] on every path,
    so the two tests on the type of [response] that follow the call are
    not taken. *)
Definition agent_chat (text : string) (agent_exec : agent_executor) : Ui string :=
  match import_error with
  | Some _ => raise (Exc (OtherException "TypeError") "'NoneType' object is not callable")
  | None => in_agent (Chat.chat create_agent text (Some agent_exec))
  end.

(** The second half of the block "Handle User Input": the answer to the
    request [text], once the user's message and the placeholder are in
    place.  Only what is drawn in the chat box is recorded; the response
    time, the error details and the scroll script are drawn on the page
    and change nothing. *)
Definition answer (text : string) : Ui unit :=
  try_except
    (o ← (fun s => (Ok (session_executor s), s));
     agent_exec ← match o with
                  | Some a => mret a
                  | None => ensure_agent_ready
                  end;
     start ← now;
     response ← try_except
                  (agent_chat text agent_exec)
                  (fun e => mret ("I encountered an error: " +:+ exc_str e
                                  +:+ ". Please try again."));
     replace_last_assistant response;;
     render;;
     finish ← now;
     mret tt)
    (fun e =>
       set_last_error (format_exc e);;
       replace_last_assistant failure_text;;
       render).

(** The block "Handle User Input", for the values the form returned. *)
Definition handle_submit (submit : bool) (user_input : string) : Ui unit :=
  if submit && PyStr.truthy user_input && PyStr.truthy (PyStr.strip user_input) then
    let text := PyStr.strip user_input in
    t ← now;
    append_message (UiMessage "user" text t);;
    render;;
    t ← now;
    append_message (UiMessage "assistant" placeholder_text t);;
    render;;
    answer text
  else mret tt.

(** *** Vocabulary of the statements about the page *)

(** The state in which the answer starts: the user's message and the
    placeholder are the last two messages, and the chat box was drawn
    after each was added. *)
Definition pending (text : string) (s : page) : page :=
  let shown1 := messages s ++ [UiMessage "user" text (clock (ticks s))] in
  let shown2 := shown1 ++ [UiMessage "assistant" placeholder_text (clock (1 + ticks s))] in
  Page shown2 (agent_ready s) (session_executor s) (last_error s) (cached_executor s)
       (chatbox s ++ [shown1; shown2]) (2 + ticks s) (agent_py s).

End WithEnvironment.

(** A clock that reads [0.0], [1.0], [2.0], ..., to run the definitions. *)
Definition sample_clock (k : nat) : timestamp := PyFloat.of_dyadic (Z.of_nat k) 0.

End App.
Example lower_strip_example : PyStr.strip (PyStr.lower "  HaPPy
 ") = "happy".
Proof. reflexivity. Qed.

Example str_of_int_examples :
  PyStr.str_of_int 0 = "0" /\ PyStr.str_of_int 35 = "35" /\ PyStr.str_of_int (-2) = "-2".
Proof. repeat split. Qed.


(** * Properties *)

(** ** The chat function, run symbolically *)

Module ChatFacts.
Import PyM Chat.

Lemma truthy_nonempty s : PyStr.truthy s = true <-> s <> "".
Proof. destruct s; simpl; split; congruence. Qed.

Lemma normalize_truthy r : PyStr.truthy (normalize r) = true.
Proof.
  unfold normalize, Tools.dict_get.
  destruct r as [|d|[[s'|]|] s]; simpl; try reflexivity.
  - destruct (d !! "output") as [[|b|n|s|b]|]; simpl; try reflexivity.
    + by destruct b.
    + by destruct n.
    + by destruct s.
    + by destruct b.
  - by destruct s'.
  - by destruct s.
  - by destruct s.
Qed.

Lemma apology_truthy e : PyStr.truthy (apology e) = true.
Proof. reflexivity. Qed.

Lemma bind_run {A B} (m : Py A) (k : A -> Py B) st :
  (m ≫= k) st =
  match m st with
  | (Ok a, st') => k a st'
  | (Raise e, st') => (Raise e, st')
  end.
Proof. reflexivity. Qed.

Lemma run_agent_eq a d st :
  run_agent a d st =
  let st' := Interp (chat_history st) (stdout st) (invocations st ++ [d])
                    (agents_created st) in
  match invoke a d with
  | Ok r => (Ok (normalize r), st')
  | Raise e => if is_Exception e then (Ok (apology e), st') else (Raise e, st')
  end.
Proof.
  unfold run_agent, try_except, try_clauses. rewrite bind_run.
  unfold invoke_agent. destruct (invoke a d) as [r|e]; simpl; [reflexivity|].
  destruct (is_Exception e); reflexivity.
Qed.

Lemma update_history_eq u output st :
  update_history u output st =
  (Ok tt, Interp (chat_history st ++ appended u output) (stdout st)
                 (invocations st) (agents_created st)).
Proof.
  destruct st as [h out inv n]. unfold update_history, appended.
  destruct (PyStr.truthy output && negb (output =? sentinel)); simpl.
  - rewrite bind_run. unfold append; simpl. by rewrite <- app_assoc.
  - by rewrite app_nil_r.
Qed.

Lemma keep_last_20_eq st :
  keep_last_20 st =
  (Ok tt, Interp (capped (chat_history st)) (stdout st) (invocations st)
                 (agents_created st)).
Proof.
  destruct st as [h out inv n]. unfold keep_last_20, capped.
  rewrite bind_run; simpl.
  destruct (20 <? length h)%nat; reflexivity.
Qed.

(** What [chat] does, case by case on the executor's behaviour. *)
Lemma chat_eq create u o st :
  chat create u o st =
  let st0 := resolved o st in
  match resolve create o with
  | Raise e =>
      if is_Exception e
      then (Ok sorry_message,
            Interp (chat_history st0)
                   (stdout st0 ++ ["Error in chat function: " +:+ exc_str e])
                   (invocations st0) (agents_created st0))
      else (Raise e, st0)
  | Ok a =>
      let d := request u (chat_history st) in
      match invoke a d with
      | Ok r => (Ok (normalize r), finish u (normalize r) d st0)
      | Raise e =>
          if is_Exception e then (Ok (apology e), finish u (apology e) d st0)
          else (Raise e,
                Interp (chat_history st0) (stdout st0) (invocations st0 ++ [d])
                       (agents_created st0))
      end
  end.
Proof.
  unfold chat, try_except, try_clauses.
  rewrite bind_run. unfold get_chat_history at 1. cbv beta iota zeta.
  fold (request u (chat_history st)).
  destruct o as [a|]; simpl resolve; simpl resolved.
  - rewrite bind_run. unfold mret at 1, Py_ret at 1. cbv beta iota.
    rewrite bind_run, run_agent_eq. cbv zeta.
    destruct (invoke a _) as [r|e].
    + rewrite bind_run, update_history_eq, bind_run, keep_last_20_eq.
      unfold mret, Py_ret. by rewrite normalize_truthy.
    + destruct (is_Exception e) eqn:He.
      * rewrite bind_run, update_history_eq, bind_run, keep_last_20_eq.
        reflexivity.
      * simpl. by rewrite He.
  - rewrite bind_run. unfold construct_agent at 1.
    destruct create as [a|e]; cbv beta iota.
    + rewrite bind_run, run_agent_eq. cbv zeta.
      destruct (invoke a _) as [r|e].
      * rewrite bind_run, update_history_eq, bind_run, keep_last_20_eq.
        unfold mret, Py_ret. by rewrite normalize_truthy.
      * destruct (is_Exception e) eqn:He.
        -- rewrite bind_run, update_history_eq, bind_run, keep_last_20_eq.
           reflexivity.
        -- simpl. by rewrite He.
    + simpl. destruct (is_Exception e); reflexivity.
Qed.

End ChatFacts.

(** ** The chat function: normalisation, failure, transcript *)

Module ChatProps.
Import PyM Chat ChatFacts.

Lemma capped_slice (h : list turn) : capped h = slice_last 20 h.
Proof.
  unfold capped, slice_last.
  destruct (20 <? length h)%nat eqn:E; [reflexivity|].
  apply Nat.ltb_ge in E. by replace (length h - 20)%nat with 0%nat by lia.
Qed.

Lemma slice_last_length {A} n (l : list A) : (length (slice_last n l) <= n)%nat.
Proof. unfold slice_last. rewrite length_drop. lia. Qed.

Lemma slice_last_app {A} n (a b : list A) :
  slice_last n (slice_last n a ++ b) = slice_last n (a ++ b).
Proof.
  unfold slice_last. rewrite !length_app, length_drop.
  destruct (decide (length a <= n)%nat) as [Hle|Hgt].
  - replace (length a - n)%nat with 0%nat by lia. simpl.
    by replace (length a - 0)%nat with (length a) by lia.
  - rewrite !skipn_app, length_drop, drop_drop.
    f_equal; f_equal; lia.
Qed.

Lemma slice_last_suffix {A} n (l : list A) :
  l = take (length l - n) l ++ slice_last n l.
Proof. unfold slice_last. by rewrite take_drop. Qed.

Lemma slice_last_short {A} n (l : list A) :
  (length l <= n)%nat -> slice_last n l = l.
Proof. intros H. unfold slice_last. by replace (length l - n)%nat with 0%nat by lia. Qed.

(** The transcript after one exchange that started within the cap. *)
Lemma chat_history_after create u o st :
  (length (chat_history st) <= 20)%nat ->
  chat_history (snd (chat create u o st)) =
  slice_last 20 (chat_history st ++ turns_added create u o st).
Proof.
  intros Hlen. rewrite chat_eq. unfold turns_added. cbv zeta.
  destruct (resolve create o) as [a|e]; simpl.
  - rewrite run_agent_eq. cbv zeta.
    destruct (invoke a _) as [r|e]; simpl.
    + rewrite capped_slice. by destruct o.
    + destruct (is_Exception e); simpl.
      * rewrite capped_slice. by destruct o.
      * rewrite app_nil_r, slice_last_short; by destruct o.
  - rewrite app_nil_r, slice_last_short by done.
    destruct (is_Exception e); by destruct o.
Qed.

(** What a completed exchange adds: nothing, or the human turn followed
    by the assistant turn carrying the returned text. *)
Lemma turns_added_shape create u o st out st' :
  chat create u o st = (Ok out, st') ->
  turns_added create u o st = [] \/
  turns_added create u o st = [("human", u); ("assistant", out)].
Proof.
  rewrite chat_eq. unfold turns_added. cbv zeta.
  destruct (resolve create o) as [a|e]; [|by left].
  rewrite run_agent_eq. cbv zeta.
  destruct (invoke a _) as [r|e]; simpl.
  - intros [= <- _]. unfold appended. case_match; auto.
  - destruct (is_Exception e); simpl; [|by left].
    intros [= <- _]. unfold appended. case_match; auto.
Qed.

Lemma run_exchanges_history create xs : forall st,
  (length (chat_history st) <= 20)%nat ->
  chat_history (snd (run_exchanges create xs st)) =
  slice_last 20 (chat_history st ++ fst (run_exchanges create xs st)).
Proof.
  induction xs as [|[u o] xs IH]; intros st Hlen; simpl.
  - by rewrite app_nil_r, slice_last_short.
  - pose proof (chat_history_after create u o st Hlen) as Hone.
    specialize (IH (snd (chat create u o st))).
    destruct (run_exchanges create xs _) as [rest st'] eqn:Hrun; simpl in *.
    rewrite IH by (rewrite Hone; apply slice_last_length).
    by rewrite Hone, slice_last_app, app_assoc.
Qed.

(** *** Pairs of turns *)

Lemma paired_app : forall h1 h2 : list turn,
  paired h1 -> paired h2 -> paired (h1 ++ h2).
Proof.
  fix IH 1. intros [|[r1 c1] [|[r2 c2] h1]] h2; simpl; try tauto.
  intros (-> & -> & Hp) H2. repeat split. by apply IH.
Qed.

Lemma paired_length : forall h : list turn,
  paired h -> exists k, length h = (2 * k)%nat.
Proof.
  fix IH 1. intros [|[r1 c1] [|[r2 c2] h]]; simpl; try tauto.
  - by exists 0%nat.
  - intros (_ & _ & Hp). destruct (IH h Hp) as [k Hk].
    exists (S k). lia.
Qed.

Lemma paired_drop k : forall h : list turn,
  paired h -> paired (drop (2 * k) h).
Proof.
  induction k as [|k IH]; intros h Hp; [done|].
  replace (2 * S k)%nat with (S (S (2 * k))) by lia.
  destruct h as [|[r1 c1] [|[r2 c2] h]]; simpl in *; try tauto.
  apply IH, Hp.
Qed.

Lemma paired_slice_last (h : list turn) : paired h -> paired (slice_last 20 h).
Proof.
  intros Hp. destruct (paired_length h Hp) as [k Hk]. unfold slice_last.
  replace (length h - 20)%nat with (2 * (k - 10))%nat by lia.
  by apply paired_drop.
Qed.

Lemma paired_appended u out : paired (appended u out).
Proof. unfold appended. case_match; simpl; auto. Qed.

Lemma paired_after_chat create u o st :
  paired (chat_history st) -> paired (chat_history (snd (chat create u o st))).
Proof.
  intros Hp. rewrite chat_eq. cbv zeta.
  assert (Hfin : forall out d, paired (chat_history (finish u out d (resolved o st)))).
  { intros out d. simpl. rewrite capped_slice.
    apply paired_slice_last, paired_app; [by destruct o|apply paired_appended]. }
  destruct (resolve create o) as [a|e].
  - destruct (invoke a _) as [r|e]; [apply Hfin|].
    destruct (is_Exception e); [apply Hfin|]. by destruct o.
  - destruct (is_Exception e); by destruct o.
Qed.

Lemma paired_after_ops create ops : forall st,
  paired (chat_history st) -> paired (chat_history (run_ops create ops st)).
Proof.
  induction ops as [|[u o|] ops IH]; intros st Hp; simpl; [done| |].
  - apply IH, paired_after_chat, Hp.
  - by apply IH.
Qed.

End ChatProps.

(** ** The claims about the chat session *)

Section ChatClaims.
Import PyM Chat ChatFacts ChatProps Samples.

Variable create : result agent_executor.

(** C1 (as amended).  Whatever the agent invocation returns is normalised:
  for a mapping, the value under ["output"] is returned when it is a
  non-empty string, and the "didn't get a proper response" fallback when
  the key is absent or its value is empty; for [None] the "No response
  was generated" fallback is returned; and when the invocation raises an
  instance of [Exception], the apology embedding [str(e)] is returned and
  nothing propagates. *)
Theorem chat_normalizes_result u o a st :
  resolve create o = Ok a ->
  let outcome := invoke a (request u (chat_history st)) in
  let returned := fst (chat create u o st) in
  (forall d x, outcome = Ok (RDict d) ->
     d !! "output" = Some (VStr x) -> x <> "" -> returned = Ok x) /\
  (forall d, outcome = Ok (RDict d) ->
     (d !! "output" = None \/ exists v, d !! "output" = Some v /\ truthy v = false) ->
     returned = Ok "I didn't get a proper response. Could you rephrase your question?") /\
  (outcome = Ok RNone ->
     returned = Ok "No response was generated. Please try again.") /\
  (forall e, outcome = Raise e -> is_Exception e = true ->
     returned = Ok ("I encountered an error: " +:+ exc_str e
                    +:+ ". Could you please rephrase your question?")).
Proof.
  intros Hres outcome returned. subst outcome returned.
  rewrite chat_eq, Hres. cbv zeta.
  repeat split.
  - intros d x -> Hx Hne. simpl. f_equal.
    unfold normalize, Tools.dict_get. rewrite Hx. simpl.
    destruct x; [done|reflexivity].
  - intros d -> Hx. simpl. f_equal.
    unfold normalize, Tools.dict_get.
    destruct Hx as [->|(v & -> & Hv)]; simpl; [reflexivity|].
    by rewrite Hv.
  - by intros ->.
  - intros e -> He. by rewrite He.
Qed.

(** C2 (as amended).  Whatever the user types, [chat] returns a string
    whenever the agent invocation returns a value or raises an instance of
    [Exception] (and likewise the construction of the agent, when [chat]
    has to construct one); an exception outside that hierarchy raised by
    the invocation is not caught and reaches the caller. *)
Theorem chat_returns_text u o st :
  (forall e, resolve create o = Raise e -> is_Exception e = true) ->
  (forall a e, resolve create o = Ok a ->
     invoke a (request u (chat_history st)) = Raise e -> is_Exception e = true) ->
  exists text st', chat create u o st = (Ok text, st').
Proof.
  intros Hcreate Hinvoke. rewrite chat_eq. cbv zeta.
  destruct (resolve create o) as [a|e] eqn:Hres.
  - destruct (invoke a _) as [r|e] eqn:Hinv; [by eauto|].
    rewrite (Hinvoke a e eq_refl Hinv). by eauto.
  - rewrite (Hcreate e eq_refl). by eauto.
Qed.

(** C3.  An exchange that starts with at most 20 entries and completes
    leaves at most 20 entries: they are the last 20 of the old transcript
    followed by what the exchange added, in the same order.  Over a
    sequence of exchanges the transcript is the last 20 of everything
    added; when 25 turns have accumulated, exactly the most recent 20 are
    left. *)
Theorem transcript_capped :
  (forall u o st out st',
     (length (chat_history st) <= 20)%nat ->
     chat create u o st = (Ok out, st') ->
     let new := turns_added create u o st in
     (length (chat_history st') <= 20)%nat /\
     (new = [] \/ new = [("human", u); ("assistant", out)]) /\
     chat_history st' = slice_last 20 (chat_history st ++ new) /\
     exists dropped, chat_history st ++ new = dropped ++ chat_history st') /\
  (forall xs st,
     (length (chat_history st) <= 20)%nat ->
     let all := chat_history st ++ fst (run_exchanges create xs st) in
     let final := chat_history (snd (run_exchanges create xs st)) in
     (length final <= 20)%nat /\
     final = slice_last 20 all /\
     (length all = 25%nat -> final = drop 5 all /\ length final = 20%nat)).
Proof.
  split.
  - intros u o st out st' Hlen Hchat new.
    pose proof (chat_history_after create u o st Hlen) as Hafter.
    rewrite Hchat in Hafter; simpl in Hafter. fold new in Hafter.
    rewrite Hafter. repeat split.
    + apply slice_last_length.
    + apply (turns_added_shape _ _ _ _ _ _ Hchat).
    + eexists. apply slice_last_suffix.
  - intros xs st Hlen all final.
    assert (Hfinal : final = slice_last 20 all)
      by apply (run_exchanges_history create xs st Hlen).
    rewrite Hfinal. repeat split.
    + apply slice_last_length.
    + unfold slice_last. by rewrite H.
    + unfold slice_last. rewrite length_drop. lia.
Qed.

(** C4.  When an exchange reaches a normalised output, that output is what
    [chat] returns; if it is non-empty and differs from the sentinel
    ["No response generated"], the pair (human, user text), (assistant,
    output) is appended before the cap is enforced; otherwise nothing is
    appended, so a transcript within the cap is left as it was. *)
Theorem exchange_appends_pair u o a st output :
  resolve create o = Ok a ->
  fst (run_agent a (request u (chat_history st)) st) = Ok output ->
  let st' := snd (chat create u o st) in
  fst (chat create u o st) = Ok output /\
  (output <> "" /\ output <> "No response generated" ->
     chat_history st' =
     capped (chat_history st ++ [("human", u); ("assistant", output)])) /\
  (~ (output <> "" /\ output <> "No response generated") ->
     chat_history st' = capped (chat_history st) /\
     ((length (chat_history st) <= 20)%nat -> chat_history st' = chat_history st)).
Proof.
  intros Hres Hout st'. subst st'.
  rewrite chat_eq, Hres. rewrite run_agent_eq in Hout. cbv zeta in *.
  assert (Happ : forall d, 
    fst (Ok output : result string, finish u output d (resolved o st)) = Ok output /\
    (output <> "" /\ output <> "No response generated" ->
       chat_history (finish u output d (resolved o st)) =
       capped (chat_history st ++ [("human", u); ("assistant", output)])) /\
    (~ (output <> "" /\ output <> "No response generated") ->
       chat_history (finish u output d (resolved o st)) = capped (chat_history st) /\
       ((length (chat_history st) <= 20)%nat ->
        chat_history (finish u output d (resolved o st)) = chat_history st))).
  { intros d. simpl.
    replace (chat_history (resolved o st)) with (chat_history st) by by destruct o.
    unfold appended, sentinel.
    destruct (PyStr.truthy output) eqn:Ht; simpl.
    - destruct (String.eqb_spec output "No response generated") as [Heq|Hne]; simpl.
      + split; [done|]. split; [tauto|].
        intros _. rewrite !app_nil_r. split; [done|].
        intros Hlen. rewrite capped_slice. by apply slice_last_short.
      + split; [done|]. split; [done|].
        intros Hn. exfalso. apply Hn. split; [by apply truthy_nonempty|done].
    - assert (output = "") as -> by by destruct output.
      split; [done|]. split; [tauto|].
      intros _. rewrite !app_nil_r. split; [done|].
      intros Hlen. rewrite capped_slice. by apply slice_last_short. }
  destruct (invoke a _) as [r|e]; simpl in Hout.
  - injection Hout as <-. apply Happ.
  - destruct (is_Exception e); simpl in Hout; [|done].
    injection Hout as <-. apply Happ.
Qed.

(** C10.  From the empty transcript, any sequence of exchanges and [clear]
    commands leaves a transcript of even length made of (human, assistant)
    pairs; [clear] leaves the empty transcript. *)
Theorem transcript_stays_paired ops st :
  chat_history st = [] ->
  let h := chat_history (run_ops create ops st) in
  Nat.Even (length h) /\ paired h /\
  chat_history (run_op create OpClear (run_ops create ops st)) = [].
Proof.
  intros Hempty h.
  assert (Hp : paired h) by (apply paired_after_ops; by rewrite Hempty).
  repeat split; [|done].
  destruct (paired_length h Hp) as [k Hk]. by exists k.
Qed.

End ChatClaims.

Section ChatWitnesses.
Import PyM Chat ChatFacts ChatProps Samples.

(** C1 at a concrete exchange: the mapping [{"output": "X"}] gives ["X"]. *)
Lemma chat_normalizes_result_witness :
  fst (chat (Ok (echo_agent "X")) "hello" (Some (echo_agent "X")) fresh) = Ok "X".
Proof.
  apply (proj1 (chat_normalizes_result (Ok (echo_agent "X")) "hello"
                  (Some (echo_agent "X")) (echo_agent "X") fresh eq_refl)
               {[ "output" := VStr "X" ]} "X").
  - reflexivity.
  - vm_compute. reflexivity.
  - discriminate.
Defined.

(** C1 as stated fails: the invocation raises [KeyboardInterrupt], no
    string is returned and the exception reaches the caller. *)
Lemma chat_propagates_KeyboardInterrupt :
  let a := failing_agent (Exc KeyboardInterrupt "") in
  invoke a (request "play some jazz" []) = Raise (Exc KeyboardInterrupt "") /\
  fst (chat (Ok a) "play some jazz" (Some a) fresh) = Raise (Exc KeyboardInterrupt "").
Proof. split; reflexivity. Qed.

(** C2 at a concrete exchange. *)
Lemma chat_returns_text_witness :
  exists text st',
    chat (Ok (echo_agent "Here is your playlist")) "a calm playlist"
         (Some (echo_agent "Here is your playlist")) fresh = (Ok text, st').
Proof.
  apply (chat_returns_text (Ok (echo_agent "Here is your playlist")) "a calm playlist"
           (Some (echo_agent "Here is your playlist")) fresh).
  - simpl. discriminate.
  - intros a e [= <-]. simpl. discriminate.
Defined.

(** C2 as stated fails: with one earlier exchange in the transcript, an
    invocation interrupted from the keyboard makes [chat] raise instead of
    returning a string; the transcript is left as it was. *)
Lemma chat_raises_on_interrupt :
  let st := Interp [("human", "hi"); ("assistant", "hello")] [] [] 0 in
  let a := failing_agent (Exc KeyboardInterrupt "") in
  fst (chat (Ok a) "a long request" (Some a) st) = Raise (Exc KeyboardInterrupt "") /\
  chat_history (snd (chat (Ok a) "a long request" (Some a) st)) = chat_history st.
Proof. split; reflexivity. Qed.

(** Twelve exchanges after a transcript of one turn: 25 turns in all. *)
Lemma transcript_capped_witness :
  let xs := replicate 12 ("more", Some (echo_agent "ok")) in
  let st := Interp [("assistant", "welcome")] [] [] 0 in
  let all := chat_history st ++ fst (run_exchanges (Ok (echo_agent "ok")) xs st) in
  let final := chat_history (snd (run_exchanges (Ok (echo_agent "ok")) xs st)) in
  length all = 25%nat /\ final = drop 5 all /\ length final = 20%nat.
Proof.
  intros xs st all final.
  assert (Hall : length all = 25%nat) by (vm_compute; reflexivity).
  split; [exact Hall|].
  apply (proj2 (proj2 (proj2 (transcript_capped (Ok (echo_agent "ok"))) xs st
                         ltac:(simpl; lia)))).
  exact Hall.
Defined.

(** C4 at a concrete exchange. *)
Lemma exchange_appends_pair_witness :
  chat_history (snd (chat (Ok (echo_agent "ok")) "more" (Some (echo_agent "ok")) fresh))
  = capped ([] ++ [("human", "more"); ("assistant", "ok")]).
Proof.
  apply (proj1 (proj2 (exchange_appends_pair (Ok (echo_agent "ok")) "more"
                         (Some (echo_agent "ok")) (echo_agent "ok") fresh "ok"
                         eq_refl ltac:(vm_compute; reflexivity)))).
  split; discriminate.
Defined.

(** C10 at a concrete session. *)
Lemma transcript_stays_paired_witness :
  let ops := [OpChat "one" (Some (echo_agent "ok")); OpClear;
              OpChat "two" (Some (failing_agent (Exc ValueError "bad")));
              OpChat "three" None] in
  let h := chat_history (run_ops (Ok (echo_agent "ok")) ops fresh) in
  Nat.Even (length h) /\ paired h /\
  chat_history (run_op (Ok (echo_agent "ok")) OpClear
                  (run_ops (Ok (echo_agent "ok")) ops fresh)) = [].
Proof.
  apply (transcript_stays_paired (Ok (echo_agent "ok")) _ fresh). reflexivity.
Defined.

End ChatWitnesses.

(** ** The keyword tool *)

Module ToolProps.
Import Tools.

Lemma mood_lookup key :
  (forall d, (key, d) ∈ mood_items -> mood_mapping !! key = Some d) /\
  (key ∉ mood_items.*1 -> mood_mapping !! key = None).
Proof.
  split.
  - intros d Hin. unfold mood_items in Hin.
    repeat (apply elem_of_cons in Hin as [[= -> ->]|Hin]; [by vm_compute|]).
    by apply elem_of_nil in Hin.
  - intros Hnot. unfold mood_mapping.
    repeat (rewrite lookup_insert_ne;
            [|intros <-; apply Hnot; unfold mood_items; simpl; set_solver]).
    rewrite lookup_singleton_ne; [done|].
    intros <-; apply Hnot; unfold mood_items; simpl; set_solver.
Qed.

Lemma activity_lookup key :
  (forall d, (key, d) ∈ activity_items -> activity_mapping !! key = Some d) /\
  (key ∉ activity_items.*1 -> activity_mapping !! key = None).
Proof.
  split.
  - intros d Hin. unfold activity_items in Hin.
    repeat (apply elem_of_cons in Hin as [[= -> ->]|Hin]; [by vm_compute|]).
    by apply elem_of_nil in Hin.
  - intros Hnot. unfold activity_mapping.
    repeat (rewrite lookup_insert_ne;
            [|intros <-; apply Hnot; unfold activity_items; simpl; set_solver]).
    rewrite lookup_singleton_ne; [done|].
    intros <-; apply Hnot; unfold activity_items; simpl; set_solver.
Qed.

End ToolProps.



(** ** The command-line program *)

(** Closed decidable facts, by evaluation. *)
Ltac closed_decide := apply (bool_decide_unpack _); vm_compute; reflexivity.

Module CliFacts.
Import PyM Chat ChatFacts Cli.

Lemma print_eq line st : print line st = (Ok tt, printed [line] st).
Proof. reflexivity. Qed.

Lemma printed_printed l1 l2 st : printed l2 (printed l1 st) = printed (l1 ++ l2) st.
Proof. unfold printed; simpl. by rewrite <- app_assoc. Qed.

Lemma print_all_eq lines : forall st, print_all lines st = (Ok tt, printed lines st).
Proof.
  induction lines as [|l ls IH]; intros st; simpl.
  - unfold printed. rewrite app_nil_r. by destruct st.
  - rewrite bind_run, print_eq, IH, printed_printed. reflexivity.
Qed.

(** The start-up part, case by case on the environment. *)
Lemma startup_eq create environ st :
  startup create environ st =
  if getenv_missing environ "GROQ_API_KEY" then
    (Raise (Exc (SystemExit 1) "1"), printed (banner ++ groq_remediation) st)
  else if getenv_missing environ "TAVILY_API_KEY" then
    (Raise (Exc (SystemExit 1) "1"), printed (banner ++ tavily_remediation) st)
  else
    let st1 := printed (banner ++ [ "✅ API keys loaded successfully!";
                 String "010" "🎵 Initializing playlist curator agent..." ]) st in
    let st2 := Interp (chat_history st1) (stdout st1) (invocations st1)
                      (S (agents_created st1)) in
    match create with
    | Ok a => (Ok a, printed [ "✅ Agent ready!" +:+ String "010" "" ] st2)
    | Raise e =>
        if is_Exception e
        then (Raise (Exc (SystemExit 1) "1"),
              printed [ String "010" "❌ Failed to initialize agent: " +:+ exc_str e ] st2)
        else (Raise e, st2)
    end.
Proof.
  unfold startup.
  repeat (rewrite bind_run, print_eq; cbv beta iota; rewrite ?printed_printed).
  rewrite bind_run.
  destruct (getenv_missing environ "GROQ_API_KEY").
  { repeat (rewrite bind_run, print_eq; cbv beta iota; rewrite ?printed_printed).
    reflexivity. }
  unfold mret at 1, Py_ret at 1. cbv beta iota.
  rewrite bind_run.
  destruct (getenv_missing environ "TAVILY_API_KEY").
  { repeat (rewrite bind_run, print_eq; cbv beta iota; rewrite ?printed_printed).
    reflexivity. }
  unfold mret at 1, Py_ret at 1. cbv beta iota.
  repeat (rewrite bind_run, print_eq; cbv beta iota; rewrite ?printed_printed).
  unfold try_except, try_clauses. rewrite bind_run.
  unfold construct_agent at 1.
  destruct create as [a|e]; cbv beta iota.
  - rewrite bind_run, print_eq. reflexivity.
  - simpl select_clause. destruct (is_Exception e); [|reflexivity].
    rewrite bind_run, print_eq. reflexivity.
Qed.

Section LoopBody.
Variable create : result agent_executor.
Variable a : agent_executor.
Variable line : string.

Let token := PyStr.lower (PyStr.strip line).

Lemma token_truthy : token <> "" -> PyStr.truthy (PyStr.strip line) = true.
Proof. subst token. destruct (PyStr.strip line); [done|reflexivity]. Qed.

Lemma loop_body_quit st :
  token ∈ ["quit"; "exit"; "q"] ->
  loop_body create a line st =
    (Ok false, printed [ String "010" "Goodbye! Enjoy your music! 🎵" ] st).
Proof.
  intros Hin. unfold loop_body. rewrite token_truthy.
  2:{ intros Heq. rewrite Heq in Hin. revert Hin. closed_decide. }
  change (negb true) with false. cbv iota. fold token.
  rewrite bool_decide_eq_true_2 by done. cbv iota.
  rewrite bind_run, print_eq. reflexivity.
Qed.

Lemma loop_body_history st :
  token = "history" ->
  loop_body create a line st =
    (Ok true, printed (history_report (chat_history st)) st).
Proof.
  intros Heq. unfold loop_body. rewrite token_truthy by (rewrite Heq; done).
  change (negb true) with false. cbv iota. fold token. rewrite Heq.
  rewrite bool_decide_eq_false_2 by closed_decide.
  rewrite String.eqb_refl. cbv iota.
  rewrite bind_run, print_eq. cbv beta iota.
  rewrite bind_run. unfold get_chat_history at 1. cbv beta iota.
  simpl chat_history. rewrite bind_run.
  unfold history_report.
  destruct (chat_history st) as [|t h] eqn:Hh.
  - rewrite print_eq. cbv beta iota. rewrite bind_run, print_eq. cbv beta iota.
    by rewrite !printed_printed.
  - rewrite print_all_eq. cbv beta iota. rewrite bind_run, print_eq. cbv beta iota.
    by rewrite !printed_printed.
Qed.

Lemma loop_body_clear st :
  token = "clear" ->
  loop_body create a line st =
    (Ok true,
     Interp [] (stdout st ++ [ String "010" "✅ Chat history cleared!" +:+ String "010" "" ])
            (invocations st) (agents_created st)).
Proof.
  intros Heq. unfold loop_body. rewrite token_truthy by (rewrite Heq; done).
  change (negb true) with false. cbv iota. fold token. rewrite Heq.
  rewrite bool_decide_eq_false_2 by closed_decide.
  change (String.eqb "clear" "history") with false.
  rewrite String.eqb_refl. cbv iota.
  rewrite bind_run. unfold clear_history, set_chat_history at 1. cbv beta iota.
  rewrite bind_run, print_eq. reflexivity.
Qed.

End LoopBody.

End CliFacts.

Section CliClaims.
Import PyM Chat ChatFacts Cli CliFacts Samples.

Variable create : result agent_executor.

(** C8.  When either required key is absent from the environment, the
  program prints the banner and the remediation lines for the first key
  it misses, and exits with status 1; no agent has been constructed or
  called by then, and the loop never starts. *)
Theorem missing_key_stops_startup environ stdin st :
  environ !! "GROQ_API_KEY" = None \/ environ !! "TAVILY_API_KEY" = None ->
  let r := fst (main create environ stdin st) in
  let st' := snd (main create environ stdin st) in
  r = Raise (Exc (SystemExit 1) "1") /\
  exit_status r = 1%Z /\
  agents_created st' = agents_created st /\
  invocations st' = invocations st /\
  stdout st' =
    stdout st ++ banner ++
    (if getenv_missing environ "GROQ_API_KEY" then groq_remediation
     else tavily_remediation).
Proof.
  intros Hmiss r st'. subst r st'. unfold main.
  rewrite bind_run, startup_eq.
  destruct (getenv_missing environ "GROQ_API_KEY") eqn:Hg.
  { by cbv beta iota. }
  assert (Ht : getenv_missing environ "TAVILY_API_KEY" = true).
  { unfold getenv_missing in *. destruct Hmiss as [H|H]; rewrite H in *; done. }
  rewrite Ht. by cbv beta iota.
Qed.


End CliClaims.

Section CliWitnesses.
Import PyM Chat ChatFacts Cli Samples.

(** C8 at a concrete environment: the second key is missing. *)
Lemma missing_key_stops_startup_witness :
  let environ : gmap string string := {[ "GROQ_API_KEY" := "gsk-123" ]} in
  let r := fst (main (Ok (echo_agent "ok")) environ [Line "hello"] fresh) in
  let st' := snd (main (Ok (echo_agent "ok")) environ [Line "hello"] fresh) in
  r = Raise (Exc (SystemExit 1) "1") /\
  exit_status r = 1%Z /\
  agents_created st' = 0%nat /\
  invocations st' = [] /\
  stdout st' = banner ++ tavily_remediation.
Proof.
  intros environ.
  apply (missing_key_stops_startup (Ok (echo_agent "ok")) environ [Line "hello"] fresh).
  right. vm_compute. reflexivity.
Defined.


End CliWitnesses.

(** ** Binary64 arithmetic: exact results *)

Module FloatFacts.
Import PyFloat.

Local Open Scope Z_scope.

(** The number of binary digits of a positive number. *)
Notation "'dig' p" := (Zpos (digits2_pos p)) (at level 10, p at level 9).

Lemma unit_scale_pos : 0 < unit_scale.
Proof. apply Z.pow_pos_nonneg; lia. Qed.

(** Arithmetic with the two large constants kept as names. *)
Ltac hide_scale :=
  change (2 ^ 1074) with unit_scale in *;
  change (2 ^ 2098) with range_bound in *;
  pose proof unit_scale_pos.
Ltac slia := hide_scale; lia.
Ltac snia := hide_scale; nia.

Lemma dig_bounds p : 2 ^ (dig p - 1) <= Zpos p < 2 ^ dig p.
Proof.
  induction p as [p IH|p IH|]; cbn [digits2_pos].
  - rewrite Pos2Z.inj_succ, (Pos2Z.inj_xI p).
    replace (Z.succ (dig p) - 1) with (Z.succ (dig p - 1)) by lia.
    rewrite !Z.pow_succ_r by lia.
    revert IH. generalize (digits2_pos p). intros. lia.
  - rewrite Pos2Z.inj_succ, (Pos2Z.inj_xO p).
    replace (Z.succ (dig p) - 1) with (Z.succ (dig p - 1)) by lia.
    rewrite !Z.pow_succ_r by lia.
    revert IH. generalize (digits2_pos p). intros. lia.
  - simpl. lia.
Qed.

Lemma dig_unique p d : 2 ^ (d - 1) <= Zpos p < 2 ^ d -> dig p = d.
Proof.
  intros [Hlo Hhi]. pose proof (dig_bounds p) as [Hlo' Hhi'].
  assert (0 < d).
  { destruct (Z_lt_le_dec 0 d) as [|Hd]; [done|].
    assert (2 ^ d <= 2 ^ 0) by (apply Z.pow_le_mono_r; lia). simpl in *. lia. }
  destruct (Z_lt_le_dec (dig p) d) as [Hlt|Hge].
  - assert (2 ^ dig p <= 2 ^ (d - 1)) by (apply Z.pow_le_mono_r; lia). lia.
  - destruct (Z_lt_le_dec d (dig p)) as [Hlt|Hle]; [|lia].
    assert (2 ^ d <= 2 ^ (dig p - 1)) by (apply Z.pow_le_mono_r; lia). lia.
Qed.

Lemma dig_mul_pow2 p q n :
  0 <= n -> Zpos q = Zpos p * 2 ^ n -> dig q = dig p + n.
Proof.
  intros Hn Hq. apply dig_unique. rewrite Hq.
  pose proof (dig_bounds p) as [Hlo Hhi].
  replace (dig p + n - 1) with ((dig p - 1) + n) by lia.
  rewrite !Z.pow_add_r by lia.
  assert (0 < 2 ^ n) by (apply Z.pow_pos_nonneg; lia).
  nia.
Qed.

Lemma dig_le p n : 0 <= n -> Zpos p < 2 ^ n -> dig p <= n.
Proof.
  intros Hn Hlt. pose proof (dig_bounds p) as [Hlo _].
  destruct (Z_lt_le_dec n (dig p)) as [Hgt|]; [|done].
  assert (2 ^ n <= 2 ^ (dig p - 1)) by (apply Z.pow_le_mono_r; lia). lia.
Qed.

Lemma iter_xO m d : Zpos (Pos.iter xO m d) = Zpos m * 2 ^ Zpos d.
Proof.
  change (Pos.iter xO m d) with (shift_pos d m).
  rewrite shift_pos_correct, Zpower_pos_nat, Zpower_nat_Z, positive_nat_Z. lia.
Qed.

End FloatFacts.

Module FloatRound.
Import PyFloat FloatFacts.

Local Open Scope Z_scope.

Lemma pow2_pos n : 0 < 2 ^ n \/ n < 0.
Proof.
  destruct (Z_lt_le_dec n 0); [by right|left]. apply Z.pow_pos_nonneg; lia.
Qed.

Lemma pow2_lt_inv a b : 0 <= b -> 2 ^ a < 2 ^ b -> a < b.
Proof.
  intros Hb H. destruct (Z_lt_le_dec a b) as [|Hge]; [done|].
  assert (2 ^ b <= 2 ^ a) by (apply Z.pow_le_mono_r; lia). lia.
Qed.

Lemma pow2_split a b : 0 <= a -> 0 <= b -> 2 ^ (a + b) = 2 ^ a * 2 ^ b.
Proof. intros. by apply Z.pow_add_r. Qed.

Lemma iter_pos_nat {A} (f : A -> A) p x :
  SpecFloat.iter_pos f p x = Nat.iter (Pos.to_nat p) f x.
Proof.
  revert x. induction p as [p IH|p IH|]; intros x; cbn [SpecFloat.iter_pos].
  - rewrite !IH, Pos2Nat.inj_xI.
    replace (S (2 * Pos.to_nat p))%nat with (Pos.to_nat p + S (Pos.to_nat p))%nat by lia.
    by rewrite Nat.iter_add, (Nat.iter_succ_r (Pos.to_nat p)).
  - rewrite !IH, Pos2Nat.inj_xO.
    replace (2 * Pos.to_nat p)%nat with (Pos.to_nat p + Pos.to_nat p)%nat by lia.
    by rewrite Nat.iter_add.
  - reflexivity.
Qed.

(** Shifting out zero bits loses nothing. *)
Lemma shr_exact_nat k : forall q m : positive,
  Zpos q = Zpos m * 2 ^ Z.of_nat k ->
  Nat.iter k shr_1 (Build_shr_record (Zpos q) false false)
  = Build_shr_record (Zpos m) false false.
Proof.
  induction k as [|k IH]; intros q m Hq.
  - simpl in Hq. replace q with m by lia. reflexivity.
  - rewrite Nat.iter_succ_r.
    rewrite Nat2Z.inj_succ, Z.pow_succ_r in Hq by lia.
    destruct q as [q|q|]; try lia.
    cbn [shr_1 orb]. apply IH. lia.
Qed.

Lemma shr_exact (q m : positive) e n :
  0 <= n -> Zpos q = Zpos m * 2 ^ n ->
  shr (Build_shr_record (Zpos q) false false) e n
  = (Build_shr_record (Zpos m) false false, e + n).
Proof.
  intros Hn Hq. destruct n as [|p|p]; try lia.
  - simpl in Hq. replace q with m by lia. simpl. by rewrite Z.add_0_r.
  - cbn [shr]. rewrite iter_pos_nat. f_equal.
    apply shr_exact_nat. by rewrite positive_nat_Z.
Qed.

(** Rounding a number that fits the format returns it. *)
Lemma bra_exact s (m m' : positive) e n :
  0 <= n -> Zpos m = Zpos m' * 2 ^ n ->
  fexp prec emax (dig m + e) = e + n -> e + n <= 971 ->
  binary_round_aux prec emax s (Zpos m) e loc_Exact = S754_finite s m' (e + n).
Proof.
  intros Hn Hm Hfexp Hmax.
  assert (Hdig : dig m = dig m' + n) by (by apply dig_mul_pow2).
  unfold binary_round_aux, shr_fexp. cbn [Zdigits2 shr_record_of_loc].
  rewrite Hfexp. replace (e + n - e) with n by lia.
  rewrite (shr_exact m m' e n Hn Hm).
  cbn [shr_m loc_of_shr_record round_nearest_even Zdigits2 shr_record_of_loc].
  replace (dig m' + (e + n)) with (dig m + e) by lia.
  rewrite Hfexp, Z.sub_diag. cbn [shr shr_m].
  replace (e + n <=? emax - prec) with true; [done|].
  symmetry. apply Z.leb_le. unfold emax, prec. lia.
Qed.

End FloatRound.

Module FloatExact.
Import PyFloat FloatFacts FloatRound.

Local Open Scope Z_scope.

Lemma fexp_eq z : fexp prec emax z = Z.max (z - 53) (-1074).
Proof. reflexivity. Qed.

Lemma valid_finite_iff s m e :
  valid (S754_finite s m e) <-> fexp prec emax (dig m + e) = e /\ e <= 971.
Proof.
  unfold valid, valid_binary, bounded, canonical_mantissa.
  rewrite andb_true_iff, Z.eqb_eq, Z.leb_le. unfold emax, prec. lia.
Qed.

(** Cancelling a power of two on both sides. *)
Lemma pow2_cancel a b e k :
  -1074 <= e <= k -> a * 2 ^ (e + 1074) = b * 2 ^ (k + 1074) -> a = b * 2 ^ (k - e).
Proof.
  intros He H.
  replace (k + 1074) with ((k - e) + (e + 1074)) in H by lia.
  rewrite (Z.pow_add_r 2 (k - e) (e + 1074)), Z.mul_assoc in H by lia.
  apply Z.mul_cancel_r in H; [done|].
  apply Z.pow_nonzero; lia.
Qed.

(** A positive representable value, seen from a mantissa and exponent. *)
Lemma representable_pos m e :
  -1074 <= e -> representable (Zpos m * 2 ^ (e + 1074)) ->
  let e' := fexp prec emax (dig m + e) in
  e' <= 971 /\ -1074 <= e' /\
  (e <= e' -> exists m' : positive, Zpos m = Zpos m' * 2 ^ (e' - e)).
Proof.
  intros He (q & k & HV & Hk & Hq & Hov) e'.
  pose proof (dig_bounds m) as [Hlo Hhi].
  assert (Hpe : 0 < 2 ^ (e + 1074)) by (apply Z.pow_pos_nonneg; lia).
  assert (Hpk : 0 < 2 ^ (k + 1074)) by (apply Z.pow_pos_nonneg; lia).
  assert (Hdm : dig m + e <= 1024).
  { rewrite Z.abs_eq in Hov by (apply Z.lt_le_incl, Z.mul_pos_pos; lia).
    assert (2 ^ (dig m - 1 + (e + 1074)) < 2 ^ 2098).
    { rewrite (Z.pow_add_r 2 (dig m - 1) (e + 1074)) by lia.
      eapply Z.le_lt_trans; [|exact Hov].
      apply Z.mul_le_mono_nonneg_r; lia. }
    apply pow2_lt_inv in H; lia. }
  clear Hov.
  assert (Hqpos : 0 < q) by nia.
  assert (Hdk : dig m + e - 53 <= k).
  { rewrite Z.abs_eq in Hq by lia.
    assert (2 ^ (dig m - 1 + (e + 1074)) < 2 ^ (53 + (k + 1074))).
    { rewrite (Z.pow_add_r 2 (dig m - 1) (e + 1074)) by lia.
      rewrite (Z.pow_add_r 2 53 (k + 1074)) by lia. nia. }
    apply pow2_lt_inv in H; lia. }
  subst e'. rewrite fexp_eq. repeat split; try lia.
  intros Hle.
  assert (Hm : Zpos m = q * 2 ^ (k - e)) by (apply pow2_cancel; [lia|done]).
  set (e' := Z.max (dig m + e - 53) (-1074)) in *.
  assert (0 < 2 ^ (k - e')) by (apply Z.pow_pos_nonneg; lia).
  exists (Z.to_pos (q * 2 ^ (k - e'))).
  rewrite Z2Pos.id by nia.
  rewrite Hm. replace (k - e) with ((k - e') + (e' - e)) by lia.
  rewrite (Z.pow_add_r 2 (k - e') (e' - e)) by lia. ring.
Qed.

(** Normalising a mantissa and exponent whose value fits the format gives
    the double with that value. *)
Lemma binary_round_exact s m e :
  -1074 <= e -> representable (Zpos m * 2 ^ (e + 1074)) ->
  exists m' e', binary_round prec emax s m e = S754_finite s m' e' /\
    valid (S754_finite s m' e') /\
    Zpos m' * 2 ^ (e' + 1074) = Zpos m * 2 ^ (e + 1074).
Proof.
  intros He Hrep.
  destruct (representable_pos m e He Hrep) as (Hmax & Hmin & Hdiv).
  set (e' := fexp prec emax (dig m + e)) in *.
  unfold binary_round, shl_align. fold e'.
  destruct (Z_lt_le_dec e' e) as [Hlt|Hle].
  - destruct (e' - e) as [|d|d] eqn:Hd; try lia.
    assert (Hmz : Zpos (Pos.iter xO m d) = Zpos m * 2 ^ (e - e')).
    { rewrite iter_xO. f_equal. f_equal. lia. }
    assert (Hdig : dig (Pos.iter xO m d) + e' = dig m + e).
    { rewrite (dig_mul_pow2 m _ (e - e')); [lia|lia|done]. }
    exists (Pos.iter xO m d), e'.
    rewrite <- (Z.add_0_r e') at 2.
    rewrite (bra_exact s _ (Pos.iter xO m d) e' 0); try lia.
    + rewrite Z.add_0_r. repeat split.
      * apply valid_finite_iff. rewrite Hdig. by fold e'.
      * rewrite Hmz. replace (e + 1074) with ((e - e') + (e' + 1074)) by lia.
        rewrite (Z.pow_add_r 2 (e - e')) by lia. ring.
    + rewrite Hdig. fold e'. lia.
  - destruct (Hdiv Hle) as [m' Hm'].
    assert (Hdig : dig m = dig m' + (e' - e)) by (apply dig_mul_pow2; [lia|done]).
    exists m', e'.
    replace (match e' - e with Z.neg d => (Pos.iter xO m d, e') | _ => (m, e) end)
      with (m, e) by (destruct (e' - e) eqn:?; [done|done|lia]).
    rewrite (bra_exact s m m' e (e' - e)); try lia; try done.
    + replace (e + (e' - e)) with e' by lia. repeat split.
      * apply valid_finite_iff. replace (dig m' + e') with (dig m + e) by lia.
        by fold e'.
      * rewrite Hm'. replace (e' + 1074) with ((e' - e) + (e + 1074)) by lia.
        rewrite (Z.pow_add_r 2 (e' - e)) by lia. ring.
Qed.

End FloatExact.

Module FloatOps.
Import PyFloat FloatFacts FloatRound FloatExact.

Local Open Scope Z_scope.

Lemma valid_finite_bounds s m e :
  valid (S754_finite s m e) -> -1074 <= e <= 971 /\ Zpos m < 2 ^ 53.
Proof.
  intros Hv. apply valid_finite_iff in Hv as [Hf He]. rewrite fexp_eq in Hf.
  pose proof (dig_bounds m) as [_ Hhi].
  assert (2 ^ dig m <= 2 ^ 53) by (apply Z.pow_le_mono_r; lia).
  lia.
Qed.

Lemma pow2_range_bound q k :
  -1074 <= k <= 971 -> Z.abs q < 2 ^ 53 -> Z.abs q * 2 ^ (k + 1074) < 2 ^ 2098.
Proof.
  intros Hk Hq.
  assert (Hp : 0 < 2 ^ (k + 1074)) by (apply Z.pow_pos_nonneg; lia).
  eapply Z.lt_le_trans; [apply Z.mul_lt_mono_pos_r; [exact Hp|exact Hq]|].
  rewrite <- Z.pow_add_r by lia. apply Z.pow_le_mono_r; lia.
Qed.

Lemma representable_intro q k :
  -1074 <= k <= 971 -> Z.abs q < 2 ^ 53 -> representable (q * 2 ^ (k + 1074)).
Proof.
  intros Hk Hq. exists q, k. split; [done|]. split; [lia|]. split; [done|].
  rewrite Z.abs_mul, (Z.abs_eq (2 ^ _)) by (apply Z.pow_nonneg; lia).
  by apply pow2_range_bound.
Qed.

Lemma representable_opp V : representable V -> representable (- V).
Proof.
  intros (q & k & -> & Hk & Hq & Hov). exists (- q), k.
  rewrite !Z.abs_opp. repeat split; try done. ring.
Qed.

Lemma representable_Zval x : valid x -> representable (Zval x).
Proof.
  destruct x as [s|s| |s m e]; intros Hv; simpl;
    try (exists 0, 0; repeat split; simpl; lia).
  destruct (valid_finite_bounds s m e Hv) as [He Hm].
  destruct s; simpl.
  - rewrite <- Z.mul_opp_l. apply representable_intro; [lia|]. rewrite Z.abs_opp. simpl. lia.
  - apply representable_intro; [lia|]. simpl. lia.
Qed.

Lemma representable_int n : Z.abs n < 2 ^ 53 -> representable (n * 2 ^ 1074).
Proof. intros. by apply (representable_intro n 0). Qed.

(** A multiple of a representable grid step, below a representable number
    in magnitude ... *)
Lemma representable_below q k :
  -1074 <= k -> Z.abs q < 2 ^ 53 -> Z.abs (q * 2 ^ (k + 1074)) < 2 ^ 2098 ->
  representable (q * 2 ^ (k + 1074)).
Proof. intros. exists q, k. done. Qed.

Lemma has_value_zero s : has_value (S754_zero s) 0.
Proof. done. Qed.

Lemma normalize_exact M E sz :
  -1074 <= E -> representable (M * 2 ^ (E + 1074)) ->
  has_value (binary_normalize prec emax M E sz) (M * 2 ^ (E + 1074)).
Proof.
  intros HE Hrep. destruct M as [|m|m]; cbn [binary_normalize].
  - apply has_value_zero.
  - destruct (binary_round_exact false m E HE Hrep) as (m' & e' & -> & Hv & Hval).
    repeat split; [done|]. simpl. done.
  - apply representable_opp in Hrep.
    rewrite <- Z.mul_opp_l in Hrep. change (- Z.neg m) with (Z.pos m) in Hrep.
    destruct (binary_round_exact true m E HE Hrep) as (m' & e' & -> & Hv & Hval).
    repeat split; [done|]. simpl. rewrite Hval. 
    change (Z.neg m) with (- Z.pos m). ring.
Qed.

Lemma of_int_exact n :
  Z.abs n < 2 ^ 53 ->
  exists f, of_int n = Ok f /\ has_value f (n * 2 ^ 1074).
Proof.
  intros Hn.
  pose proof (normalize_exact n 0 false ltac:(lia) (representable_int n Hn)) as Hv.
  unfold of_int, of_dyadic. change (0 + 1074) with 1074 in Hv.
  destruct (binary_normalize prec emax n 0 false) as [s|s| |s m e] eqn:Hf;
    try (eexists; split; [reflexivity|done]).
  by destruct Hv as (_ & ? & _).
Qed.

Lemma shl_align_fst m e ez :
  ez <= e -> Zpos (fst (shl_align m e ez)) = Zpos m * 2 ^ (e - ez).
Proof.
  intros Hle. unfold shl_align.
  destruct (ez - e) as [|d|d] eqn:Hd; try lia; cbn [fst].
  - replace (e - ez) with 0 by lia. simpl. lia.
  - rewrite iter_xO. f_equal. f_equal. lia.
Qed.

Lemma cond_Zopp_mul s a b : cond_Zopp s a * b = cond_Zopp s (a * b).
Proof. destruct s; simpl; ring. Qed.

Lemma aligned_value s m e ez :
  -1074 <= ez <= e ->
  cond_Zopp s (Zpos (fst (shl_align m e ez))) * 2 ^ (ez + 1074)
  = cond_Zopp s (Zpos m * 2 ^ (e + 1074)).
Proof.
  intros He. rewrite cond_Zopp_mul, shl_align_fst by lia. f_equal.
  replace (e + 1074) with ((e - ez) + (ez + 1074)) by lia.
  rewrite (Z.pow_add_r 2 (e - ez)) by lia. ring.
Qed.

Lemma sub_exact x y :
  valid x -> valid y -> finite x = true -> finite y = true ->
  representable (Zval x - Zval y) ->
  has_value (sub x y) (Zval x - Zval y).
Proof.
  intros Hx Hy Hfx Hfy Hrep.
  destruct x as [sx|sx| |sx mx ex], y as [sy|sy| |sy my ey]; try done.
  - by destruct sx, sy.
  - repeat split.
    + apply valid_finite_iff in Hy. by apply valid_finite_iff.
    + simpl. destruct sy; simpl; lia.
  - repeat split; [done|]. simpl. lia.
  - unfold sub, SFsub.
    destruct (valid_finite_bounds _ _ _ Hx) as [Hex _].
    destruct (valid_finite_bounds _ _ _ Hy) as [Hey _].
    set (ez := Z.min ex ey).
    assert (Heq : (cond_Zopp sx (Zpos (fst (shl_align mx ex ez)))
                   - cond_Zopp sy (Zpos (fst (shl_align my ey ez)))) * 2 ^ (ez + 1074)
                  = Zval (S754_finite sx mx ex) - Zval (S754_finite sy my ey)).
    { rewrite Z.mul_sub_distr_r, !aligned_value by lia. reflexivity. }
    rewrite <- Heq. apply normalize_exact; [lia|]. by rewrite Heq.
Qed.

Lemma add_exact x y :
  valid x -> valid y -> finite x = true -> finite y = true ->
  representable (Zval x + Zval y) ->
  has_value (add x y) (Zval x + Zval y).
Proof.
  intros Hx Hy Hfx Hfy Hrep.
  destruct x as [sx|sx| |sx mx ex], y as [sy|sy| |sy my ey]; try done.
  - by destruct sx, sy.
  - repeat split; [done|]. simpl. lia.
  - unfold add, SFadd.
    destruct (valid_finite_bounds _ _ _ Hx) as [Hex _].
    destruct (valid_finite_bounds _ _ _ Hy) as [Hey _].
    set (ez := Z.min ex ey).
    assert (Heq : (cond_Zopp sx (Zpos (fst (shl_align mx ex ez)))
                   + cond_Zopp sy (Zpos (fst (shl_align my ey ez)))) * 2 ^ (ez + 1074)
                  = Zval (S754_finite sx mx ex) + Zval (S754_finite sy my ey)).
    { rewrite Z.mul_add_distr_r, !aligned_value by lia. reflexivity. }
    rewrite <- Heq. apply normalize_exact; [lia|]. by rewrite Heq.
Qed.

End FloatOps.

Module FloatOps2.
Import PyFloat FloatFacts FloatRound FloatExact FloatOps.

Local Open Scope Z_scope.

(** A mantissa and exponent, possibly below the format's smallest
    exponent, whose value [q * 2^k] fits the format. *)
Lemma fits K (m : positive) e q k :
  - K <= e -> -1074 <= k -> 1074 <= K ->
  Zpos m * 2 ^ (e + K) = q * 2 ^ (k + K) -> q < 2 ^ 53 ->
  let e' := fexp prec emax (dig m + e) in
  e' <= k /\ -1074 <= e' /\
  (e <= e' -> exists m' : positive,
      Zpos m = Zpos m' * 2 ^ (e' - e) /\ Zpos m' = q * 2 ^ (k - e')).
Proof.
  intros He Hk HK HV Hq e'.
  pose proof (dig_bounds m) as [Hlo Hhi].
  assert (Hpe : 0 < 2 ^ (e + K)) by (apply Z.pow_pos_nonneg; lia).
  assert (Hpk : 0 < 2 ^ (k + K)) by (apply Z.pow_pos_nonneg; lia).
  assert (Hqpos : 0 < q) by nia.
  assert (Hdk : dig m + e - 53 <= k).
  { assert (2 ^ (dig m - 1 + (e + K)) < 2 ^ (53 + (k + K))).
    { rewrite (Z.pow_add_r 2 (dig m - 1) (e + K)) by lia.
      rewrite (Z.pow_add_r 2 53 (k + K)) by lia. nia. }
    apply pow2_lt_inv in H; lia. }
  subst e'. rewrite fexp_eq. repeat split; try lia.
  intros Hle.
  set (e' := Z.max (dig m + e - 53) (-1074)) in *.
  assert (Hm : Zpos m = q * 2 ^ (k - e)).
  { replace (k + K) with ((k - e) + (e + K)) in HV by lia.
    rewrite (Z.pow_add_r 2 (k - e) (e + K)), Z.mul_assoc in HV by lia.
    apply Z.mul_cancel_r in HV; [done|lia]. }
  assert (0 < 2 ^ (k - e')) by (apply Z.pow_pos_nonneg; lia).
  exists (Z.to_pos (q * 2 ^ (k - e'))).
  rewrite Z2Pos.id by nia. split; [|done].
  rewrite Hm. replace (k - e) with ((k - e') + (e' - e)) by lia.
  rewrite (Z.pow_add_r 2 (k - e') (e' - e)) by lia. ring.
Qed.

(** Rounding an exact mantissa and exponent whose value fits. *)
Lemma bra_fits K s (m : positive) e q k :
  - K <= e -> -1074 <= k -> 1074 <= K ->
  Zpos m * 2 ^ (e + K) = q * 2 ^ (k + K) -> q < 2 ^ 53 ->
  q * 2 ^ (k + 1074) < 2 ^ 2098 ->
  e <= fexp prec emax (dig m + e) ->
  has_value (binary_round_aux prec emax s (Zpos m) e loc_Exact)
            (cond_Zopp s (q * 2 ^ (k + 1074))).
Proof.
  intros He Hk HK HV Hq Hov Hn. revert Hov.
  destruct (fits K m e q k He Hk HK HV Hq) as (Hek & Hemin & Hdiv).
  set (e' := fexp prec emax (dig m + e)) in *.
  destruct (Hdiv Hn) as (m' & Hm & Hm').
  assert (Hdig : dig m = dig m' + (e' - e)) by (apply dig_mul_pow2; [lia|done]).
  assert (Hval : Zpos m' * 2 ^ (e' + 1074) = q * 2 ^ (k + 1074)).
  { rewrite Hm'. replace (k + 1074) with ((k - e') + (e' + 1074)) by lia.
    rewrite (Z.pow_add_r 2 (k - e')) by lia. ring. }
  intros Hov.
  assert (Hlt : dig m' - 1 + (e' + 1074) < 2098).
  { pose proof (dig_bounds m') as [Hlo _].
    apply pow2_lt_inv; [done|].
    rewrite (Z.pow_add_r 2 (dig m' - 1)) by lia.
    eapply Z.le_lt_trans; [|exact Hov]. rewrite <- Hval.
    apply Z.mul_le_mono_nonneg_r; [apply Z.pow_nonneg|]; lia. }
  clear Hov.
  assert (He' : e' <= 971).
  { subst e'. rewrite fexp_eq in *. lia. }
  rewrite (bra_exact s m m' e (e' - e)); try lia; try done.
  replace (e + (e' - e)) with e' by lia.
  repeat split.
  - apply valid_finite_iff. replace (dig m' + e') with (dig m + e) by lia. by fold e'.
  - simpl. by rewrite Hval.
Qed.

End FloatOps2.

Module FloatOps3.
Import PyFloat FloatFacts FloatRound FloatExact FloatOps FloatOps2.

Local Open Scope Z_scope.

Lemma dig_mul_ge a b : dig a + dig b - 1 <= dig (a * b).
Proof.
  pose proof (dig_bounds a) as [Ha _]. pose proof (dig_bounds b) as [Hb _].
  pose proof (dig_bounds (a * b)) as [_ Hab].
  assert (2 ^ ((dig a - 1) + (dig b - 1)) < 2 ^ dig (a * b)).
  { rewrite Z.pow_add_r by slia. rewrite Pos2Z.inj_mul in Hab.
    assert (0 < 2 ^ (dig a - 1)) by (apply Z.pow_pos_nonneg; slia).
    assert (0 < 2 ^ (dig b - 1)) by (apply Z.pow_pos_nonneg; slia).
    snia. }
  apply pow2_lt_inv in H; slia.
Qed.

(** The exponent of a well-formed double is the smallest one unless the
    mantissa has all 53 bits. *)
Lemma valid_finite_shape s m e :
  valid (S754_finite s m e) ->
  -1074 <= e <= 971 /\ dig m <= 53 /\ (dig m = 53 \/ e = -1074).
Proof.
  intros Hv. apply valid_finite_iff in Hv as [Hf He]. rewrite fexp_eq in Hf. slia.
Qed.

Lemma cond_Zopp_cond_Zopp s1 s2 a b :
  cond_Zopp s1 a * cond_Zopp s2 b = cond_Zopp (xorb s1 s2) (a * b).
Proof. destruct s1, s2; simpl; ring. Qed.

Lemma representable_abs V :
  representable V -> exists q k, Z.abs V = q * 2 ^ (k + 1074) /\ -1074 <= k /\
    0 <= q < 2 ^ 53 /\ Z.abs V < 2 ^ 2098.
Proof.
  intros (q & k & -> & Hk & Hq & Hov). exists (Z.abs q), k.
  rewrite Z.abs_mul, (Z.abs_eq (2 ^ _)) in * by (apply Z.pow_nonneg; slia).
  repeat split; try done; slia.
Qed.

Lemma mul_exact x y V :
  valid x -> valid y -> finite x = true -> finite y = true ->
  Zval x * Zval y = V * 2 ^ 1074 -> representable V ->
  has_value (mul x y) V.
Proof.
  intros Hx Hy Hfx Hfy HV Hrep.
  destruct x as [sx|sx| |sx mx ex], y as [sy|sy| |sy my ey]; try done;
    try (simpl in HV; assert (V = 0) as -> by snia; apply has_value_zero).
  destruct (valid_finite_shape _ _ _ Hx) as (Hex & Hdx & Hsx).
  destruct (valid_finite_shape _ _ _ Hy) as (Hey & Hdy & Hsy).
  destruct (representable_abs V Hrep) as (q & k & Habs & Hk & Hq & Hov).
  cbn [Zval] in HV. rewrite cond_Zopp_cond_Zopp in HV.
  assert (Hpx : 0 < 2 ^ (ex + 1074)) by (apply Z.pow_pos_nonneg; slia).
  assert (Hpy : 0 < 2 ^ (ey + 1074)) by (apply Z.pow_pos_nonneg; slia).
  assert (Hpk : 0 < 2 ^ (k + 1074)) by (apply Z.pow_pos_nonneg; slia).
  assert (Hprod : 0 < Zpos mx * 2 ^ (ex + 1074) * (Zpos my * 2 ^ (ey + 1074))) by snia.
  assert (Hsign : V = cond_Zopp (xorb sx sy) (q * 2 ^ (k + 1074))).
  { rewrite <- Habs. destruct (xorb sx sy); simpl in *; slia. }
  assert (Heq : Zpos (mx * my) * 2 ^ (ex + ey + 2148) = q * 2 ^ (k + 2148)).
  { assert (Hmag : Zpos mx * 2 ^ (ex + 1074) * (Zpos my * 2 ^ (ey + 1074))
                   = q * 2 ^ (k + 1074) * 2 ^ 1074).
    { rewrite <- Habs. destruct (xorb sx sy); simpl in HV; slia. }
    replace (ex + ey + 2148) with ((ex + 1074) + (ey + 1074)) by slia.
    replace (k + 2148) with ((k + 1074) + 1074) by slia.
    rewrite (Z.pow_add_r 2 (ex + 1074)), (Z.pow_add_r 2 (k + 1074)) by slia.
    rewrite Pos2Z.inj_mul. slia. }
  rewrite Hsign. unfold mul, SFmul.
  apply (bra_fits 2148); try slia; try done.
  pose proof (dig_mul_ge mx my). rewrite fexp_eq. slia.
Qed.

Lemma div_eucl_exact a b : 0 < b -> Z.div_eucl (a * b) b = (a, 0).
Proof.
  intros Hb. destruct (Z.div_eucl (a * b) b) as [q r] eqn:H.
  assert (Hq : q = a * b / b) by (unfold Z.div; by rewrite H).
  assert (Hr : r = (a * b) mod b) by (unfold Z.modulo; by rewrite H).
  rewrite Z.div_mul in Hq by slia. rewrite Z.mod_mul in Hr by slia. by subst.
Qed.

Lemma div_exact x sy my ey t :
  valid x -> valid (S754_finite sy my ey) -> finite x = true ->
  Zval x = t * Zval (S754_finite sy my ey) -> Z.abs t < 2 ^ 53 ->
  has_value (cdiv x (S754_finite sy my ey)) (t * 2 ^ 1074).
Proof.
  intros Hx Hy Hfx Ht Hbound.
  destruct (valid_finite_shape _ _ _ Hy) as (Hey & Hdy & Hsy).
  assert (Hpy : 0 < 2 ^ (ey + 1074)) by (apply Z.pow_pos_nonneg; slia).
  destruct x as [sx|sx| |sx mx ex]; try done.
  { simpl in Ht. assert (t = 0) as -> by (destruct sy; simpl in Ht; snia).
    apply has_value_zero. }
  destruct (valid_finite_shape _ _ _ Hx) as (Hex & Hdx & Hsx).
  assert (Hpx : 0 < 2 ^ (ex + 1074)) by (apply Z.pow_pos_nonneg; slia).
  set (q := Z.abs t).
  assert (Hmag : Zpos mx * 2 ^ (ex + 1074) = q * (Zpos my * 2 ^ (ey + 1074))).
  { subst q. cbn [Zval] in Ht. destruct sx, sy; simpl in Ht; snia. }
  assert (Hqpos : 0 < q) by snia.
  assert (Hsign : t * 2 ^ 1074 = cond_Zopp (xorb sx sy) (q * 2 ^ (0 + 1074))).
  { subst q. cbn [Zval] in Ht. change (0 + 1074) with 1074.
    rewrite <- cond_Zopp_mul. f_equal.
    destruct sx, sy; cbn [cond_Zopp xorb] in *; nia. }
  rewrite Hsign. unfold cdiv, SFdiv, SFdiv_core_binary. cbn [Zdigits2].
  set (z := dig mx + ex - (dig my + ey)).
  set (e' := Z.min (fexp prec emax z) (ex - ey)).
  pose proof (dig_bounds mx) as [Hmxlo Hmxhi].
  pose proof (dig_bounds my) as [Hmylo Hmyhi].
  assert (Hdq : exists dq, 0 <= dq <= 53 /\ 2 ^ (dq - 1) <= q < 2 ^ dq /\ z <= dq).
  { exists (Z.log2 q + 1).
    pose proof (Z.log2_spec q Hqpos) as [Hl1 Hl2].
    pose proof (Z.log2_nonneg q).
    assert (Z.log2 q < 53) by (apply Z.log2_lt_pow2; slia).
    replace (Z.succ (Z.log2 q)) with (Z.log2 q + 1) in Hl2 by slia.
    replace (Z.log2 q + 1 - 1) with (Z.log2 q) by slia.
    repeat split; try slia.
    assert (2 ^ (dig mx - 1 + (ex + 1074)) < 2 ^ ((Z.log2 q + 1) + (dig my + (ey + 1074)))).
    { rewrite (Z.pow_add_r 2 (dig mx - 1)) by slia.
      rewrite (Z.pow_add_r 2 (Z.log2 q + 1)), (Z.pow_add_r 2 (dig my)) by slia.
      assert (0 < 2 ^ (Z.log2 q + 1)) by (apply Z.pow_pos_nonneg; slia).
      assert (2 ^ (dig mx - 1) * 2 ^ (ex + 1074) <= Zpos mx * 2 ^ (ex + 1074))
        by (apply Z.mul_le_mono_nonneg_r; slia).
      assert (q * Zpos my < 2 ^ (Z.log2 q + 1) * 2 ^ dig my)
        by (apply Z.mul_lt_mono_nonneg; slia).
      assert (q * Zpos my * 2 ^ (ey + 1074)
              < 2 ^ (Z.log2 q + 1) * 2 ^ dig my * 2 ^ (ey + 1074))
        by (apply Z.mul_lt_mono_pos_r; slia).
      slia. }
    apply pow2_lt_inv in H1; slia. }
  destruct Hdq as (dq & Hdq & [Hqlo Hqdq] & Hz).
  assert (He' : e' <= 0 /\ e' <= ex - ey /\ -2148 <= e').
  { subst e'. rewrite fexp_eq. slia. }
  set (s := ex - ey - e').
  assert (Hm' : match s with Z.pos _ => Z.shiftl (Zpos mx) s | 0 => Zpos mx | Z.neg _ => 0 end
                = Zpos mx * 2 ^ s).
  { assert (Hs : 0 <= s) by slia. clearbody s.
    destruct s as [|p|p]; [|by rewrite Z.shiftl_mul_pow2|slia].
    by rewrite Z.mul_1_r. }
  rewrite Hm'.
  assert (Hexact : Zpos mx * 2 ^ s = (q * 2 ^ (- e')) * Zpos my).
  { assert (H : Zpos mx * 2 ^ s * 2 ^ (ey + 1074)
                = q * 2 ^ (- e') * Zpos my * 2 ^ (ey + 1074)).
    { transitivity (Zpos mx * 2 ^ (ex + 1074) * 2 ^ (- e')).
      - rewrite <- !Z.mul_assoc. f_equal. rewrite <- !Z.pow_add_r by slia.
        f_equal. slia.
      - rewrite Hmag. ring. }
    apply Z.mul_cancel_r in H; [done|slia]. }
  rewrite Hexact, div_eucl_exact by slia.
  cbv beta iota.
  replace (new_location (Zpos my) 0) with loc_Exact
    by (unfold new_location; by destruct (Z.even _)).
  assert (Hp : 0 < 2 ^ (- e')) by (apply Z.pow_pos_nonneg; slia).
  set (m := Z.to_pos (q * 2 ^ (- e'))).
  assert (Hm : Zpos m = q * 2 ^ (- e')) by (subst m; rewrite Z2Pos.id; snia).
  rewrite <- Hm.
  assert (Hdm : dig m = dq - e').
  { apply dig_unique. rewrite Hm.
    replace (dq - e' - 1) with ((dq - 1) + (- e')) by slia.
    replace (dq - e') with (dq + (- e')) by slia.
    destruct (Z.eq_dec dq 0) as [->|Hne].
    { simpl in Hqdq. slia. }
    rewrite !Z.pow_add_r by slia. snia. }
  apply (bra_fits 2148); try slia.
  - rewrite Hm. rewrite <- Z.mul_assoc, <- Z.pow_add_r by slia. f_equal. f_equal. slia.
  - apply (pow2_range_bound t 0); [lia|done].
  - rewrite Hdm. replace (dq - e' + e') with dq by slia.
    subst e'. rewrite !fexp_eq. slia.
Qed.

End FloatOps3.

Module FloatOps4.
Import PyFloat FloatFacts FloatRound FloatExact FloatOps FloatOps2 FloatOps3.

Local Open Scope Z_scope.

Lemma rem_signed sx sy X Y P :
  0 < Y -> 0 < P ->
  Z.rem (cond_Zopp sx (X * P)) (cond_Zopp sy (Y * P)) = cond_Zopp sx (Z.rem X Y * P).
Proof.
  intros HY HP.
  assert (Y * P <> 0) by snia.
  destruct sx, sy; simpl;
    rewrite ?Z.rem_opp_r, ?Z.rem_opp_l, ?Z.mul_rem_distr_r by slia; reflexivity.
Qed.

Lemma Zval_finite_bound s m e :
  valid (S754_finite s m e) -> Zpos m * 2 ^ (e + 1074) < 2 ^ 2098.
Proof.
  intros Hv. destruct (representable_Zval _ Hv) as (q & k & HV & Hk & Hq & Hov).
  destruct (valid_finite_bounds _ _ _ Hv) as [He _].
  assert (0 < 2 ^ (e + 1074)) by (apply Z.pow_pos_nonneg; slia).
  simpl in Hov. destruct s; simpl in Hov; slia.
Qed.

Lemma fmod_exact x sy my ey :
  valid x -> valid (S754_finite sy my ey) -> finite x = true ->
  has_value (fmod x (S754_finite sy my ey))
            (Z.rem (Zval x) (Zval (S754_finite sy my ey))).
Proof.
  intros Hx Hy Hfx.
  destruct x as [sx|sx| |sx mx ex]; try done.
  destruct (valid_finite_bounds _ _ _ Hx) as [Hex Hmx].
  destruct (valid_finite_bounds _ _ _ Hy) as [Hey Hmy].
  pose proof (Zval_finite_bound _ _ _ Hx) as Hbx.
  unfold fmod. set (e := Z.min ex ey).
  rewrite !Z.shiftl_mul_pow2 by slia.
  set (X := Zpos mx * 2 ^ (ex - e)). set (Y := Zpos my * 2 ^ (ey - e)).
  assert (HP : 0 < 2 ^ (e + 1074)) by (apply Z.pow_pos_nonneg; slia).
  assert (HX : 0 < X) by (subst X; assert (0 < 2 ^ (ex - e)) by (apply Z.pow_pos_nonneg; slia); snia).
  assert (HY : 0 < Y) by (subst Y; assert (0 < 2 ^ (ey - e)) by (apply Z.pow_pos_nonneg; slia); snia).
  assert (HXP : Zpos mx * 2 ^ (ex + 1074) = X * 2 ^ (e + 1074)).
  { subst X. rewrite <- Z.mul_assoc, <- Z.pow_add_r by slia. do 2 f_equal. slia. }
  assert (HYP : Zpos my * 2 ^ (ey + 1074) = Y * 2 ^ (e + 1074)).
  { subst Y. rewrite <- Z.mul_assoc, <- Z.pow_add_r by slia. do 2 f_equal. slia. }
  cbn [Zval]. rewrite HXP, HYP, rem_signed by done.
  pose proof (Z.rem_bound_pos X Y ltac:(slia) HY) as [Hr0 HrY].
  pose proof (Z.rem_le X Y ltac:(slia) HY) as HrX.
  destruct (Z.rem X Y) as [|r|r] eqn:Hr; [| |slia].
  - destruct sx; apply has_value_zero.
  - rewrite <- cond_Zopp_mul. apply normalize_exact; [slia|].
    exists (cond_Zopp sx (Zpos r)), e. repeat split; [slia| |].
    + assert (Zpos r < 2 ^ 53).
      { destruct (Z.min_spec ex ey) as [[_ Hmin]|[_ Hmin]]; fold e in Hmin.
        - subst X. rewrite Hmin, Z.sub_diag, Z.mul_1_r in HrX. slia.
        - subst Y. rewrite Hmin, Z.sub_diag, Z.mul_1_r in HrY. slia. }
      destruct sx; simpl; slia.
    + rewrite cond_Zopp_mul.
      assert (Zpos r * 2 ^ (e + 1074) <= X * 2 ^ (e + 1074))
        by (apply Z.mul_le_mono_nonneg_r; slia).
      destruct sx; simpl; slia.
Qed.

(** [floor] of a double that is an integer. *)
Lemma floor_int x t :
  has_value x (t * 2 ^ 1074) -> has_value (floor x) (t * 2 ^ 1074).
Proof.
  intros (Hv & Hf & Hval).
  destruct x as [s|s| |s m e]; try done.
  unfold floor. destruct (0 <=? e) eqn:He; [done|].
  apply Z.leb_gt in He.
  destruct (valid_finite_bounds _ _ _ Hv) as [Hex _].
  assert (Hm : cond_Zopp s (Zpos m) = t * 2 ^ (- e)).
  { cbn [Zval] in Hval. rewrite <- cond_Zopp_mul in Hval.
    replace 1074 with ((- e) + (e + 1074)) in Hval at 2 by slia.
    rewrite (Z.pow_add_r 2 (- e)), Z.mul_assoc in Hval by slia.
    apply Z.mul_cancel_r in Hval; [done|]. apply Z.pow_nonzero; slia. }
  rewrite Z.shiftr_div_pow2 by slia.
  rewrite Hm, Z.div_mul by (apply Z.pow_nonzero; slia).
  assert (Ht : t <> 0).
  { intros ->. destruct s; simpl in Hm; slia. }
  replace (match t with 0 => S754_zero s | _ => binary_normalize prec emax t 0 false end)
    with (binary_normalize prec emax t 0 false) by (by destruct t).
  change (t * 2 ^ 1074) with (t * 2 ^ (0 + 1074)).
  apply normalize_exact; [slia|].
  change (0 + 1074) with 1074. rewrite <- Hval. by apply representable_Zval.
Qed.

Lemma to_int_exact x v : has_value x v -> to_int x = Ok (Z.quot v (2 ^ 1074)).
Proof.
  intros (Hv & Hf & <-).
  destruct x as [s|s| |s m e]; try done.
  destruct (valid_finite_bounds _ _ _ Hv) as [Hex _].
  cbn [to_int Zval]. f_equal.
  assert (Hq : Z.shiftl (Zpos m) e = Z.quot (Zpos m * 2 ^ (e + 1074)) (2 ^ 1074)).
  { destruct (Z_lt_le_dec e 0) as [Hneg|Hpos].
    - rewrite <- (Z.opp_involutive e) at 1.
      rewrite Z.shiftl_opp_r, Z.shiftr_div_pow2 by slia.
      rewrite Z.quot_div_nonneg; [|apply Z.mul_nonneg_nonneg; [slia|apply Z.pow_nonneg; slia]
                                  |by vm_compute].
      replace 1074 with ((e + 1074) + (- e)) at 2 by slia.
      rewrite (Z.pow_add_r 2 (e + 1074)) by slia.
      rewrite (Z.mul_comm (2 ^ (e + 1074))).
      rewrite Z.div_mul_cancel_r; [done| |]; apply Z.pow_nonzero; slia.
    - rewrite Z.shiftl_mul_pow2 by slia.
      rewrite (Z.pow_add_r 2 e) by slia. rewrite Z.mul_assoc.
      by rewrite Z.quot_mul by (by vm_compute). }
  destruct s; simpl; rewrite Hq; [|done].
  by rewrite Z.quot_opp_l by (by vm_compute).
Qed.

Lemma ltb_zero_value x v : has_value x v -> ltb_zero x = (v <? 0).
Proof.
  intros (Hv & Hf & <-).
  destruct x as [s|s| |s m e]; try done.
  destruct (valid_finite_bounds _ _ _ Hv) as [Hex _].
  assert (0 < 2 ^ (e + 1074)) by (apply Z.pow_pos_nonneg; slia).
  destruct s; simpl; symmetry; [apply Z.ltb_lt|apply Z.ltb_ge]; snia.
Qed.

Lemma nonzero_value x v : has_value x v -> nonzero x = negb (v =? 0).
Proof.
  intros (Hv & Hf & <-).
  destruct x as [s|s| |s m e]; try done.
  destruct (valid_finite_bounds _ _ _ Hv) as [Hex _].
  assert (0 < 2 ^ (e + 1074)) by (apply Z.pow_pos_nonneg; slia).
  simpl. symmetry. apply negb_true_iff, Z.eqb_neq. destruct s; simpl; snia.
Qed.

End FloatOps4.

Module FloatDivMod.
Import PyFloat FloatFacts FloatRound FloatExact FloatOps FloatOps2 FloatOps3 FloatOps4.

Local Open Scope Z_scope.

(** Floor division and modulo from truncated division, for a positive
    divisor. *)
Lemma floor_of_trunc v b :
  0 < b ->
  v / b = (if Z.rem v b <? 0 then Z.quot v b - 1 else Z.quot v b) /\
  v mod b = (if Z.rem v b <? 0 then Z.rem v b + b else Z.rem v b).
Proof.
  intros Hb. pose proof (Z.quot_rem' v b) as Hqr.
  pose proof (Z.rem_bound_abs v b ltac:(slia)) as Habs.
  destruct (Z.rem v b <? 0) eqn:Hneg.
  - apply Z.ltb_lt in Hneg. split; symmetry.
    + apply (Z.div_unique_pos v b _ (Z.rem v b + b)); slia.
    + apply (Z.mod_unique_pos v b (Z.quot v b - 1)); slia.
  - apply Z.ltb_ge in Hneg. split; symmetry.
    + apply (Z.div_unique_pos v b _ (Z.rem v b)); slia.
    + apply (Z.mod_unique_pos v b (Z.quot v b)); slia.
Qed.

(** The value of [60.0], in units of [2^-1074]. *)
Notation S60 := (60 * 2 ^ 1074).

Lemma lit_60_eq : lit_60 = S754_finite false 8444249301319680 (-47).
Proof. reflexivity. Qed.

Lemma lit_60_value : has_value lit_60 S60.
Proof. repeat split. Qed.

Lemma lit_1_value : has_value lit_1 (1 * 2 ^ 1074).
Proof. repeat split. Qed.

Lemma lt_half_zero z : has_value z 0 -> SFltb lit_0_5 z = false.
Proof.
  intros (Hv & Hf & Hval). destruct z as [s|s| |s m e]; try done.
  destruct (valid_finite_bounds _ _ _ Hv) as [He _].
  assert (0 < 2 ^ (e + 1074)) by (apply Z.pow_pos_nonneg; slia).
  destruct s; simpl in Hval; snia.
Qed.

Lemma has_value_eq x v w : has_value x v -> v = w -> has_value x w.
Proof. by intros H <-. Qed.

(** [total // 60] is the floor of the quotient, below [2^53]. *)
Lemma floordiv_exact total v :
  has_value total v -> Z.abs v < 2 ^ 53 * 2 ^ 1074 ->
  exists q, floordiv total lit_60 = Ok q /\ has_value q (v / S60 * 2 ^ 1074).
Proof.
  intros Ht Hv.
  pose proof Ht as (Hvalid & Hfin & Hval).
  assert (HP : 0 < 2 ^ 1074) by (by vm_compute).
  assert (HS : 0 < S60) by slia.
  unfold floordiv. change (is_zero lit_60) with false. cbv iota.
  eexists; split; [reflexivity|].
  unfold div_mod_floordiv.
  rewrite lit_60_eq.
  pose proof (fmod_exact total false 8444249301319680 (-47) Hvalid
                (proj1 lit_60_value) Hfin) as Hmod.
  rewrite <- lit_60_eq in *. rewrite Hval, (proj2 (proj2 lit_60_value)) in Hmod.
  set (mod_ := fmod total lit_60) in *.
  pose proof (Z.quot_rem' v S60) as Hqr.
  pose proof (Z.rem_bound_abs v S60 ltac:(slia)) as Hrabs.
  set (tq := Z.quot v S60) in *. set (rm := Z.rem v S60) in *.
  assert (Htq : Z.abs tq < 2 ^ 53).
  { assert (Z.abs rm <= Z.abs v)
      by (subst rm; rewrite <- Z.rem_abs by slia; apply Z.rem_le; slia).
    assert (Hsame : 0 <= rm * v) by (subst rm; apply Z.rem_sign_mul; slia).
    snia. }
  assert (Hsame : 0 <= rm * v) by (subst rm; apply Z.rem_sign_mul; slia).
  assert (Hsub : has_value (sub total mod_) (60 * tq * 2 ^ 1074)).
  { destruct Hmod as (Hmv & Hmf & Hmval).
    apply (has_value_eq _ (Zval total - Zval mod_)); [|rewrite Hval, Hmval; slia].
    apply sub_exact; try done.
    rewrite Hval, Hmval. replace (v - rm) with (60 * tq * 2 ^ 1074) by slia.
    apply representable_int. snia. }
  assert (Hdiv0 : has_value (cdiv (sub total mod_) lit_60) (tq * 2 ^ 1074)).
  { destruct Hsub as (Hsv & Hsf & Hsval). rewrite lit_60_eq.
    apply div_exact; try done.
    rewrite Hsval. rewrite <- lit_60_eq, (proj2 (proj2 lit_60_value)). ring. }
  rewrite (nonzero_value _ _ Hmod), (ltb_zero_value _ _ Hmod),
          (ltb_zero_value _ _ lit_60_value).
  change (S60 <? 0) with false.
  destruct (floor_of_trunc v S60 HS) as [Hfloor _]. fold rm tq in Hfloor.
  set (d := v / S60) in *.
  assert (Hdiv : has_value
            (if negb (rm =? 0) && negb (eqb false (rm <? 0))
             then sub (cdiv (sub total mod_) lit_60) lit_1
             else cdiv (sub total mod_) lit_60) (d * 2 ^ 1074)).
  { destruct (rm <? 0) eqn:Hneg.
    - apply Z.ltb_lt in Hneg.
      replace (rm =? 0) with false by (symmetry; apply Z.eqb_neq; slia).
      cbn [negb andb eqb]. 
      destruct Hdiv0 as (Hdv & Hdf & Hdval).
      apply (has_value_eq _ (Zval (cdiv (sub total mod_) lit_60) - Zval lit_1));
        [|rewrite Hdval, (proj2 (proj2 lit_1_value)), Hfloor; ring].
      apply sub_exact; try done; try apply lit_1_value.
      rewrite Hdval, (proj2 (proj2 lit_1_value)).
      replace (tq * 2 ^ 1074 - 1 * 2 ^ 1074) with ((tq - 1) * 2 ^ 1074) by ring.
      apply representable_int. snia.
    - cbn [negb andb eqb]. rewrite andb_false_r. by rewrite Hfloor. }
  set (div := if negb (rm =? 0) && negb (eqb false (rm <? 0))
              then sub (cdiv (sub total mod_) lit_60) lit_1
              else cdiv (sub total mod_) lit_60) in *.
  assert (Hd : Z.abs d < 2 ^ 53).
  { rewrite Hfloor. destruct (rm <? 0) eqn:Hneg; [|done].
    apply Z.ltb_lt in Hneg. snia. }
  rewrite (nonzero_value _ _ Hdiv).
  destruct (Z.eq_dec d 0) as [Hd0|Hd0].
  - replace (d * 2 ^ 1074 =? 0) with true by (symmetry; apply Z.eqb_eq; slia).
    cbn [negb]. rewrite Hd0. apply has_value_zero.
  - replace (d * 2 ^ 1074 =? 0) with false by (symmetry; apply Z.eqb_neq; slia).
    cbn [negb].
    pose proof (floor_int _ _ Hdiv) as Hfl.
    assert (Hz : has_value (sub div (floor div)) 0).
    { destruct Hdiv as (? & ? & Hdval), Hfl as (? & ? & Hfval).
      apply (has_value_eq _ (Zval div - Zval (floor div))); [|rewrite Hdval, Hfval; slia].
      apply sub_exact; try done. rewrite Hdval, Hfval, Z.sub_diag.
      apply (representable_int 0). by vm_compute. }
    by rewrite (lt_half_zero _ Hz).
Qed.

End FloatDivMod.

Module DurationFacts.
Import PyFloat FloatFacts FloatRound FloatExact FloatOps FloatOps2 FloatOps3 FloatOps4.
Import FloatDivMod Tools.

Local Open Scope Z_scope.

(** [total % 60] is the mathematical remainder whenever that remainder is
    a double, as it is for every non-negative [total]. *)
Lemma rem_exact total v :
  has_value total v -> (0 <= v \/ representable (v mod S60)) ->
  exists r, rem total lit_60 = Ok r /\ has_value r (v mod S60).
Proof.
  intros Ht Hcond.
  pose proof Ht as (Hvalid & Hfin & Hval).
  assert (HP : 0 < 2 ^ 1074) by (by vm_compute).
  assert (HS : 0 < S60) by slia.
  unfold rem. change (is_zero lit_60) with false. cbv iota.
  eexists; split; [reflexivity|].
  pose proof (fmod_exact total false 8444249301319680 (-47) Hvalid
                (proj1 lit_60_value) Hfin) as Hmod.
  rewrite <- lit_60_eq in *. rewrite Hval, (proj2 (proj2 lit_60_value)) in Hmod.
  set (mod_ := fmod total lit_60) in *.
  destruct (floor_of_trunc v S60 HS) as [_ Hfloor].
  pose proof (Z.rem_sign_mul v S60 ltac:(slia)) as Hsame.
  set (rm := Z.rem v S60) in *.
  rewrite (nonzero_value _ _ Hmod), (ltb_zero_value _ _ Hmod),
          (ltb_zero_value _ _ lit_60_value).
  change (S60 <? 0) with false.
  destruct (Z.eq_dec rm 0) as [H0|H0].
  - rewrite H0 in *. simpl in Hfloor. rewrite Hfloor.
    change (0 =? 0) with true. cbn [negb]. apply has_value_zero.
  - replace (rm =? 0) with false by (symmetry; apply Z.eqb_neq; slia).
    cbn [negb]. destruct (rm <? 0) eqn:Hneg; cbn [negb eqb].
    + apply Z.ltb_lt in Hneg.
      assert (Hv : v < 0).
      { destruct (Z.eq_dec v 0) as [Hv0|Hv0]; [|snia].
        subst rm. rewrite Hv0, Z.rem_0_l in Hneg; slia. }
      destruct Hcond as [?|Hrep]; [slia|].
      destruct Hmod as (? & ? & Hmval).
      apply (has_value_eq _ (Zval mod_ + Zval lit_60));
        [|rewrite Hmval, (proj2 (proj2 lit_60_value)); slia].
      apply add_exact; try done.
      rewrite Hmval, (proj2 (proj2 lit_60_value)). by rewrite <- Hfloor.
    + by rewrite Hfloor.
Qed.

Lemma duration_exact n avg f v :
  of_int n = Ok f -> has_value (mul f avg) v ->
  Z.abs v < 2 ^ 53 * 2 ^ 1074 ->
  (0 <= v \/ representable (v mod S60)) ->
  calculate_playlist_duration n avg
  = Ok (duration_text (v / S60) (v mod S60 / 2 ^ 1074)).
Proof.
  intros Hf Ht Hv Hcond.
  assert (HP : 0 < 2 ^ 1074) by (by vm_compute).
  destruct (floordiv_exact _ _ Ht Hv) as (q & Hq & Hqv).
  destruct (rem_exact _ _ Ht Hcond) as (r & Hr & Hrv).
  unfold calculate_playlist_duration. rewrite Hf. cbn [mbind result_bind].
  rewrite Hq. cbn [mbind result_bind].
  rewrite (to_int_exact _ _ Hqv). cbn [mbind result_bind].
  rewrite Hr. cbn [mbind result_bind].
  rewrite (to_int_exact _ _ Hrv). cbn [mbind result_bind].
  rewrite Z.quot_mul by slia.
  pose proof (Z.mod_pos_bound v S60 ltac:(slia)).
  rewrite (Z.quot_div_nonneg (v mod S60)) by slia.
  unfold duration_text. by destruct (0 <? v / S60).
Qed.

End DurationFacts.

Module FloatGeneral.
Import PyFloat FloatFacts FloatRound FloatExact FloatOps FloatOps2 FloatOps3 FloatOps4.

Local Open Scope Z_scope.

Lemma shr_1_m mrs : 0 <= shr_m mrs -> shr_m (shr_1 mrs) = shr_m mrs / 2.
Proof.
  destruct mrs as [m r s]. cbn [shr_m]. intros Hm.
  destruct m as [|[p|p|]|p]; cbn [shr_1 shr_m]; [reflexivity| | |reflexivity|lia].
  - rewrite Pos2Z.inj_xI. apply (Z.div_unique_pos _ 2 _ 1); lia.
  - rewrite Pos2Z.inj_xO. apply (Z.div_unique_pos _ 2 _ 0); lia.
Qed.

Lemma shr_m_iter k : forall mrs,
  0 <= shr_m mrs -> shr_m (Nat.iter k shr_1 mrs) = shr_m mrs / 2 ^ Z.of_nat k.
Proof.
  induction k as [|k IH]; intros mrs Hm.
  - simpl. by rewrite Z.div_1_r.
  - rewrite Nat.iter_succ, shr_1_m.
    + rewrite IH by done. rewrite Nat2Z.inj_succ, Z.pow_succ_r by lia.
      rewrite Z.div_div by (try apply Z.pow_pos_nonneg; lia).
      f_equal. lia.
    + rewrite IH by done. apply Z.div_pos; [done|]. apply Z.pow_pos_nonneg; lia.
Qed.

Lemma shr_spec mrs e n :
  0 <= n -> 0 <= shr_m mrs ->
  snd (shr mrs e n) = e + n /\ shr_m (fst (shr mrs e n)) = shr_m mrs / 2 ^ n.
Proof.
  intros Hn Hm. destruct n as [|p|p]; try lia; cbn [shr fst snd].
  - split; [lia|]. by rewrite Z.div_1_r.
  - split; [done|]. by rewrite iter_pos_nat, shr_m_iter, positive_nat_Z.
Qed.

Lemma shr_record_of_loc_m m l : shr_m (shr_record_of_loc m l) = m.
Proof. by destruct l as [|[]]. Qed.

Lemma round_nearest_even_bounds m l :
  m <= round_nearest_even m l <= m + 1.
Proof. destruct l as [|[]]; simpl; try lia. destruct (Z.even m); lia. Qed.

(** Rounding in general: the result is well formed, and when it is a
    number its magnitude is the truncated mantissa or the next one. *)
Lemma bra_general s (m : positive) e loc :
  let e1 := fexp prec emax (dig m + e) in
  e <= e1 ->
  exists m2, Zpos m / 2 ^ (e1 - e) <= m2 <= Zpos m / 2 ^ (e1 - e) + 1 /\
    valid (binary_round_aux prec emax s (Zpos m) e loc) /\
    (e1 < 971 -> finite (binary_round_aux prec emax s (Zpos m) e loc) = true) /\
    (finite (binary_round_aux prec emax s (Zpos m) e loc) = true ->
     Zval (binary_round_aux prec emax s (Zpos m) e loc)
     = cond_Zopp s (m2 * 2 ^ (e1 + 1074))).
Proof.
  intros e1 Hle.
  pose proof (dig_bounds m) as [Hlo Hhi].
  assert (He1 : -1074 <= e1) by (subst e1; rewrite fexp_eq; lia).
  assert (Hpn : 0 < 2 ^ (e1 - e)) by (apply Z.pow_pos_nonneg; lia).
  unfold binary_round_aux, shr_fexp. cbn [Zdigits2]. fold e1.
  destruct (shr_spec (shr_record_of_loc (Zpos m) loc) e (e1 - e)) as [Hsnd Hfst];
    [lia|by rewrite shr_record_of_loc_m|].
  rewrite shr_record_of_loc_m in Hfst.
  destruct (shr (shr_record_of_loc (Zpos m) loc) e (e1 - e)) as [mrs' e1'].
  cbn [fst snd] in *. replace e1' with e1 by lia.
  set (m1 := Zpos m / 2 ^ (e1 - e)) in *. rewrite Hfst.
  pose proof (round_nearest_even_bounds m1 (loc_of_shr_record mrs')) as Hm2.
  set (m2 := round_nearest_even m1 (loc_of_shr_record mrs')) in *.
  assert (Hm1 : 0 <= m1) by (apply Z.div_pos; lia).
  exists m2. split; [done|].
  cbn [shr_record_of_loc].
  destruct m2 as [|p2|p2] eqn:Hp2; try lia.
  { cbn [Zdigits2]. 
    replace (shr {| shr_m := 0; shr_r := false; shr_s := false |} e1
               (fexp prec emax (0 + e1) - e1))
      with ({| shr_m := 0; shr_r := false; shr_s := false |}, e1).
    - cbn [shr_m]. split; [done|]. split; [done|]. intros _. by destruct s.
    - rewrite fexp_eq. destruct (Z.max (0 + e1 - 53) (-1074) - e1) eqn:?; try done. lia. }
  cbn [Zdigits2].
  assert (Hcases : (dig p2 <= 53 /\ fexp prec emax (dig p2 + e1) = e1)
                   \/ (Zpos p2 = 2 ^ 53 /\ fexp prec emax (54 + e1) = e1 + 1)).
  { destruct (Z_lt_le_dec (dig m + e - 53) (-1074)) as [Hsub|Hnorm].
    - left. assert (e1 = -1074) by (subst e1; rewrite fexp_eq; lia).
      assert (Hm1hi : m1 < 2 ^ 52).
      { apply Z.div_lt_upper_bound; [done|].
        assert (2 ^ dig m <= 2 ^ (e1 - e) * 2 ^ 52).
        { rewrite <- Z.pow_add_r by lia. apply Z.pow_le_mono_r; lia. }
        lia. }
      assert (dig p2 <= 53).
      { apply dig_le; [lia|]. change (2 ^ 53) with (2 * 2 ^ 52). lia. }
      split; [done|]. rewrite fexp_eq. lia.
    - assert (He1eq : e1 = dig m + e - 53) by (subst e1; rewrite fexp_eq; lia).
      assert (Hm1hi : m1 < 2 ^ 53).
      { apply Z.div_lt_upper_bound; [done|].
        assert (2 ^ dig m <= 2 ^ (e1 - e) * 2 ^ 53).
        { rewrite <- Z.pow_add_r by lia. apply Z.pow_le_mono_r; lia. }
        lia. }
      assert (Hm1lo : 2 ^ 52 <= m1).
      { apply Z.div_le_lower_bound; [done|].
        assert (2 ^ (e1 - e) * 2 ^ 52 <= 2 ^ (dig m - 1)).
        { rewrite <- Z.pow_add_r by lia. apply Z.pow_le_mono_r; lia. }
        lia. }
      destruct (Z.eq_dec (Zpos p2) (2 ^ 53)) as [Heq|Hne].
      + right. split; [done|]. rewrite fexp_eq. lia.
      + left. assert (dig p2 = 53) by (apply dig_unique; change (53 - 1) with 52; lia).
        split; [lia|]. rewrite fexp_eq. lia. }
  destruct Hcases as [[Hd Hf]|[Hp Hf]].
  - rewrite Hf, Z.sub_diag. cbn [shr shr_m].
    destruct (e1 <=? emax - prec) eqn:Hov.
    + apply Z.leb_le in Hov. unfold emax, prec in Hov. repeat split.
      * apply valid_finite_iff. split; [done|lia].
    + apply Z.leb_gt in Hov. unfold emax, prec in Hov. repeat split; [lia|done].
  - assert (Hdig : dig p2 = 54) by (apply dig_unique; rewrite Hp; simpl; lia).
    rewrite Hdig, Hf. replace (e1 + 1 - e1) with 1 by lia.
    rewrite (shr_exact p2 (Z.to_pos (2 ^ 52)) e1 1); [|lia|by rewrite Hp].
    cbn [shr_m].
    destruct (e1 + 1 <=? emax - prec) eqn:Hov.
    + apply Z.leb_le in Hov. unfold emax, prec in Hov. repeat split.
      * apply valid_finite_iff. split; [|lia].
        change (dig (Z.to_pos (2 ^ 52))) with 53. rewrite fexp_eq. lia.
      * intros _. cbn [Zval]. f_equal. rewrite Hp.
        change (Zpos (Z.to_pos (2 ^ 52))) with (2 ^ 52).
        replace (e1 + 1 + 1074) with (1 + (e1 + 1074)) by lia.
        rewrite (Z.pow_add_r 2 1) by lia. change (2 ^ 53) with (2 ^ 52 * 2 ^ 1). ring.
    + apply Z.leb_gt in Hov. unfold emax, prec in Hov. repeat split; [lia|done].
Qed.

Lemma mul_valid x y : valid x -> valid y -> valid (mul x y).
Proof.
  intros Hx Hy.
  destruct x as [sx|sx| |sx mx ex], y as [sy|sy| |sy my ey]; try done.
  destruct (valid_finite_shape _ _ _ Hx) as (Hex & Hdx & Hsx).
  destruct (valid_finite_shape _ _ _ Hy) as (Hey & Hdy & Hsy).
  unfold mul, SFmul.
  destruct (bra_general (xorb sx sy) (mx * my) (ex + ey) loc_Exact) as (m2 & _ & Hv & _).
  - pose proof (dig_mul_ge mx my). rewrite fexp_eq. lia.
  - exact Hv.
Qed.

Lemma has_value_Zval x : valid x -> finite x = true -> has_value x (Zval x).
Proof. by intros. Qed.

End FloatGeneral.

Module SongCountFacts.
Import PyFloat FloatFacts FloatRound FloatExact FloatOps FloatOps2 FloatOps3 FloatOps4.
Import FloatDivMod FloatGeneral Tools.

Local Open Scope Z_scope.

Lemma lit_3_5_eq : lit_3_5 = S754_finite false 7881299347898368 (-51).
Proof. reflexivity. Qed.

Lemma lit_3_5_value : has_value lit_3_5 (7 * 2 ^ 1073).
Proof. repeat split. Qed.

(** Dividing a double of integer value [p], [1 <= p < 2^50], by [3.5] and
    truncating gives the integer quotient of [2 p] by [7]. *)
Lemma div_3_5_trunc s mx ex p :
  valid (S754_finite s mx ex) ->
  Zpos mx * 2 ^ (ex + 1074) = p * 2 ^ 1074 -> 1 <= p < 2 ^ 50 ->
  to_int (cdiv (S754_finite s mx ex) lit_3_5) = Ok (cond_Zopp s (2 * p / 7)).
Proof.
  intros Hv Hval Hp.
  destruct (valid_finite_shape _ _ _ Hv) as (Hex & Hdx & Hsx).
  pose proof (dig_bounds mx) as [Hmlo Hmhi].
  assert (HP : 0 < 2 ^ 1074) by (by vm_compute).
  assert (Hpx : 0 < 2 ^ (ex + 1074)) by (apply Z.pow_pos_nonneg; slia).
  (* the double is a normal number with a negative exponent *)
  assert (Hex3 : -52 <= ex <= -3 /\ dig mx = 53).
  { assert (H53 : 2 ^ dig mx <= 2 ^ 53) by (apply Z.pow_le_mono_r; slia).
    assert (Hlow : -53 < ex).
    { assert (H : 2 ^ 1074 < 2 ^ (53 + (ex + 1074))).
      { rewrite Z.pow_add_r by slia.
        assert (Zpos mx * 2 ^ (ex + 1074) < 2 ^ 53 * 2 ^ (ex + 1074))
          by (apply Z.mul_lt_mono_pos_r; slia).
        assert (1 * 2 ^ 1074 <= p * 2 ^ 1074) by (apply Z.mul_le_mono_nonneg_r; slia).
        slia. }
      apply pow2_lt_inv in H; slia. }
    assert (Hd : dig mx = 53) by slia. rewrite Hd in Hmlo. change (53 - 1) with 52 in Hmlo.
    split; [|done]. split; [slia|].
    assert (H : 2 ^ (52 + (ex + 1074)) < 2 ^ 1124).
    { rewrite Z.pow_add_r by slia.
      assert (2 ^ 52 * 2 ^ (ex + 1074) <= Zpos mx * 2 ^ (ex + 1074))
        by (apply Z.mul_le_mono_nonneg_r; slia).
      assert (p * 2 ^ 1074 < 2 ^ 50 * 2 ^ 1074) by (apply Z.mul_lt_mono_pos_r; slia).
      change (2 ^ 1124) with (2 ^ 50 * 2 ^ 1074). slia. }
    apply pow2_lt_inv in H; slia. }
  destruct Hex3 as (Hexr & Hd). rewrite Hd in Hmlo, Hmhi. change (53 - 1) with 52 in Hmlo.
  (* the mantissa is [p] shifted left *)
  assert (Hmx : Zpos mx = p * 2 ^ (- ex)).
  { replace 1074 with ((- ex) + (ex + 1074)) in Hval at 2 by slia.
    rewrite (Z.pow_add_r 2 (- ex)), Z.mul_assoc in Hval by slia.
    apply Z.mul_cancel_r in Hval; [done|slia]. }
  rewrite lit_3_5_eq. unfold cdiv, SFdiv, SFdiv_core_binary. cbn [Zdigits2].
  rewrite Hd. change (dig 7881299347898368) with 53.
  replace (53 + ex - (53 + -51)) with (ex + 51) by slia.
  replace (ex - -51) with (ex + 51) by slia.
  rewrite fexp_eq. replace (Z.min (Z.max (ex + 51 - 53) (-1074)) (ex + 51)) with (ex - 2) by slia.
  replace (ex + 51 - (ex - 2)) with 53 by slia.
  rewrite Z.shiftl_mul_pow2 by slia.
  destruct (Z.div_eucl (Zpos mx * 2 ^ 53) 7881299347898368) as [q r] eqn:Hqr.
  assert (Hq : q = 8 * Zpos mx / 7).
  { assert (q = Zpos mx * 2 ^ 53 / 7881299347898368) as -> by (unfold Z.div; by rewrite Hqr).
    change 7881299347898368 with (7 * 2 ^ 50). change (2 ^ 53) with (8 * 2 ^ 50).
    rewrite Z.mul_assoc, Z.div_mul_cancel_r by slia. f_equal. slia. }
  clear Hqr.
  pose proof (Z.div_mod (8 * Zpos mx) 7 ltac:(slia)) as Hdm.
  pose proof (Z.mod_pos_bound (8 * Zpos mx) 7 ltac:(slia)) as Hmb.
  rewrite <- Hq in Hdm.
  assert (Hqb : 2 ^ 52 <= q < 2 ^ 54) by slia.
  destruct q as [|qp|qp]; try slia.
  set (e1 := fexp prec emax (dig qp + (ex - 2))).
  assert (Hdq : dig qp = 53 \/ dig qp = 54).
  { destruct (Z_lt_le_dec (Zpos qp) (2 ^ 53)).
    - left. apply dig_unique. change (53 - 1) with 52. slia.
    - right. apply dig_unique. change (54 - 1) with 53. slia. }
  assert (He1 : e1 = dig qp + ex - 55) by (subst e1; rewrite fexp_eq; slia).
  destruct (bra_general (xorb s false) qp (ex - 2) (new_location 7881299347898368 r))
    as (m2 & Hm2 & Hvalid & Hfin & Hzval); [fold e1; slia|].
  fold e1 in Hm2, Hfin, Hzval.
  set (res := binary_round_aux prec emax (xorb s false) (Zpos qp) (ex - 2)
                (new_location 7881299347898368 r)) in *.
  specialize (Hfin ltac:(slia)). specialize (Hzval Hfin).
  rewrite (to_int_exact res _ (conj Hvalid (conj Hfin Hzval))).
  f_equal. rewrite xorb_false_r.
  set (k := 2 * p / 7).
  pose proof (Z.div_mod (2 * p) 7 ltac:(slia)) as Hk.
  pose proof (Z.mod_pos_bound (2 * p) 7 ltac:(slia)) as Hkb. fold k in Hk.
  assert (HW : 0 < 2 ^ (- e1)) by (apply Z.pow_pos_nonneg; slia).
  assert (HW16 : 2 ^ 4 <= 2 ^ (- e1)) by (apply Z.pow_le_mono_r; slia).
  assert (HU : 0 < 2 ^ (e1 + 1074)) by (apply Z.pow_pos_nonneg; slia).
  assert (Hscale : 2 ^ 1074 = 2 ^ (e1 + 1074) * 2 ^ (- e1)).
  { rewrite <- Z.pow_add_r by slia. f_equal. slia. }
  assert (Hshift : 4 * 2 ^ (- ex) = 2 ^ (- e1) * 2 ^ (e1 - (ex - 2))).
  { rewrite <- Z.pow_add_r by slia. change 4 with (2 ^ 2).
    rewrite <- Z.pow_add_r by slia. f_equal. slia. }
  assert (Hn1 : 0 < 2 ^ (e1 - (ex - 2))) by (apply Z.pow_pos_nonneg; slia).
  set (W := 2 ^ (- e1)) in *. set (N := 2 ^ (e1 - (ex - 2))) in *.
  set (m1 := Zpos qp / N) in *.
  assert (Hm1 : N * m1 <= Zpos qp < N * (m1 + 1)).
  { pose proof (Z.div_mod (Zpos qp) N ltac:(slia)).
    pose proof (Z.mod_pos_bound (Zpos qp) N ltac:(slia)). fold m1 in H. slia. }
  assert (H8 : 8 * Zpos mx = 2 * p * W * N).
  { rewrite Hmx. replace (8 * (p * 2 ^ (- ex))) with (2 * p * (4 * 2 ^ (- ex))) by ring.
    rewrite Hshift. ring. }
  assert (Hlow : k * W <= m1).
  { assert (7 * (k * W) * N <= 7 * Zpos qp) by snia.
    assert (k * W * N < N * (m1 + 1)) by slia. snia. }
  assert (Hupp : m1 + 1 < (k + 1) * W).
  { assert (7 * (N * m1) <= (7 * k + 6) * W * N) by snia.
    assert (7 * m1 <= (7 * k + 6) * W) by snia.
    change (2 ^ 4) with 16 in HW16. snia. }
  assert (Hdiv : m2 * 2 ^ (e1 + 1074) / 2 ^ 1074 = k).
  { rewrite Hscale, (Z.mul_comm (2 ^ (e1 + 1074)) W).
    rewrite Z.div_mul_cancel_r by slia.
    symmetry. apply (Z.div_unique_pos m2 W k (m2 - W * k)); snia. }
  assert (Hm1nn : 0 <= m1) by (unfold m1; apply Z.div_pos; slia).
  assert (Hm2pos : 0 <= m2 * 2 ^ (e1 + 1074)) by (apply Z.mul_nonneg_nonneg; slia).
  destruct s; cbn [cond_Zopp].
  - rewrite Z.quot_opp_l by slia. f_equal.
    rewrite Z.quot_div_nonneg by slia. exact Hdiv.
  - rewrite Z.quot_div_nonneg by slia. exact Hdiv.
Qed.

(** [suggest_song_count] in exact arithmetic, below [2^50]. *)
Lemma song_count_exact n :
  Z.abs n < 2 ^ 50 ->
  suggest_song_count n =
    Ok ("For " +:+ PyStr.str_of_int n +:+ " minutes, suggest approximately "
        +:+ PyStr.str_of_int (Z.quot (2 * n) 7) +:+ " songs").
Proof.
  intros Hn.
  destruct (Z.eq_dec n 0) as [->|Hn0]; [reflexivity|].
  destruct (of_int_exact n ltac:(slia)) as (f & Hf & Hfv).
  unfold suggest_song_count. rewrite Hf. cbn [mbind result_bind].
  unfold truediv. change (is_zero lit_3_5) with false. cbv iota.
  cbn [mbind result_bind].
  destruct Hfv as (Hv & Hfin & Hval).
  assert (HP : 0 < 2 ^ 1074) by (by vm_compute).
  destruct f as [s|s| |s mx ex]; try done.
  { cbn [Zval] in Hval. snia. }
  destruct (valid_finite_bounds _ _ _ Hv) as [Hex _].
  assert (Hpx : 0 < 2 ^ (ex + 1074)) by (apply Z.pow_pos_nonneg; slia).
  assert (Hs : Zpos mx * 2 ^ (ex + 1074) = Z.abs n * 2 ^ 1074
               /\ n = cond_Zopp s (Z.abs n)).
  { cbn [Zval] in Hval. destruct s; cbn [cond_Zopp] in *; snia. }
  destruct Hs as [Hmag Hsign].
  rewrite (div_3_5_trunc s mx ex (Z.abs n) Hv Hmag ltac:(slia)).
  assert (Heq : cond_Zopp s (2 * Z.abs n / 7) = Z.quot (2 * n) 7).
  { rewrite Hsign at 2. destruct s; cbn [cond_Zopp].
    - rewrite Z.mul_opp_r, Z.quot_opp_l by slia.
      f_equal. symmetry. apply Z.quot_div_nonneg; slia.
    - symmetry. apply Z.quot_div_nonneg; slia. }
  rewrite Heq. reflexivity.
Qed.

End SongCountFacts.

Module ToolsExact.
Import PyFloat FloatFacts FloatRound FloatExact FloatOps FloatOps2 FloatOps3 FloatOps4.
Import FloatDivMod FloatGeneral DurationFacts SongCountFacts Tools.

Local Open Scope Z_scope.

Lemma scale_pos : Zpos (Z.to_pos (2 ^ 1074)) = 2 ^ 1074.
Proof. by rewrite Z2Pos.id by (by vm_compute). Qed.

(** The specification's text, computed on a fraction. *)
Lemma estimateDuration_spec_frac a b :
  estimateDuration_spec (a # b)
  = duration_text (a / (60 * Zpos b)) (a mod (60 * Zpos b) / Zpos b).
Proof.
  unfold estimateDuration_spec.
  assert (Hh : Qfloor ((a # b) / inject_Z 60) = a / (60 * Zpos b)).
  { unfold Qfloor, Qdiv, Qmult, Qinv, inject_Z. cbn [Qnum Qden].
    rewrite Z.mul_1_r, Pos2Z.inj_mul. f_equal. slia. }
  rewrite Hh. f_equal.
  unfold Qfloor, Qminus, Qplus, Qopp, Qmult, inject_Z. cbn [Qnum Qden].
  rewrite Pos.mul_1_r, !Z.mul_1_r.
  rewrite Z.mod_eq by slia.
  f_equal; [ring|]. by rewrite Pos.mul_1_r.
Qed.

Lemma normalize_valid M E sz : valid (binary_normalize prec emax M E sz).
Proof.
  assert (H : forall s m, valid (binary_round prec emax s m E)).
  { intros s m. unfold binary_round, shl_align.
    set (e' := fexp prec emax (dig m + E)).
    destruct (e' - E) as [|d|d] eqn:Hd.
    - destruct (bra_general s m E loc_Exact) as (? & _ & Hv & _); [fold e'; slia|done].
    - destruct (bra_general s m E loc_Exact) as (? & _ & Hv & _); [fold e'; slia|done].
    - assert (Hmz : Zpos (Pos.iter xO m d) = Zpos m * 2 ^ (E - e')).
      { rewrite iter_xO. f_equal. f_equal. slia. }
      assert (Hdig : dig (Pos.iter xO m d) + e' = dig m + E).
      { rewrite (dig_mul_pow2 m _ (E - e')); [slia|slia|done]. }
      destruct (bra_general s (Pos.iter xO m d) e' loc_Exact) as (? & _ & Hv & _);
        [|done]. rewrite Hdig. fold e'. slia. }
  destruct M; cbn [binary_normalize]; [done|apply H|apply H].
Qed.

Lemma of_int_valid n f : of_int n = Ok f -> valid f.
Proof.
  unfold of_int, of_dyadic. pose proof (normalize_valid n 0 false) as Hv.
  destruct (binary_normalize prec emax n 0 false); intros [= <-]; done.
Qed.

Lemma of_int_raises n e :
  of_int n = Raise e -> e = Exc OverflowError "int too large to convert to float".
Proof.
  unfold of_int. destruct (of_dyadic n 0); intros [= <-]; done.
Qed.

(** A non-finite total ends in the conversion error. *)
Lemma duration_not_finite n avg f :
  of_int n = Ok f -> finite (mul f avg) = false ->
  calculate_playlist_duration n avg
  = Ok "Error calculating duration: cannot convert float NaN to integer".
Proof.
  intros Hf Hfin. unfold calculate_playlist_duration. rewrite Hf.
  cbn [mbind result_bind].
  destruct (mul f avg) as [s|s| |s m e]; try done; by destruct s.
Qed.

(** A multiple of [2^-47] has a representable remainder modulo 60. *)
Lemma representable_mod_60 j :
  representable ((j * 2 ^ 1027) mod S60).
Proof.
  change S60 with ((60 * 2 ^ 47) * 2 ^ 1027).
  rewrite Z.mul_mod_distr_r by (by vm_compute).
  pose proof (Z.mod_pos_bound j (60 * 2 ^ 47) ltac:(by vm_compute)) as Hb.
  change (2 ^ 1027) with (2 ^ (-47 + 1074)).
  apply representable_intro; [slia|].
  rewrite Z.abs_eq by slia.
  assert (60 * 2 ^ 47 < 2 ^ 53) by (by vm_compute). slia.
Qed.

Lemma duration_rational n avg f :
  valid avg -> of_int n = Ok f ->
  let total := mul f avg in
  finite total = true ->
  (Qabs (to_Q total) < inject_Z (2 ^ 53))%Q ->
  ((0 <= to_Q total)%Q \/ exists j, (to_Q total == j # Z.to_pos (2 ^ 47))%Q) ->
  calculate_playlist_duration n avg = Ok (estimateDuration_spec (to_Q total)).
Proof.
  intros Havg Hf total Hfin Habs Hcond.
  assert (Hv : has_value total (Zval total)).
  { apply has_value_Zval; [|done]. apply mul_valid; [by apply (of_int_valid n)|done]. }
  assert (HP : 0 < 2 ^ 1074) by (by vm_compute).
  unfold to_Q in *. rewrite estimateDuration_spec_frac, scale_pos.
  apply (duration_exact n avg f); try done.
  - unfold Qlt, Qabs, inject_Z in Habs. cbn [Qnum Qden] in Habs.
    rewrite scale_pos in Habs. slia.
  - destruct Hcond as [Hpos|[j Hj]].
    + left. unfold Qle in Hpos. cbn [Qnum Qden] in Hpos. slia.
    + right. unfold Qeq in Hj. cbn [Qnum Qden] in Hj. rewrite scale_pos in Hj.
      assert (Zval total = j * 2 ^ 1027) as ->; [|apply representable_mod_60].
      rewrite Z2Pos.id in Hj by (by vm_compute).
      change (2 ^ 1074) with (2 ^ 1027 * 2 ^ 47) in Hj.
      rewrite Z.mul_assoc in Hj. apply Z.mul_cancel_r in Hj; [done|by vm_compute].
Qed.

(** With the default average the arithmetic is exact below [2^50]. *)
Lemma duration_default n :
  Z.abs n <= 2 ^ 50 ->
  calculate_playlist_duration n default_avg_song_duration
  = Ok (estimateDuration_spec (inject_Z n * (7 # 2))).
Proof.
  intros Hn. unfold default_avg_song_duration.
  destruct (of_int_exact n ltac:(change (2 ^ 53) with (8 * 2 ^ 50); slia))
    as (f & Hf & Hfv).
  assert (Ht : has_value (mul f lit_3_5) (7 * n * 2 ^ 1073)).
  { destruct Hfv as (Hv & Hfin & Hval).
    apply mul_exact; try done.
    - rewrite Hval, (proj2 (proj2 lit_3_5_value)). ring.
    - change (2 ^ 1073) with (2 ^ (-1 + 1074)). apply representable_intro; [slia|].
      change (2 ^ 53) with (8 * 2 ^ 50). slia. }
  rewrite (duration_exact n lit_3_5 f _ Hf Ht).
  - unfold inject_Z, Qmult. cbn [Qnum Qden]. rewrite estimateDuration_spec_frac.
    change (Zpos (1 * 2)) with 2. change (60 * 2) with 120.
    change S60 with (120 * 2 ^ 1073).
    rewrite Z.div_mul_cancel_r, Z.mul_mod_distr_r by (by vm_compute).
    change (2 ^ 1074) with (2 * 2 ^ 1073).
    rewrite Z.div_mul_cancel_r by (by vm_compute).
    by rewrite (Z.mul_comm n 7).
  - change (2 ^ 1074) with (2 * 2 ^ 1073). change (2 ^ 53) with (8 * 2 ^ 50).
    rewrite Z.abs_mul, (Z.abs_eq (2 ^ 1073)) by (by vm_compute).
    assert (0 < 2 ^ 1073) by (by vm_compute). snia.
  - right. replace (7 * n * 2 ^ 1073) with ((7 * n * 2 ^ 46) * 2 ^ 1027).
    + apply representable_mod_60.
    + change (2 ^ 1073) with (2 ^ 46 * 2 ^ 1027). ring.
Qed.

End ToolsExact.

(** ** The claims about the arithmetic tools *)

Section ToolClaims.
Import PyFloat Tools ToolsExact SongCountFacts.

Local Open Scope Z_scope.

Lemma Qtrunc_div_3_5 d : Qtrunc (inject_Z d / (7 # 2)) = Z.quot (2 * d) 7.
Proof.
  unfold Qtrunc, Qle_bool, Qceiling, Qfloor, Qdiv, Qmult, Qinv, Qopp, inject_Z.
  cbn [Qnum Qden]. change (Zpos (1 * 7)) with 7. rewrite Z.mul_1_r.
  change (0 * 7) with 0.
  replace (d * 2) with (2 * d) by lia.
  destruct (0 <=? 2 * d) eqn:Hsign.
  - apply Z.leb_le in Hsign. symmetry. apply Z.quot_div_nonneg; lia.
  - apply Z.leb_gt in Hsign.
    rewrite <- (Z.opp_involutive (2 * d)) at 2.
    rewrite Z.quot_opp_l by lia. f_equal.
    symmetry. apply Z.quot_div_nonneg; lia.
Qed.

(** C6 (as amended).  [calculate_playlist_duration] multiplies the song
    count, converted to a double, by the average: when the count is too
    large for a double, or the product is not a number, it returns the
    error text; when the product [total] is a number below [2^53] that is
    non-negative or a multiple of [2^-47], the result is the text for
    hours = floor(total / 60) and minutes = floor(total mod 60), with the
    hours shown only when positive; with the default average this holds
    for every count up to [2^50] in magnitude, in particular for 20 and
    10 songs. *)
Theorem playlist_duration_computed (num_songs : Z) (avg : float) :
  valid avg ->
  (forall e, of_int num_songs = Raise e ->
     calculate_playlist_duration num_songs avg
     = Ok ("Error calculating duration: " +:+ exc_str e)) /\
  (forall f, of_int num_songs = Ok f -> finite (mul f avg) = false ->
     calculate_playlist_duration num_songs avg
     = Ok "Error calculating duration: cannot convert float NaN to integer") /\
  (forall f, of_int num_songs = Ok f ->
     let total := mul f avg in
     finite total = true ->
     (Qabs (to_Q total) < inject_Z (2 ^ 53))%Q ->
     ((0 <= to_Q total)%Q \/ exists j, (to_Q total == j # Z.to_pos (2 ^ 47))%Q) ->
     calculate_playlist_duration num_songs avg
     = Ok (estimateDuration_spec (to_Q total))) /\
  (Z.abs num_songs <= 2 ^ 50 ->
     calculate_playlist_duration num_songs default_avg_song_duration
     = Ok (estimateDuration_spec (inject_Z num_songs * (7 # 2)))) /\
  calculate_playlist_duration 20 default_avg_song_duration
  = Ok "1 hour(s) and 10 minute(s)" /\
  calculate_playlist_duration 10 default_avg_song_duration = Ok "35 minute(s)".
Proof.
  intros Havg. repeat split.
  - intros e He. apply of_int_raises in He as Hdesc.
    unfold calculate_playlist_duration. rewrite He, Hdesc. reflexivity.
  - apply duration_not_finite.
  - intros f Hf total. by apply duration_rational.
  - apply duration_default.
Qed.

(** C7 (as amended).  [suggest_song_count] divides the duration,
    converted to a double, by 3.5 and truncates the quotient towards
    zero: below [2^50] in magnitude the suggested count is exactly the
    truncation of duration / 3.5, which is floor(duration / 3.5) for a
    non-negative duration; a duration too large for a double gives the
    error text; in particular 60 minutes give 17 songs. *)
Theorem song_count_computed (duration_minutes : Z) :
  (Z.abs duration_minutes < 2 ^ 50 ->
     suggest_song_count duration_minutes
     = Ok (song_count_text duration_minutes
             (Qtrunc (inject_Z duration_minutes / (7 # 2))))) /\
  (0 <= duration_minutes < 2 ^ 50 ->
     suggest_song_count duration_minutes
     = Ok (suggestSongCount_spec duration_minutes)) /\
  (forall e, of_int duration_minutes = Raise e ->
     suggest_song_count duration_minutes
     = Ok ("Error calculating song count: " +:+ exc_str e)) /\
  suggest_song_count 60 = Ok "For 60 minutes, suggest approximately 17 songs".
Proof.
  repeat split.
  - intros Hd. rewrite Qtrunc_div_3_5. by apply song_count_exact.
  - intros Hd. rewrite song_count_exact by lia.
    unfold suggestSongCount_spec. rewrite <- Qtrunc_div_3_5.
    unfold Qtrunc.
    replace (Qle_bool 0 (inject_Z duration_minutes / (7 # 2))) with true; [done|].
    symmetry. unfold Qle_bool, Qdiv, Qmult, Qinv, inject_Z. cbn [Qnum Qden].
    apply Z.leb_le. lia.
  - intros e He. apply of_int_raises in He as Hdesc.
    unfold suggest_song_count. rewrite He, Hdesc. reflexivity.
Qed.

End ToolClaims.

Section ToolWitnesses.
Import PyFloat Tools.

Local Open Scope Z_scope.

(** C6 at twenty songs of the default length. *)
Lemma playlist_duration_computed_witness :
  calculate_playlist_duration 20 default_avg_song_duration
  = Ok (estimateDuration_spec (inject_Z 20 * (7 # 2))).
Proof.
  apply (proj1 (proj2 (proj2 (proj2
           (playlist_duration_computed 20 default_avg_song_duration
              ltac:(vm_compute; reflexivity)))))).
  vm_compute. discriminate.
Defined.

(** C6 as stated fails: a song count too large for a double gives the
    error text, not the text for floor(total / 60) and floor(total mod 60). *)
Lemma playlist_duration_overflow :
  calculate_playlist_duration (10 ^ 400) default_avg_song_duration
  = Ok "Error calculating duration: int too large to convert to float" /\
  calculate_playlist_duration (10 ^ 400) default_avg_song_duration
  <> Ok (estimateDuration_spec (inject_Z (10 ^ 400) * (7 # 2))).
Proof.
  assert (H : calculate_playlist_duration (10 ^ 400) default_avg_song_duration
              = Ok "Error calculating duration: int too large to convert to float")
    by (vm_compute; reflexivity).
  split; [exact H|].
  rewrite H. intros Heq. vm_compute in Heq. discriminate Heq.
Qed.

(** C7 at ninety minutes. *)
Lemma song_count_computed_witness :
  suggest_song_count 90 = Ok (suggestSongCount_spec 90).
Proof.
  apply (proj1 (proj2 (song_count_computed 90))). lia.
Defined.

(** C7 as stated fails: for a negative duration the quotient is truncated
    towards zero, not rounded down. *)
Lemma song_count_truncates :
  suggest_song_count (-10) = Ok "For -10 minutes, suggest approximately -2 songs" /\
  suggestSongCount_spec (-10) = "For -10 minutes, suggest approximately -3 songs".
Proof. split; by vm_compute. Qed.

End ToolWitnesses.

(** ** Further properties of the chat session *)

Module ChatMore.
Import PyM Chat ChatFacts ChatProps.

Lemma format_history_length h : (length (format_history h) <= length h)%nat.
Proof.
  induction h as [|[role content] h IH]; simpl; [done|].
  repeat case_match; simpl; lia.
Qed.

Lemma format_history_written h :
  written_by_chat h -> format_history h = as_message <$> h.
Proof.
  induction 1 as [|[role content] h Ht _ IH]; [done|].
  cbn [format_history fmap list_fmap]. unfold as_message at 1. cbn [fst snd] in *.
  destruct Ht as [->|[-> Hne]].
  - rewrite String.eqb_refl. by rewrite IH.
  - change (String.eqb "assistant" "human") with false.
    rewrite String.eqb_refl. cbv iota.
    replace (PyStr.truthy content) with true by (by destruct content).
    cbn [andb]. by rewrite IH.
Qed.

Lemma written_appended u out : written_by_chat (appended u out).
Proof.
  unfold appended, written_by_chat.
  destruct (PyStr.truthy out) eqn:Ht; cbn [andb]; [|constructor].
  destruct (negb _); [|constructor].
  apply Forall_cons; split; [by left|].
  apply Forall_cons; split; [|constructor].
  right. split; [done|]. by apply truthy_nonempty.
Qed.

Lemma written_capped h : written_by_chat h -> written_by_chat (capped h).
Proof. intros Hw. rewrite capped_slice. by apply Forall_drop. Qed.

(** The transcript after [chat]: untouched, or the old one with the turns
    of some output added, under the cap. *)
Lemma chat_history_step create u o st :
  chat_history (snd (chat create u o st)) = chat_history st \/
  exists out, chat_history (snd (chat create u o st))
              = capped (chat_history st ++ appended u out).
Proof.
  rewrite chat_eq. cbv zeta.
  destruct (resolve create o) as [a|e].
  - destruct (invoke a _) as [r|e].
    + right. exists (normalize r). simpl. by destruct o.
    + destruct (is_Exception e).
      * right. exists (apology e). simpl. by destruct o.
      * left. by destruct o.
  - left. destruct (is_Exception e); by destruct o.
Qed.

Lemma written_after_ops create ops : forall st,
  written_by_chat (chat_history st) ->
  written_by_chat (chat_history (run_ops create ops st)).
Proof.
  induction ops as [|[u o|] ops IH]; intros st Hw; simpl; [done| |].
  - apply IH. destruct (chat_history_step create u o st) as [->|[out ->]]; [done|].
    apply written_capped, Forall_app. split; [done|apply written_appended].
  - apply IH. constructor.
Qed.

Lemma bounded_after_ops create ops : forall st,
  (length (chat_history st) <= 20)%nat ->
  (length (chat_history (run_ops create ops st)) <= 20)%nat.
Proof.
  induction ops as [|[u o|] ops IH]; intros st Hlen; simpl; [done| |].
  - apply IH. destruct (chat_history_step create u o st) as [->|[out ->]]; [done|].
    rewrite capped_slice. apply slice_last_length.
  - apply IH. simpl. lia.
Qed.

End ChatMore.

Section ChatExtras.
Import PyM Chat ChatFacts ChatProps ChatMore.

Variable create : result agent_executor.

(** X1.  When [chat] is given no executor and [create_agent()] raises an
    instance of [Exception], the outer handler takes over: the fixed
    "I'm sorry" text is returned, the error is printed on one line, the
    agent receives no call and the transcript is left as it was. *)
Theorem construction_failure_absorbed u st e :
  create = Raise e -> is_Exception e = true ->
  let st' := snd (chat create u None st) in
  fst (chat create u None st) =
    Ok "I'm sorry, I encountered an error processing your request. Please try again." /\
  chat_history st' = chat_history st /\
  invocations st' = invocations st /\
  stdout st' = stdout st ++ ["Error in chat function: " +:+ exc_str e].
Proof.
  intros Hc He st'. subst st'. rewrite chat_eq. cbv zeta.
  cbn [resolve resolved]. rewrite Hc, He. by cbn.
Qed.

(** X2.  The text [chat] returns is never empty: an empty or missing
    agent output is replaced by a fallback, the apology and the "I'm
    sorry" text are not empty, so the last fallback of the function is
    never needed. *)
Theorem chat_reply_nonempty u o st text st' :
  chat create u o st = (Ok text, st') -> text <> "".
Proof.
  rewrite chat_eq. cbv zeta.
  destruct (resolve create o) as [a|e].
  - destruct (invoke a _) as [r|e].
    + intros [= <- _]. apply truthy_nonempty, normalize_truthy.
    + destruct (is_Exception e); [|done].
      intros [= <- _]. apply truthy_nonempty, apology_truthy.
  - destruct (is_Exception e); [|done]. by intros [= <- _].
Qed.

(** X3.  One call of [chat] constructs an agent exactly when it is given
    none, and never more than one; with an executor at hand it sends the
    agent exactly one request, made of the user's text and the formatted
    transcript, and prints nothing; when the construction fails the agent
    receives no request. *)
Theorem chat_calls_agent_once u o st :
  let st' := snd (chat create u o st) in
  agents_created st' =
    (agents_created st + match o with None => 1 | Some _ => 0 end)%nat /\
  (forall a, resolve create o = Ok a ->
     invocations st' = invocations st ++ [InputData u (format_history (chat_history st))] /\
     stdout st' = stdout st) /\
  (forall e, resolve create o = Raise e -> invocations st' = invocations st).
Proof.
  intros st'. subst st'. rewrite chat_eq. cbv zeta. repeat split.
  - destruct (resolve create o) as [a|e].
    + destruct (invoke a _) as [r|e]; [|destruct (is_Exception e)];
        destruct o; simpl; lia.
    + destruct (is_Exception e); destruct o; simpl; lia.
  - rewrite H. destruct (invoke a _) as [r|e]; [|destruct (is_Exception e)];
      by destruct o.
  - rewrite H. destruct (invoke a _) as [r|e]; [|destruct (is_Exception e)];
      by destruct o.
  - intros e ->. destruct (is_Exception e); by destruct o.
Qed.

(** X4.  Nothing of the transcript is lost on the way to the agent: from
    an empty transcript, after any sequence of exchanges and [clear]
    commands, the history sent with the next request holds one message
    per transcript entry, in order, a [HumanMessage] for each human turn
    and an [AIMessage] for each assistant turn. *)
Theorem history_forwarded_whole ops u st :
  chat_history st = [] ->
  let h := chat_history (run_ops create ops st) in
  input_chat_history (request u h) = as_message <$> h /\
  length (input_chat_history (request u h)) = length h.
Proof.
  intros Hempty h.
  assert (Hw : written_by_chat h).
  { apply written_after_ops. rewrite Hempty. constructor. }
  cbn [request input_chat_history].
  rewrite (format_history_written h Hw). split; [done|]. by rewrite length_fmap.
Qed.

(** X5.  The cap is an invariant of the whole session: from a transcript
    of at most 20 entries, any sequence of exchanges and [clear]
    commands, whatever the agent returns or raises, leaves at most 20
    entries, so no request carries more than 20 history messages. *)
Theorem transcript_bounded_after_ops ops u st :
  (length (chat_history st) <= 20)%nat ->
  let h := chat_history (run_ops create ops st) in
  (length h <= 20)%nat /\ (length (input_chat_history (request u h)) <= 20)%nat.
Proof.
  intros Hlen h.
  assert (Hh : (length h <= 20)%nat) by by apply bounded_after_ops.
  split; [done|]. cbn [request input_chat_history].
  pose proof (format_history_length h). lia.
Qed.

(** X28.  An error reply is remembered like any other: when the agent
    raises an instance of [Exception], the apology is returned and
    recorded as the assistant's turn, so the next request carries the
    failed question and the apology at the end of its history. *)
Theorem error_reply_is_remembered u1 u2 a st e :
  written_by_chat (chat_history st) ->
  (length (chat_history st) <= 18)%nat ->
  invoke a (request u1 (chat_history st)) = Raise e ->
  is_Exception e = true ->
  let st1 := snd (chat create u1 (Some a) st) in
  fst (chat create u1 (Some a) st) = Ok (apology e) /\
  chat_history st1 = chat_history st ++ [("human", u1); ("assistant", apology e)] /\
  input_chat_history (request u2 (chat_history st1))
  = (as_message <$> chat_history st) ++ [HumanMessage u1; AIMessage (apology e)].
Proof.
  intros Hw Hlen Hinv He st1. subst st1.
  rewrite chat_eq. cbn [resolve resolved]. cbv zeta. rewrite Hinv, He.
  cbn [fst snd finish chat_history].
  assert (Happ : appended u1 (apology e) = [("human", u1); ("assistant", apology e)]).
  { unfold appended. by rewrite apology_truthy. }
  rewrite Happ.
  assert (Hcap : capped (chat_history st ++ [("human", u1); ("assistant", apology e)])
                 = chat_history st ++ [("human", u1); ("assistant", apology e)]).
  { rewrite capped_slice. apply slice_last_short. rewrite length_app. simpl. lia. }
  rewrite Hcap. split; [done|]. split; [done|].
  cbn [request input_chat_history].
  rewrite format_history_written.
  - by rewrite fmap_app.
  - apply Forall_app. split; [done|]. rewrite <- Happ. apply written_appended.
Qed.

End ChatExtras.

Section ChatExtrasWitnesses.
Import PyM Chat Samples.

(** X1 at a concrete failure of the construction. *)
Lemma construction_failure_absorbed_witness :
  let create := Raise (Exc (OtherException "RuntimeError") "no API key") in
  let st := Interp [("human", "hi"); ("assistant", "hello")] [] [] 0 in
  fst (chat create "a calm playlist" None st) =
    Ok "I'm sorry, I encountered an error processing your request. Please try again." /\
  chat_history (snd (chat create "a calm playlist" None st)) = chat_history st /\
  invocations (snd (chat create "a calm playlist" None st)) = invocations st /\
  stdout (snd (chat create "a calm playlist" None st)) =
    stdout st ++ ["Error in chat function: no API key"].
Proof.
  intros create st.
  apply (construction_failure_absorbed create "a calm playlist" st
           (Exc (OtherException "RuntimeError") "no API key")); reflexivity.
Defined.

(** X2 at an agent that answers with an empty output. *)
Lemma chat_reply_nonempty_witness :
  fst (chat (Ok (echo_agent "")) "hello" (Some (echo_agent "")) fresh)
    = Ok "I didn't get a proper response. Could you rephrase your question?" /\
  "I didn't get a proper response. Could you rephrase your question?" <> "".
Proof.
  split; [reflexivity|].
  apply (chat_reply_nonempty (Ok (echo_agent "")) "hello" (Some (echo_agent "")) fresh
           _ (snd (chat (Ok (echo_agent "")) "hello" (Some (echo_agent "")) fresh))).
  reflexivity.
Defined.

(** X4 at a session with a failing exchange and a [clear]. *)
Lemma history_forwarded_whole_witness :
  let ops := [OpChat "one" (Some (echo_agent "ok")); OpClear;
              OpChat "two" (Some (failing_agent (Exc ValueError "bad")));
              OpChat "three" None] in
  let h := chat_history (run_ops (Ok (echo_agent "ok")) ops fresh) in
  input_chat_history (request "four" h) = as_message <$> h /\
  length (input_chat_history (request "four" h)) = length h.
Proof.
  apply (history_forwarded_whole (Ok (echo_agent "ok")) _ "four" fresh). reflexivity.
Defined.

(** X5 at a session of twelve exchanges. *)
Lemma transcript_bounded_after_ops_witness :
  let ops := replicate 12 (OpChat "more" (Some (echo_agent "ok"))) in
  let h := chat_history (run_ops (Ok (echo_agent "ok")) ops fresh) in
  (length h <= 20)%nat /\ (length (input_chat_history (request "next" h)) <= 20)%nat.
Proof.
  apply (transcript_bounded_after_ops (Ok (echo_agent "ok")) _ "next" fresh).
  simpl. lia.
Defined.

(** X28 at an agent that fails with a [ValueError]. *)
Lemma error_reply_is_remembered_witness :
  let a := failing_agent (Exc ValueError "bad request") in
  let st1 := snd (chat (Ok a) "one" (Some a) fresh) in
  fst (chat (Ok a) "one" (Some a) fresh) = Ok (apology (Exc ValueError "bad request")) /\
  chat_history st1
  = [] ++ [("human", "one"); ("assistant", apology (Exc ValueError "bad request"))] /\
  input_chat_history (request "two" (chat_history st1))
  = (as_message <$> []) ++
    [HumanMessage "one"; AIMessage (apology (Exc ValueError "bad request"))].
Proof.
  intros a.
  apply (error_reply_is_remembered (Ok a) "one" "two" a fresh (Exc ValueError "bad request")).
  - constructor.
  - simpl. lia.
  - reflexivity.
  - reflexivity.
Defined.

End ChatExtrasWitnesses.

(** ** Further properties of the command-line program *)

Module CliMore.
Import PyM Chat ChatFacts Cli CliFacts.

Lemma lstrip_blank s : PyStr.blank s = true -> PyStr.lstrip s = "".
Proof.
  induction s as [|c s IH]; [done|]. cbn [PyStr.blank PyStr.lstrip].
  destruct (PyStr.isspace c); [exact IH|done].
Qed.

Lemma rstrip_cons_nonspace c s :
  PyStr.isspace c = false -> PyStr.rstrip (String c s) <> "".
Proof. intros Hc. cbn [PyStr.rstrip]. rewrite Hc. by destruct (PyStr.rstrip s). Qed.

Lemma lstrip_head s :
  PyStr.lstrip s = "" \/
  exists c r, PyStr.lstrip s = String c r /\ PyStr.isspace c = false.
Proof.
  induction s as [|c s IH]; [by left|]. cbn [PyStr.lstrip].
  destruct (PyStr.isspace c) eqn:Hc; [exact IH|]. right. by exists c, s.
Qed.

Lemma lstrip_empty_blank s : PyStr.lstrip s = "" -> PyStr.blank s = true.
Proof.
  induction s as [|c s IH]; [done|]. cbn [PyStr.blank PyStr.lstrip].
  destruct (PyStr.isspace c); [exact IH|done].
Qed.

(** A line is blank exactly when nothing is left of it once trimmed. *)
Lemma strip_blank s : PyStr.blank s = true <-> PyStr.strip s = "".
Proof.
  unfold PyStr.strip. split.
  - intros Hb. by rewrite (lstrip_blank s Hb).
  - intros Hs. apply lstrip_empty_blank.
    destruct (lstrip_head s) as [H|(c & r & H & Hc)]; [done|].
    rewrite H in Hs. by apply rstrip_cons_nonspace in Hs.
Qed.

Lemma getenv_missing_iff environ name :
  getenv_missing environ name = true <->
  environ !! name = None \/ environ !! name = Some "".
Proof.
  unfold getenv_missing. destruct (environ !! name) as [v|]; [|by intuition].
  destruct v; cbn; intuition congruence.
Qed.

Section LoopBodyOrdinary.
Variable create : result agent_executor.
Variable a : agent_executor.
Variable line : string.

Lemma ordinary_token :
  ordinary line ->
  PyStr.truthy (PyStr.strip line) = true /\
  (PyStr.lower (PyStr.strip line) ∉ ["quit"; "exit"; "q"]) /\
  PyStr.lower (PyStr.strip line) <> "history" /\
  PyStr.lower (PyStr.strip line) <> "clear".
Proof.
  intros [Hne Hnot]. unfold control_tokens in Hnot.
  rewrite !not_elem_of_cons in Hnot. rewrite !not_elem_of_cons.
  split; [by destruct (PyStr.strip line)|]. tauto.
Qed.

(** What the loop does with a line it hands to [chat]. *)
Lemma loop_body_ordinary st :
  ordinary line ->
  loop_body create a line st =
  match chat create (PyStr.strip line) (Some a) st with
  | (Ok response, st') =>
      (Ok true,
       printed [ String "010" "🎵 Playlist Curator: " +:+ response +:+ String "010" "" ] st')
  | (Raise e, st') =>
      if is_KeyboardInterrupt e then
        (Ok true,
         printed [ String "010" (String "010" "Interrupted. Type 'quit' to exit.")
                   +:+ String "010" "" ] st')
      else if is_Exception e then
        (Ok true,
         printed [ String "010" "❌ Error: " +:+ exc_str e +:+ String "010" "" ] st')
      else (Raise e, st')
  end.
Proof.
  intros Hord. destruct (ordinary_token Hord) as (Ht & Hq & Hh & Hc).
  unfold loop_body. rewrite Ht. change (negb true) with false. cbv iota.
  rewrite bool_decide_eq_false_2 by done.
  rewrite (proj2 (String.eqb_neq _ _) Hh), (proj2 (String.eqb_neq _ _) Hc).
  cbv iota. rewrite bind_run. unfold try_clauses. rewrite bind_run.
  destruct (chat create (PyStr.strip line) (Some a) st) as [[response|e] st'].
  - rewrite print_eq. reflexivity.
  - cbn [select_clause].
    destruct (is_KeyboardInterrupt e); [by rewrite print_eq|].
    destruct (is_Exception e); [by rewrite print_eq|reflexivity].
Qed.

(** The calls the agent has received after an ordinary line. *)
Lemma loop_body_ordinary_calls st :
  ordinary line ->
  invocations (snd (loop_body create a line st))
  = invocations st ++ [InputData (PyStr.strip line) (format_history (chat_history st))] /\
  agents_created (snd (loop_body create a line st)) = agents_created st.
Proof.
  intros Hord. rewrite (loop_body_ordinary st Hord), chat_eq.
  cbn [resolve resolved]. cbv zeta.
  destruct (invoke a _) as [r|e]; [done|].
  destruct (is_Exception e) eqn:He; [done|].
  cbv beta iota. rewrite He. by destruct (is_KeyboardInterrupt e).
Qed.

End LoopBodyOrdinary.

(** Every line read is dealt with: the loop body returns, and when it
    ends the loop it has just said goodbye. *)
Lemma loop_body_returns create a line st :
  stays_in_session a ->
  exists b st', loop_body create a line st = (Ok b, st') /\
    (b = false -> last (stdout st') = Some (String "010" "Goodbye! Enjoy your music! 🎵")).
Proof.
  intros Hstay.
  destruct (decide (PyStr.strip line = "")) as [Hblank|Hne].
  { exists true, st. split; [|done]. unfold loop_body. by rewrite Hblank. }
  destruct (decide (PyStr.lower (PyStr.strip line) ∈ ["quit"; "exit"; "q"])) as [Hq|Hq].
  { eexists _, _. split; [by apply loop_body_quit|].
    intros _. cbn [printed stdout]. by rewrite last_snoc. }
  destruct (decide (PyStr.lower (PyStr.strip line) = "history")) as [Hh|Hh].
  { eexists _, _. split; [by apply loop_body_history|done]. }
  destruct (decide (PyStr.lower (PyStr.strip line) = "clear")) as [Hc|Hc].
  { eexists _, _. split; [by apply loop_body_clear|done]. }
  assert (Hord : ordinary line).
  { split; [done|]. unfold control_tokens.
    rewrite !not_elem_of_cons in Hq. rewrite !not_elem_of_cons. tauto. }
  rewrite (loop_body_ordinary create a line st Hord), chat_eq.
  cbn [resolve resolved]. cbv zeta.
  destruct (invoke a _) as [r|e] eqn:Hinv; [by eexists _, _|].
  destruct (is_Exception e) eqn:He; [by eexists _, _|].
  destruct (Hstay _ _ Hinv) as [H|H]; [congruence|].
  rewrite H. by eexists _, _.
Qed.

Lemma append_length s1 s2 :
  String.length (s1 +:+ s2) = (String.length s1 + String.length s2)%nat.
Proof. induction s1 as [|c s1 IH]; simpl; [done|]. by f_equal. Qed.

Lemma substring_length n : forall s,
  String.length (String.substring 0 n s) = Nat.min n (String.length s).
Proof.
  induction n as [|n IH]; intros [|c s]; cbn; try done. by rewrite IH.
Qed.

End CliMore.

Section CliExtras.
Import PyM Chat ChatFacts Cli CliFacts CliMore.

Variable create : result agent_executor.


(** X7.  A required key that is set to the empty string counts as
    missing: the program prints the banner and the remediation lines for
    the first such key and exits with status 1 before constructing or
    calling an agent. *)
Theorem empty_key_stops_startup environ stdin st :
  environ !! "GROQ_API_KEY" = Some "" \/ environ !! "TAVILY_API_KEY" = Some "" ->
  let r := fst (main create environ stdin st) in
  let st' := snd (main create environ stdin st) in
  exit_status r = 1%Z /\
  agents_created st' = agents_created st /\
  invocations st' = invocations st /\
  stdout st' =
    stdout st ++ banner ++
    (if getenv_missing environ "GROQ_API_KEY" then groq_remediation
     else tavily_remediation).
Proof.
  intros Hempty r st'. subst r st'. unfold main.
  rewrite bind_run, startup_eq.
  destruct (getenv_missing environ "GROQ_API_KEY") eqn:Hg.
  { by cbv beta iota. }
  assert (Ht : getenv_missing environ "TAVILY_API_KEY" = true).
  { apply getenv_missing_iff. destruct Hempty as [H|H]; [|by right].
    assert (getenv_missing environ "GROQ_API_KEY" = true)
      by (apply getenv_missing_iff; by right).
    congruence. }
  rewrite Ht. by cbv beta iota.
Qed.

(** X8.  With both keys present, a [create_agent()] that raises an
    instance of [Exception] ends the program: the failure is printed
    after the two progress lines, the exit status is 1, and no prompt is
    shown, no input read and no agent called. *)
Theorem failed_construction_stops_startup environ stdin st e :
  getenv_missing environ "GROQ_API_KEY" = false ->
  getenv_missing environ "TAVILY_API_KEY" = false ->
  create = Raise e -> is_Exception e = true ->
  let r := fst (main create environ stdin st) in
  let st' := snd (main create environ stdin st) in
  r = Raise (Exc (SystemExit 1) "1") /\
  exit_status r = 1%Z /\
  invocations st' = invocations st /\
  chat_history st' = chat_history st /\
  stdout st' =
    stdout st ++ banner ++
    [ "✅ API keys loaded successfully!";
      String "010" "🎵 Initializing playlist curator agent...";
      String "010" "❌ Failed to initialize agent: " +:+ exc_str e ].
Proof.
  intros Hg Ht Hc He r st'. subst r st'. unfold main.
  rewrite bind_run, startup_eq, Hg, Ht, Hc, He. cbv zeta beta iota.
  repeat split. cbn [fst snd stdout printed]. rewrite <- !app_assoc. reflexivity.
Qed.



(** X11.  Whatever is typed, and whatever the agent returns or raises
    short of asking the interpreter to exit, the loop ends normally once
    the input is exhausted, interrupted at the prompt, or a quit word is
    read, and the last line it prints is one of the two farewells. *)
Theorem session_ends_with_farewell a stdin st :
  stays_in_session a ->
  exists st', main_loop create a stdin st = (Ok tt, st') /\
    exists line, last (stdout st') = Some line /\ line ∈ farewells.
Proof.
  intros Hstay. revert st.
  assert (Hend : forall st,
    exists st', main_loop create a [] st = (Ok tt, st') /\
      exists line, last (stdout st') = Some line /\ line ∈ farewells).
  { intros st. eexists. cbn [main_loop].
    rewrite bind_run, print_eq. cbv beta iota. rewrite print_eq.
    split; [reflexivity|]. eexists. cbn [printed stdout].
    rewrite last_snoc. split; [reflexivity|].
    unfold farewells. apply list_elem_of_further, list_elem_of_here. }
  induction stdin as [|[s|] rest IH]; intros st; [apply Hend| |apply (Hend st)].
  cbn [main_loop].
  rewrite bind_run, print_eq. cbv beta iota. rewrite bind_run.
  destruct (loop_body_returns create a s (printed [ "You: " ] st) Hstay)
    as (b & st1 & -> & Hb).
  cbv beta iota. destruct b; [apply IH|].
  exists st1. split; [reflexivity|]. eexists. split; [by apply Hb|].
  unfold farewells. apply list_elem_of_here.
Qed.



End CliExtras.

Section CliExtrasWitnesses.
Import PyM Chat Cli Samples.


(** X7 at an environment whose second key is empty. *)
Lemma empty_key_stops_startup_witness :
  let environ : gmap string string :=
    {[ "GROQ_API_KEY" := "gsk-123"; "TAVILY_API_KEY" := "" ]} in
  let r := fst (main (Ok (echo_agent "ok")) environ [Line "hello"] fresh) in
  let st' := snd (main (Ok (echo_agent "ok")) environ [Line "hello"] fresh) in
  exit_status r = 1%Z /\
  agents_created st' = 0%nat /\
  invocations st' = [] /\
  stdout st' = banner ++ tavily_remediation.
Proof.
  intros environ.
  apply (empty_key_stops_startup (Ok (echo_agent "ok")) environ [Line "hello"] fresh).
  right. vm_compute. reflexivity.
Defined.

(** X8 at a construction that fails for a bad model name. *)
Lemma failed_construction_stops_startup_witness :
  let environ : gmap string string :=
    {[ "GROQ_API_KEY" := "gsk-123"; "TAVILY_API_KEY" := "tvly-456" ]} in
  let create := Raise (Exc (OtherException "ValueError") "unknown model") in
  let r := fst (main create environ [Line "hello"] fresh) in
  let st' := snd (main create environ [Line "hello"] fresh) in
  r = Raise (Exc (SystemExit 1) "1") /\
  exit_status r = 1%Z /\
  invocations st' = [] /\
  chat_history st' = [] /\
  stdout st' =
    banner ++
    [ "✅ API keys loaded successfully!";
      String "010" "🎵 Initializing playlist curator agent...";
      String "010" "❌ Failed to initialize agent: unknown model" ].
Proof.
  intros environ create.
  apply (failed_construction_stops_startup create environ [Line "hello"] fresh
           (Exc (OtherException "ValueError") "unknown model"));
    vm_compute; reflexivity.
Defined.



(** X11 at a short session that runs out of input. *)
Lemma session_ends_with_farewell_witness :
  exists st',
    main_loop (Ok (echo_agent "ok")) (echo_agent "ok")
      [Line "hello"; Line "history"] fresh = (Ok tt, st') /\
    exists line, last (stdout st') = Some line /\ line ∈ farewells.
Proof.
  apply (session_ends_with_farewell (Ok (echo_agent "ok")) (echo_agent "ok")
           [Line "hello"; Line "history"] fresh).
  intros d e H. discriminate H.
Defined.


End CliExtrasWitnesses.

(** ** Further properties of the tools *)

Module StrFacts.
Import PyStr.

Lemma lower_ascii_idem c : lower_ascii (lower_ascii c) = lower_ascii c.
Proof. destruct c as [[] [] [] [] [] [] [] []]; reflexivity. Qed.

Lemma isspace_lower c : isspace (lower_ascii c) = isspace c.
Proof. destruct c as [[] [] [] [] [] [] [] []]; reflexivity. Qed.

Lemma lower_idem s : lower (lower s) = lower s.
Proof.
  induction s as [|c s IH]; [done|]. cbn [lower]. by rewrite lower_ascii_idem, IH.
Qed.

Lemma lstrip_lower s : lstrip (lower s) = lower (lstrip s).
Proof.
  induction s as [|c s IH]; [done|]. cbn [lower lstrip]. rewrite isspace_lower.
  by destruct (isspace c).
Qed.

Lemma rstrip_cons c s :
  rstrip (String c s) =
  match rstrip s with
  | EmptyString => if isspace c then EmptyString else String c EmptyString
  | String a b => String c (String a b)
  end.
Proof. reflexivity. Qed.

Lemma rstrip_lower s : rstrip (lower s) = lower (rstrip s).
Proof.
  induction s as [|c s IH]; [done|].
  change (lower (String c s)) with (String (lower_ascii c) (lower s)).
  rewrite !rstrip_cons, IH, isspace_lower.
  destruct (rstrip s) as [|d r]; [by destruct (isspace c)|reflexivity].
Qed.

Lemma strip_lower s : strip (lower s) = lower (strip s).
Proof. unfold strip. by rewrite lstrip_lower, rstrip_lower. Qed.

Lemma rstrip_idem s : rstrip (rstrip s) = rstrip s.
Proof.
  induction s as [|c s IH]; [done|]. rewrite rstrip_cons.
  destruct (rstrip s) as [|d r] eqn:Hr.
  - destruct (isspace c) eqn:Hc; [done|]. by rewrite rstrip_cons, Hc.
  - by rewrite rstrip_cons, IH.
Qed.

Lemma rstrip_head c s :
  isspace c = false -> exists r, rstrip (String c s) = String c r.
Proof.
  intros Hc. rewrite rstrip_cons, Hc. destruct (rstrip s); by eexists.
Qed.

Lemma strip_idem s : strip (strip s) = strip s.
Proof.
  unfold strip.
  destruct (CliMore.lstrip_head s) as [->|(c & r & -> & Hc)]; [done|].
  destruct (rstrip_head c r Hc) as [r' Hr]. rewrite Hr.
  cbn [lstrip]. rewrite Hc, <- Hr. apply rstrip_idem.
Qed.

(** Lower-casing and trimming a second time changes nothing. *)
Lemma normal_form_idem s : strip (lower (strip (lower s))) = strip (lower s).
Proof. by rewrite <- strip_lower, lower_idem, strip_idem. Qed.

Lemma substring_all s : String.substring 0 (String.length s) s = s.
Proof. induction s as [|c s IH]; [done|]. cbn. by rewrite IH. Qed.

End StrFacts.

Module FloatMore.
Import PyFloat FloatFacts FloatRound FloatExact FloatOps FloatOps2 FloatOps3 FloatOps4.
Import FloatGeneral.

Local Open Scope Z_scope.

Lemma shr_m_nonneg mrs e n : 0 <= shr_m mrs -> 0 <= shr_m (fst (shr mrs e n)).
Proof.
  intros Hm. destruct n as [|p|p]; [done| |done].
  destruct (shr_spec mrs e (Zpos p)) as [_ ->]; [lia|done|].
  apply Z.div_pos; [done|]. apply Z.pow_pos_nonneg; lia.
Qed.

(** Rounding a positive mantissa never gives a NaN. *)
Lemma bra_not_nan s (m : positive) e loc :
  binary_round_aux prec emax s (Zpos m) e loc <> S754_nan.
Proof.
  unfold binary_round_aux, shr_fexp.
  set (n1 := fexp prec emax (Zdigits2 (Zpos m) + e) - e).
  pose proof (shr_m_nonneg (shr_record_of_loc (Zpos m) loc) e n1) as H1.
  rewrite shr_record_of_loc_m in H1. specialize (H1 ltac:(lia)).
  destruct (shr (shr_record_of_loc (Zpos m) loc) e n1) as [mrs' e']. cbn [fst] in H1.
  pose proof (round_nearest_even_bounds (shr_m mrs') (loc_of_shr_record mrs')) as H2.
  set (m2 := round_nearest_even (shr_m mrs') (loc_of_shr_record mrs')) in *.
  set (n2 := fexp prec emax (Zdigits2 m2 + e') - e').
  pose proof (shr_m_nonneg (shr_record_of_loc m2 loc_Exact) e' n2) as H3.
  rewrite shr_record_of_loc_m in H3. specialize (H3 ltac:(lia)).
  destruct (shr (shr_record_of_loc m2 loc_Exact) e' n2) as [mrs2 e2]. cbn [fst] in H3.
  destruct (shr_m mrs2) as [|p|p]; [done| |lia].
  by destruct (e2 <=? emax - prec).
Qed.

Lemma normalize_not_nan M E sz : binary_normalize prec emax M E sz <> S754_nan.
Proof.
  destruct M as [|m|m]; cbn [binary_normalize]; [done| |];
    unfold binary_round; destruct (shl_align _ _ _) as [mz ez]; apply bra_not_nan.
Qed.

(** An [int] that converts to a double converts to a number. *)
Lemma of_int_finite n f : of_int n = Ok f -> finite f = true.
Proof.
  unfold of_int, of_dyadic. pose proof (normalize_not_nan n 0 false) as Hn.
  destruct (binary_normalize prec emax n 0 false); intros [= <-]; done.
Qed.

(** Rounding overflows to an infinity when the exponent it needs is
    beyond the largest one. *)
Lemma bra_overflow s (m : positive) e loc :
  let e1 := fexp prec emax (dig m + e) in
  e <= e1 -> 971 < e1 ->
  binary_round_aux prec emax s (Zpos m) e loc = S754_infinity s.
Proof.
  intros e1 Hle Hbig.
  pose proof (dig_bounds m) as [Hlo Hhi].
  assert (He1eq : e1 = dig m + e - 53) by (subst e1; rewrite fexp_eq in *; lia).
  assert (Hpn : 0 < 2 ^ (e1 - e)) by (apply Z.pow_pos_nonneg; lia).
  unfold binary_round_aux, shr_fexp. cbn [Zdigits2]. fold e1.
  destruct (shr_spec (shr_record_of_loc (Zpos m) loc) e (e1 - e)) as [Hsnd Hfst];
    [lia|by rewrite shr_record_of_loc_m|].
  rewrite shr_record_of_loc_m in Hfst.
  destruct (shr (shr_record_of_loc (Zpos m) loc) e (e1 - e)) as [mrs' e1'].
  cbn [fst snd] in *. replace e1' with e1 by lia.
  set (m1 := Zpos m / 2 ^ (e1 - e)) in *. rewrite Hfst.
  pose proof (round_nearest_even_bounds m1 (loc_of_shr_record mrs')) as Hm2.
  set (m2 := round_nearest_even m1 (loc_of_shr_record mrs')) in *.
  assert (Hm1hi : m1 < 2 ^ 53).
  { apply Z.div_lt_upper_bound; [done|].
    assert (2 ^ dig m <= 2 ^ (e1 - e) * 2 ^ 53).
    { rewrite <- Z.pow_add_r by lia. apply Z.pow_le_mono_r; lia. }
    lia. }
  assert (Hm1lo : 2 ^ 52 <= m1).
  { apply Z.div_le_lower_bound; [done|].
    assert (2 ^ (e1 - e) * 2 ^ 52 <= 2 ^ (dig m - 1)).
    { rewrite <- Z.pow_add_r by lia. apply Z.pow_le_mono_r; lia. }
    lia. }
  cbn [shr_record_of_loc].
  destruct m2 as [|p2|p2] eqn:Hp2; try lia.
  cbn [Zdigits2].
  destruct (Z.eq_dec (Zpos p2) (2 ^ 53)) as [Heq|Hne].
  - assert (Hdig : dig p2 = 54) by (apply dig_unique; rewrite Heq; simpl; lia).
    assert (Hf : fexp prec emax (54 + e1) = e1 + 1) by (rewrite fexp_eq; lia).
    rewrite Hdig, Hf. replace (e1 + 1 - e1) with 1 by lia.
    rewrite (shr_exact p2 (Z.to_pos (2 ^ 52)) e1 1); [|lia|by rewrite Heq].
    cbn [shr_m].
    destruct (e1 + 1 <=? emax - prec) eqn:Hov; [|reflexivity].
    apply Z.leb_le in Hov. unfold emax, prec in Hov. lia.
  - assert (Hdig : dig p2 = 53) by (apply dig_unique; change (53 - 1) with 52; lia).
    assert (Hf : fexp prec emax (53 + e1) = e1) by (rewrite fexp_eq; lia).
    rewrite Hdig, Hf, Z.sub_diag. cbn [shr shr_m].
    destruct (e1 <=? emax - prec) eqn:Hov; [|reflexivity].
    apply Z.leb_le in Hov. unfold emax, prec in Hov. lia.
Qed.

Lemma round_overflow s (m : positive) :
  float_range <= Zpos m -> binary_round prec emax s m 0 = S754_infinity s.
Proof.
  intros Hbig.
  assert (Hd : 1024 < dig m).
  { pose proof (dig_bounds m) as [_ Hhi]. apply pow2_lt_inv; [lia|].
    eapply Z.le_lt_trans; [exact Hbig|exact Hhi]. }
  clear Hbig. unfold binary_round, shl_align.
  set (e1 := fexp prec emax (dig m + 0)).
  assert (He1 : e1 = dig m - 53) by (subst e1; rewrite fexp_eq; lia).
  destruct (e1 - 0) as [|d|d] eqn:Hsub; try lia.
  apply bra_overflow; fold e1; lia.
Qed.

(** Beyond the range of doubles an [int] does not convert. *)
Lemma of_int_overflow n :
  float_range <= Z.abs n ->
  of_int n = Raise (Exc OverflowError "int too large to convert to float").
Proof.
  intros Hbig. unfold of_int, of_dyadic.
  assert (Hpos : 0 < float_range) by (apply Z.pow_pos_nonneg; done).
  destruct n as [|m|m]; cbn [binary_normalize Z.abs] in *; [lia| |];
    by rewrite round_overflow.
Qed.

End FloatMore.

Module ToolsMore.
Import PyFloat FloatFacts FloatOps FloatOps3 FloatDivMod DurationFacts SongCountFacts.
Import ToolsExact FloatMore Tools.

Local Open Scope Z_scope.

(** The duration for the default average, in integer arithmetic: the
    total is [7 n / 2] minutes. *)
Lemma duration_default_integers n :
  Z.abs n <= 2 ^ 50 ->
  calculate_playlist_duration n default_avg_song_duration
  = Ok (duration_text (7 * n / 120) ((7 * n) mod 120 / 2)).
Proof.
  intros Hn. rewrite duration_default by done.
  unfold inject_Z, Qmult. cbn [Qnum Qden]. rewrite estimateDuration_spec_frac.
  change (Zpos (1 * 2)) with 2. change (60 * 2) with 120.
  by rewrite (Z.mul_comm n 7).
Qed.

Lemma duration_parts T :
  let hours := T / 120 in
  let minutes := T mod 120 / 2 in
  120 * hours + 2 * minutes <= T < 120 * hours + 2 * minutes + 2 /\
  0 <= minutes < 60.
Proof.
  intros hours minutes. subst hours minutes.
  pose proof (Z.div_mod T 120 ltac:(lia)) as H1.
  pose proof (Z.mod_pos_bound T 120 ltac:(lia)) as H2.
  pose proof (Z.div_mod (T mod 120) 2 ltac:(lia)) as H3.
  pose proof (Z.mod_pos_bound (T mod 120) 2 ltac:(lia)) as H4.
  lia.
Qed.

(** The song count in integer arithmetic. *)
Lemma song_count_integers d :
  Z.abs d < 2 ^ 50 ->
  suggest_song_count d = Ok (song_count_text d (Z.quot (2 * d) 7)).
Proof. intros Hd. by rewrite song_count_exact. Qed.

(** A total of zero, whatever its sign, reads as no minutes. *)
Lemma duration_of_zero_total n avg f :
  of_int n = Ok f -> has_value (mul f avg) 0 ->
  calculate_playlist_duration n avg = Ok "0 minute(s)".
Proof.
  intros Hf Ht.
  assert (HP : 0 < unit_scale) by apply unit_scale_pos.
  rewrite (duration_exact n avg f 0 Hf Ht).
  - rewrite Z.mod_0_l, !Z.div_0_l; [reflexivity| | |];
      change (2 ^ 1074) with unit_scale; lia.
  - change (2 ^ 1074) with unit_scale. rewrite Z.abs_0.
    apply Z.mul_pos_pos; [done|exact HP].
  - by left.
Qed.

(** The conversions raise instances of [Exception] only. *)
Lemma to_int_raises x e : to_int x = Raise e -> is_Exception e = true.
Proof. destruct x; intros [= <-]; reflexivity. Qed.

Lemma try_except_answers {A} (body : result A) (handler : exc -> result A) :
  (forall e, body = Raise e -> is_Exception e = true) ->
  (forall e, exists a, handler e = Ok a) ->
  exists a, try_except body handler = Ok a.
Proof.
  intros Hbody Hhandler. unfold try_except.
  destruct body as [a|e]; [by exists a|].
  rewrite (Hbody e eq_refl). apply Hhandler.
Qed.

End ToolsMore.

Section ToolExtras.
Import PyFloat Tools StrFacts FloatOps FloatOps3 ToolsExact FloatMore ToolsMore.

Local Open Scope Z_scope.


(** X15.  With the default average of 3.5 minutes and a song count of
    at most [2^50] in magnitude, the minutes shown lie between 0 and 59
    and, with the hours, account for the whole minutes of [3.5 n]; the
    hours are shown from 18 songs on and not below, so a negative count
    is not rejected and shows minutes only. *)
Theorem default_duration_shape n :
  Z.abs n <= 2 ^ 50 ->
  exists hours minutes,
    120 * hours + 2 * minutes <= 7 * n < 120 * hours + 2 * minutes + 2 /\
    0 <= minutes < 60 /\
    (n < 18 ->
       calculate_playlist_duration n default_avg_song_duration
       = Ok (PyStr.str_of_int minutes +:+ " minute(s)")) /\
    (18 <= n ->
       0 < hours /\
       calculate_playlist_duration n default_avg_song_duration
       = Ok (PyStr.str_of_int hours +:+ " hour(s) and "
             +:+ PyStr.str_of_int minutes +:+ " minute(s)")).
Proof.
  intros Hn. exists (7 * n / 120), ((7 * n) mod 120 / 2).
  destruct (duration_parts (7 * n)) as [Hsum Hmin].
  split; [exact Hsum|]. split; [exact Hmin|].
  rewrite (duration_default_integers n Hn). unfold duration_text. split.
  - intros Hlt. replace (0 <? 7 * n / 120) with false; [done|].
    symmetry. apply Z.ltb_ge. lia.
  - intros Hge. assert (0 < 7 * n / 120) by lia. split; [done|].
    by replace (0 <? 7 * n / 120) with true by (symmetry; by apply Z.ltb_lt).
Qed.

(** X16.  The two arithmetic tools agree: for a duration of [d] minutes,
    [0 <= d < 2^50], the suggested number of songs is the largest [k]
    with [3.5 k <= d], and the duration computed for [k] songs, [hours]
    and [minutes], falls short of [d] by at most 3 minutes and never
    exceeds it. *)
Theorem suggested_songs_fit d :
  0 <= d < 2 ^ 50 ->
  exists k hours minutes,
    suggest_song_count d = Ok (song_count_text d k) /\
    7 * k <= 2 * d < 7 * (k + 1) /\
    calculate_playlist_duration k default_avg_song_duration
    = Ok (duration_text hours minutes) /\
    0 <= minutes < 60 /\
    60 * hours + minutes <= d <= 60 * hours + minutes + 3.
Proof.
  intros Hd. set (k := 2 * d / 7).
  pose proof (Z.div_mod (2 * d) 7 ltac:(lia)) as Hk.
  pose proof (Z.mod_pos_bound (2 * d) 7 ltac:(lia)) as Hr. fold k in Hk.
  assert (Hk0 : 0 <= k) by (apply Z.div_pos; lia).
  exists k, (7 * k / 120), ((7 * k) mod 120 / 2).
  destruct (duration_parts (7 * k)) as [Hsum Hmin].
  split; [|split; [lia|split; [|split; [exact Hmin|lia]]]].
  - rewrite song_count_integers by lia. do 2 f_equal.
    apply Z.quot_div_nonneg; lia.
  - apply duration_default_integers. lia.
Qed.

(** X17.  An average of zero, of either sign, gives ["0 minute(s)"] for
    every song count that converts to a double: the floor division and
    the modulo of a zero total are both zero. *)
Theorem zero_average_gives_zero n f s :
  of_int n = Ok f ->
  calculate_playlist_duration n (S754_zero s) = Ok "0 minute(s)".
Proof.
  intros Hf. apply (duration_of_zero_total n _ f Hf).
  apply mul_exact.
  - by apply (of_int_valid n).
  - done.
  - by apply (of_int_finite n).
  - done.
  - cbn [Zval]. ring.
  - apply (representable_int 0). done.
Qed.

(** X18.  A negative duration is not rejected: the quotient is truncated
    towards zero, so [- d] minutes give the count for [d] minutes with
    the opposite sign. *)
Theorem negative_duration_mirrored d :
  0 <= d < 2 ^ 50 ->
  exists k,
    0 <= k /\ 7 * k <= 2 * d < 7 * (k + 1) /\
    suggest_song_count d = Ok (song_count_text d k) /\
    suggest_song_count (- d) = Ok (song_count_text (- d) (- k)).
Proof.
  intros Hd. set (k := 2 * d / 7).
  pose proof (Z.div_mod (2 * d) 7 ltac:(lia)) as Hk.
  pose proof (Z.mod_pos_bound (2 * d) 7 ltac:(lia)) as Hr. fold k in Hk.
  assert (Hq : Z.quot (2 * d) 7 = k) by (apply Z.quot_div_nonneg; lia).
  exists k. split; [apply Z.div_pos; lia|]. split; [lia|]. split.
  - rewrite song_count_integers by lia. by rewrite Hq.
  - rewrite song_count_integers by lia. do 2 f_equal.
    rewrite Z.mul_opp_r, Z.quot_opp_l by lia. by rewrite Hq.
Qed.

(** X19.  [format_playlist_output] never fails and loses nothing: the
    result is the 20-character header line followed by the data, which
    can be read back from it, so different data give different
    results. *)
Theorem format_playlist_output_lossless data :
  exists out,
    format_playlist_output data = Ok out /\
    String.length out = (20 + String.length data)%nat /\
    String.substring 0 20 out = "Formatted Playlist:" +:+ String "010" "" /\
    String.substring 20 (String.length data) out = data /\
    (forall data', format_playlist_output data' = Ok out -> data' = data).
Proof.
  eexists. split; [reflexivity|].
  split; [reflexivity|]. split; [cbn; by destruct data|].
  split; [cbn; apply substring_all|].
  intros data' H. unfold format_playlist_output in H. cbn in H.
  by injection H.
Qed.

(** X20.  A count or a duration of magnitude [2^1024] or more does not
    fit a double: both arithmetic tools catch the overflow and return
    their error text, for every average. *)
Theorem huge_numbers_reported n avg :
  float_range <= Z.abs n ->
  calculate_playlist_duration n avg
  = Ok "Error calculating duration: int too large to convert to float" /\
  suggest_song_count n
  = Ok "Error calculating song count: int too large to convert to float".
Proof.
  intros Hbig. unfold calculate_playlist_duration, suggest_song_count.
  by rewrite (of_int_overflow n Hbig).
Qed.

(** X29.  The four tools never raise: whatever the arguments, a song
    count or duration of any size and an average that may be zero,
    infinite or not a number, each tool returns a text, if need be its
    own error text; the conversions can only raise [OverflowError] and
    [ValueError], which the tools catch, and the divisors are never
    zero. *)
Theorem tools_always_answer :
  (forall n avg, exists text, calculate_playlist_duration n avg = Ok text) /\
  (forall d, exists text, suggest_song_count d = Ok text) /\
  (forall mood activity, exists text, get_mood_music_keywords mood activity = Ok text) /\
  (forall data, exists text, format_playlist_output data = Ok text).
Proof.
  split; [|split; [|split]].
  - intros n avg. unfold calculate_playlist_duration.
    apply try_except_answers; [|by eexists].
    intros e. destruct (of_int n) as [f|e1] eqn:Hf; cbn [mbind result_bind].
    2:{ intros [= <-]. by rewrite (of_int_raises n e1 Hf). }
    unfold floordiv, rem. change (is_zero lit_60) with false. cbv iota.
    cbn [mbind result_bind].
    destruct (to_int (div_mod_floordiv _ _)) as [hours|e1] eqn:Hq; cbn [mbind result_bind].
    2:{ intros [= <-]. by apply to_int_raises in Hq. }
    match goal with |- context [to_int ?x] => destruct (to_int x) as [minutes|e1] eqn:Hr end;
      cbn [mbind result_bind].
    2:{ intros [= <-]. by apply to_int_raises in Hr. }
    by destruct (0 <? hours).
  - intros d. unfold suggest_song_count.
    apply try_except_answers; [|by eexists].
    intros e. destruct (of_int d) as [f|e1] eqn:Hf; cbn [mbind result_bind].
    2:{ intros [= <-]. by rewrite (of_int_raises d e1 Hf). }
    unfold truediv. change (is_zero lit_3_5) with false. cbv iota.
    cbn [mbind result_bind].
    destruct (to_int (cdiv f lit_3_5)) as [k|e1] eqn:Hq; cbn [mbind result_bind]; [done|].
    intros [= <-]. by apply to_int_raises in Hq.
  - intros mood activity. by eexists.
  - intros data. by eexists.
Qed.

End ToolExtras.

Section ToolExtrasWitnesses.
Import PyFloat Tools.

Local Open Scope Z_scope.

(** X15 at twenty songs. *)
Lemma default_duration_shape_witness :
  exists hours minutes,
    120 * hours + 2 * minutes <= 7 * 20 < 120 * hours + 2 * minutes + 2 /\
    0 <= minutes < 60 /\
    (20 < 18 ->
       calculate_playlist_duration 20 default_avg_song_duration
       = Ok (PyStr.str_of_int minutes +:+ " minute(s)")) /\
    (18 <= 20 ->
       0 < hours /\
       calculate_playlist_duration 20 default_avg_song_duration
       = Ok (PyStr.str_of_int hours +:+ " hour(s) and "
             +:+ PyStr.str_of_int minutes +:+ " minute(s)")).
Proof. apply (default_duration_shape 20). simpl. lia. Defined.

(** X16 at one hour. *)
Lemma suggested_songs_fit_witness :
  exists k hours minutes,
    suggest_song_count 60 = Ok (song_count_text 60 k) /\
    7 * k <= 2 * 60 < 7 * (k + 1) /\
    calculate_playlist_duration k default_avg_song_duration
    = Ok (duration_text hours minutes) /\
    0 <= minutes < 60 /\
    60 * hours + minutes <= 60 <= 60 * hours + minutes + 3.
Proof. apply (suggested_songs_fit 60). lia. Defined.

(** X17 at twelve songs and an average of [-0.0]. *)
Lemma zero_average_gives_zero_witness :
  calculate_playlist_duration 12 (S754_zero true) = Ok "0 minute(s)".
Proof.
  apply (zero_average_gives_zero 12 (S754_finite false 6755399441055744 (-49)) true).
  reflexivity.
Defined.

(** X18 at ten minutes. *)
Lemma negative_duration_mirrored_witness :
  exists k,
    0 <= k /\ 7 * k <= 2 * 10 < 7 * (k + 1) /\
    suggest_song_count 10 = Ok (song_count_text 10 k) /\
    suggest_song_count (- 10) = Ok (song_count_text (- 10) (- k)).
Proof. apply (negative_duration_mirrored 10). lia. Defined.

(** X20 at [2^1024] songs of the default length. *)
Lemma huge_numbers_reported_witness :
  calculate_playlist_duration float_range default_avg_song_duration
  = Ok "Error calculating duration: int too large to convert to float" /\
  suggest_song_count float_range
  = Ok "Error calculating song count: int too large to convert to float".
Proof.
  apply (huge_numbers_reported float_range default_avg_song_duration).
  apply Z.le_refl.
Defined.

End ToolExtrasWitnesses.

(** ** The page code around [chat] *)

Module AppFacts.
Import App.

Lemma ui_bind_run {A B} (m : Ui A) (k : A -> Ui B) s :
  (m ≫= k) s =
  match m s with
  | (Ok a, s') => k a s'
  | (Raise e, s') => (Raise e, s')
  end.
Proof. reflexivity. Qed.

(** Equal lists, up to the bracketing of their parts. *)
Ltac same_list := do 3 (rewrite <- ?app_assoc; cbn [List.app]); reflexivity.

Lemma page_eta s :
  Page (messages s) (agent_ready s) (session_executor s) (last_error s)
           (cached_executor s) (chatbox s) (ticks s) (agent_py s) = s.
Proof. by destruct s. Qed.

Section Scan.
Variable clock : nat -> timestamp.
Variable new : string.

(** The scan from the end stops at the first assistant message it
    meets and rewrites it. *)
Lemma scan_found pre m post1 : forall post2 s,
  messages s = (pre ++ m :: post1) ++ post2 ->
  role m = "assistant" ->
  Forall (fun x => role x <> "assistant") post1 ->
  scan_assistant clock (length (pre ++ m :: post1)) new s =
    (Ok tt,
     Page ((pre ++ UiMessage "assistant" new (clock (ticks s)) :: post1) ++ post2)
              (agent_ready s) (session_executor s) (last_error s)
              (cached_executor s) (chatbox s) (S (ticks s)) (agent_py s)).
Proof.
  induction post1 as [|x post1 IH] using rev_ind; intros post2 s Hms Hm Hpost.
  - rewrite length_app, Nat.add_comm. cbn [length Nat.add scan_assistant].
    rewrite ui_bind_run. cbn [get_messages]. cbv beta iota.
    rewrite Hms, <- app_assoc. cbn [List.app]. rewrite list_lookup_middle by done.
    rewrite Hm, String.eqb_refl. cbv iota.
    rewrite ui_bind_run. cbn [now]. cbv beta iota. cbn [set_messages].
    rewrite insert_app_r_alt by done. rewrite Nat.sub_diag. cbn [List.app list_insert].
    by rewrite <- app_assoc.
  - apply Forall_app in Hpost as [Hpost Hx]. rewrite Forall_singleton in Hx.
    replace (pre ++ m :: post1 ++ [x]) with ((pre ++ m :: post1) ++ [x])
      by same_list.
    rewrite length_app, Nat.add_comm. cbn [length Nat.add scan_assistant].
    rewrite ui_bind_run. cbn [get_messages]. cbv beta iota.
    replace (messages s) with ((pre ++ m :: post1) ++ x :: post2)
      by (rewrite Hms; same_list).
    rewrite list_lookup_middle by done.
    rewrite (proj2 (String.eqb_neq _ _) Hx). cbv iota.
    rewrite (IH (x :: post2) s); [|rewrite Hms; same_list|done|done].
    do 2 f_equal. same_list.
Qed.

(** Without an assistant message the scan changes nothing. *)
Lemma scan_none l1 : forall l2 s,
  messages s = l1 ++ l2 ->
  Forall (fun x => role x <> "assistant") l1 ->
  scan_assistant clock (length l1) new s = (Ok tt, s).
Proof.
  induction l1 as [|x l1 IH] using rev_ind; intros l2 s Hms Hall; [done|].
  apply Forall_app in Hall as [Hall Hx]. rewrite Forall_singleton in Hx.
  rewrite length_app, Nat.add_comm. cbn [length Nat.add scan_assistant].
  rewrite ui_bind_run. cbn [get_messages]. cbv beta iota.
  rewrite Hms, <- app_assoc. cbn [List.app]. rewrite list_lookup_middle by done.
  rewrite (proj2 (String.eqb_neq _ _) Hx). cbv iota.
  apply (IH ([x] ++ l2)); [by rewrite Hms, <- app_assoc|done].
Qed.

Lemma replace_found pre m post s :
  messages s = pre ++ m :: post ->
  role m = "assistant" ->
  Forall (fun x => role x <> "assistant") post ->
  replace_last_assistant clock new s =
    (Ok tt,
     Page (pre ++ UiMessage "assistant" new (clock (ticks s)) :: post)
              (agent_ready s) (session_executor s) (last_error s)
              (cached_executor s) (chatbox s) (S (ticks s)) (agent_py s)).
Proof.
  intros Hms Hm Hpost. unfold replace_last_assistant.
  rewrite ui_bind_run. cbn [get_messages]. cbv beta iota. rewrite Hms.
  rewrite (scan_found pre m post [] s); [by rewrite !app_nil_r| |done|done].
  by rewrite app_nil_r.
Qed.

Lemma replace_none s :
  Forall (fun x => role x <> "assistant") (messages s) ->
  replace_last_assistant clock new s = (Ok tt, s).
Proof.
  intros Hall. unfold replace_last_assistant.
  rewrite ui_bind_run. cbn [get_messages]. cbv beta iota.
  apply (scan_none (messages s) []); [by rewrite app_nil_r|done].
Qed.

End Scan.

End AppFacts.

Module AppSteps.
Import App AppFacts.

(** Every list of messages has no assistant message, or a last one. *)
Lemma last_assistant_split (l : list ui_message) :
  Forall (fun x => role x <> "assistant") l \/
  exists pre m post,
    l = pre ++ m :: post /\ role m = "assistant" /\
    Forall (fun x => role x <> "assistant") post.
Proof.
  induction l as [|x l IH] using rev_ind; [by left|].
  destruct (decide (role x = "assistant")) as [Hx|Hx].
  - right. exists l, x, []. by repeat split.
  - destruct IH as [Hall|(pre & m & post & -> & Hm & Hpost)].
    + left. apply Forall_app. split; [done|]. by apply Forall_singleton.
    + right. exists pre, m, (post ++ [x]). split; [same_list|]. split; [done|].
      apply Forall_app. split; [done|]. by apply Forall_singleton.
Qed.

(** Running the page code step by step. *)
Ltac ui_run :=
  repeat (rewrite ui_bind_run;
          cbn [now append_message render set_last_error set_session_executor
               set_cached_executor get_messages set_messages
               messages agent_ready session_executor last_error cached_executor
               chatbox ticks agent_py];
          cbv beta iota).

Ltac ui_simpl :=
  cbn [messages agent_ready session_executor last_error cached_executor
       chatbox ticks agent_py pending];
  cbv beta iota.

Section Submit.
Variable clock : nat -> timestamp.
Variable format_exc : exc -> string.
Variable import_error : option string.
Variable create : result agent_executor.

Lemma handle_submit_eq user_input s :
  PyStr.strip user_input <> "" ->
  handle_submit clock format_exc import_error create true user_input s
  = answer clock format_exc import_error create (PyStr.strip user_input)
      (pending clock (PyStr.strip user_input) s).
Proof.
  intros Hne. unfold handle_submit.
  assert (Hu : PyStr.truthy user_input = true).
  { destruct user_input; [done|reflexivity]. }
  assert (Ht : PyStr.truthy (PyStr.strip user_input) = true).
  { by destruct (PyStr.strip user_input). }
  rewrite Hu, Ht. cbn [andb]. cbv iota zeta.
  ui_run. unfold pending. cbv zeta. by rewrite <- (app_assoc (chatbox s)).
Qed.

End Submit.

End AppSteps.

Section AppExtras.
Import App AppFacts AppSteps.

Variable clock : nat -> timestamp.
Variable format_exc : exc -> string.

(** X21.  The loop that updates the assistant message always ends
    normally and touches at most one message: the roles, and so the
    number of messages, are unchanged; without an assistant message
    nothing changes and the clock is not read; otherwise the last
    assistant message, and only it, gets the new content and the time
    of the update. *)
Theorem last_assistant_replaced new s :
  exists s',
    replace_last_assistant clock new s = (Ok tt, s') /\
    role <$> messages s' = role <$> messages s /\
    (Forall (fun x => role x <> "assistant") (messages s) -> s' = s) /\
    (forall pre m post,
       messages s = pre ++ m :: post -> role m = "assistant" ->
       Forall (fun x => role x <> "assistant") post ->
       messages s' = pre ++ UiMessage "assistant" new (clock (ticks s)) :: post /\
       ticks s' = S (ticks s)).
Proof.
  destruct (last_assistant_split (messages s))
    as [Hall|(pre & m & post & Hms & Hm & Hpost)].
  - exists s. rewrite (replace_none clock new s Hall).
    split; [done|]. split; [done|]. split; [done|].
    intros pre m post Hms Hm _. exfalso.
    rewrite Hms in Hall. apply Forall_app in Hall as [_ Hall].
    apply Forall_cons in Hall as [Hne _]. done.
  - eexists. rewrite (replace_found clock new pre m post s Hms Hm Hpost).
    split; [reflexivity|]. cbn [messages ticks]. split; [|split].
    + rewrite Hms, !fmap_app, !fmap_cons. cbn [role]. by rewrite Hm.
    + intros Hall. exfalso. rewrite Hms in Hall.
      apply Forall_app in Hall as [_ Hall]. apply Forall_cons in Hall as [Hne _]. done.
    + intros pre' m' post' Hms' Hm' Hpost'. split; [|done].
      assert (Hsame : pre' = pre /\ m' = m /\ post' = post).
      { rewrite Hms in Hms'. clear Hms.
        revert pre' Hms'. induction pre as [|x pre IH]; intros [|x' pre'] Heq.
        - by injection Heq as -> ->.
        - injection Heq as -> ->. exfalso.
          apply Forall_app in Hpost as [_ Hpost].
          apply Forall_cons in Hpost as [Hne _]. done.
        - injection Heq as -> <-. exfalso.
          apply Forall_app in Hpost' as [_ Hpost'].
          apply Forall_cons in Hpost' as [Hne _]. done.
        - injection Heq as -> Heq. destruct (IH _ Heq) as (-> & -> & ->). done. }
      by destruct Hsame as (-> & -> & ->).
Qed.





(** X26.  The agent is constructed at most once: with nothing cached, a
    first [ensure_agent_ready()] calls [create_agent()] once, caches the
    executor and stores it in the session; from any later state that
    still holds the cached value, also a new session that holds no
    executor of its own, a call constructs nothing and returns an
    executor. *)
Theorem agent_built_once a s :
  cached_executor s = None -> session_executor s = None ->
  let s1 := snd (ensure_agent_ready None (Ok a) s) in
  fst (ensure_agent_ready None (Ok a) s) = Ok a /\
  session_executor s1 = Some a /\ agent_ready s1 = true /\
  cached_executor s1 = Some a /\
  agents_created (agent_py s1) = S (agents_created (agent_py s)) /\
  (forall s2, cached_executor s2 = Some a ->
     exists a', fst (ensure_agent_ready None (Ok a) s2) = Ok a' /\
       (session_executor s2 = None -> a' = a) /\
       agent_py (snd (ensure_agent_ready None (Ok a) s2)) = agent_py s2).
Proof.
  intros Hcache Hexec s1. subst s1.
  assert (Hfirst : ensure_agent_ready None (Ok a) s =
    (Ok a, Page (messages s) true (Some a) (last_error s) (Some a) (chatbox s) (ticks s)
                (Interp (chat_history (agent_py s)) (stdout (agent_py s))
                        (invocations (agent_py s)) (S (agents_created (agent_py s)))))).
  { unfold ensure_agent_ready. rewrite Hexec.
    replace (match agent_ready s with true | _ => _ end)
      with ((agent_exec ← get_agent_executor_cached None (Ok a);
             set_session_executor agent_exec;; mret agent_exec) s)
      by (by destruct (agent_ready s)).
    ui_run. unfold get_agent_executor_cached at 1. rewrite Hcache.
    ui_run. unfold in_agent, PyM.construct_agent. cbv beta iota.
    ui_run. reflexivity. }
  rewrite Hfirst. cbn [fst snd session_executor agent_ready cached_executor agent_py
                       agents_created].
  repeat split.
  intros s2 Hc2.
  assert (Hcached : get_agent_executor_cached None (Ok a) s2 = (Ok a, s2)).
  { unfold get_agent_executor_cached. by rewrite Hc2. }
  unfold ensure_agent_ready.
  destruct (agent_ready s2) eqn:Hr, (session_executor s2) as [a2|] eqn:Hs2.
  - exists a2. by repeat split.
  - exists a. rewrite !ui_bind_run, Hcached. by repeat split.
  - exists a. rewrite !ui_bind_run, Hcached. by repeat split.
  - exists a. rewrite !ui_bind_run, Hcached. by repeat split.
Qed.

End AppExtras.

Section AppExtrasWitnesses.
Import App Samples.





(** X26 at a fresh process, and then a new session of the same process. *)
Lemma agent_built_once_witness :
  let a := echo_agent "ok" in
  let s := Page [] false None None None [] 0 fresh in
  let s1 := snd (ensure_agent_ready None (Ok a) s) in
  let s2 := Page [] false None None (cached_executor s1) [] 0 (agent_py s1) in
  agents_created (agent_py s1) = 1%nat /\
  agents_created (agent_py (snd (ensure_agent_ready None (Ok a) s2))) = 1%nat.
Proof.
  intros a s s1 s2.
  destruct (agent_built_once a s eq_refl eq_refl) as (_ & _ & _ & _ & Hn & Hlater).
  split; [exact Hn|].
  destruct (Hlater s2 eq_refl) as (a' & _ & _ & ->). exact Hn.
Defined.

End AppExtrasWitnesses.

(** ** The command-line session as a whole *)

Module SessionFacts.
Import PyM Chat ChatFacts Cli CliFacts CliMore.

Lemma loop_body_calls create a line st :
  agents_created (snd (loop_body create a line st)) = agents_created st /\
  (invocations (snd (loop_body create a line st)) = invocations st \/
   (ordinary line /\
    invocations (snd (loop_body create a line st))
    = invocations st ++ [InputData (PyStr.strip line) (format_history (chat_history st))])).
Proof.
  destruct (decide (PyStr.strip line = "")) as [Hblank|Hne].
  { unfold loop_body. rewrite Hblank. by split; [|left]. }
  destruct (decide (PyStr.lower (PyStr.strip line) ∈ ["quit"; "exit"; "q"])) as [Hq|Hq].
  { rewrite (loop_body_quit create a line st Hq). by split; [|left]. }
  destruct (decide (PyStr.lower (PyStr.strip line) = "history")) as [Hh|Hh].
  { rewrite (loop_body_history create a line st Hh). by split; [|left]. }
  destruct (decide (PyStr.lower (PyStr.strip line) = "clear")) as [Hc|Hc].
  { rewrite (loop_body_clear create a line st Hc). by split; [|left]. }
  assert (Hord : ordinary line).
  { split; [done|]. unfold control_tokens.
    rewrite !not_elem_of_cons in Hq. rewrite !not_elem_of_cons. tauto. }
  destruct (loop_body_ordinary_calls create a line st Hord) as [Hinv Hcre].
  split; [exact Hcre|]. right. by split.
Qed.

Lemma main_loop_calls create a stdin : forall st,
  agents_created (snd (main_loop create a stdin st)) = agents_created st /\
  exists requests,
    invocations (snd (main_loop create a stdin st)) = invocations st ++ requests /\
    Forall (caused_by stdin) requests.
Proof.
  induction stdin as [|[s|] rest IH]; intros st.
  - cbn [main_loop]. rewrite bind_run, print_eq. cbv beta iota. rewrite print_eq.
    split; [done|]. exists []. by rewrite app_nil_r.
  - cbn [main_loop]. rewrite bind_run, print_eq. cbv beta iota. rewrite bind_run.
    destruct (loop_body_calls create a s (printed [ "You: " ] st)) as [Hcre Hinv].
    assert (Hmono : forall reqs, Forall (caused_by rest) reqs ->
                                 Forall (caused_by (Line s :: rest)) reqs).
    { intros reqs Hreqs. eapply Forall_impl; [exact Hreqs|].
      intros d (line & Hin & Hord & Hd).
      exists line. split; [by apply list_elem_of_further|done]. }
    destruct (loop_body create a s (printed [ "You: " ] st)) as [[[|]|e] st1];
      cbn [snd] in *; cbv beta iota.
    + destruct (IH st1) as [Hcre' (reqs & Hinv' & Hreqs)].
      split; [by rewrite Hcre', Hcre|].
      destruct Hinv as [Hsame|[Hord Hnew]].
      * exists reqs. split; [by rewrite Hinv', Hsame|by apply Hmono].
      * exists (InputData (PyStr.strip s) (format_history (chat_history st)) :: reqs).
        split; [rewrite Hinv', Hnew; cbn [printed invocations]; by rewrite <- app_assoc|].
        apply Forall_cons. split; [|by apply Hmono].
        exists s. split; [apply list_elem_of_here|done].
    + split; [done|].
      destruct Hinv as [Hsame|[Hord Hnew]].
      * exists []. by rewrite app_nil_r.
      * eexists. split; [exact Hnew|]. apply Forall_singleton.
        exists s. split; [apply list_elem_of_here|done].
    + split; [done|].
      destruct Hinv as [Hsame|[Hord Hnew]].
      * exists []. by rewrite app_nil_r.
      * eexists. split; [exact Hnew|]. apply Forall_singleton.
        exists s. split; [apply list_elem_of_here|done].
  - cbn [main_loop]. rewrite bind_run, print_eq. cbv beta iota. rewrite print_eq.
    split; [done|]. exists []. by rewrite app_nil_r.
Qed.

End SessionFacts.

Section SessionExtras.
Import PyM Chat ChatFacts Cli CliFacts CliMore SessionFacts.

Variable create : result agent_executor.


End SessionExtras.

Section SessionExtrasWitnesses.
Import PyM Chat Cli Samples.


End SessionExtrasWitnesses.
